(** * Bobo desk pet: the interaction pipeline, embedded and verified

    A shallow embedding of the Go sources of the voice front end
    (pkg/voice: audio.go, interface.go, tts, transcriber) and of the
    augmentation engine (pkg/claude: SmartClient), together with the part
    of the Go runtime they rely on (package utf8, package strings, the
    RE2 patterns that the code compiles).

    Go strings are byte sequences: they are [string] here, one [ascii]
    per byte, and a literal with accented letters denotes its UTF-8
    bytes, as it does in a Go source file.  Go's [error] is
    [option string] (the message; [None] is nil).

    The life cycle of the session ([Initialize], [Shutdown] and the
    constructors of the adapters), the environment file of package
    config and the Vertex AI client come after the pipeline, each with
    the oracles it needs. *)

From Stdlib Require Import String Ascii List ZArith Lia Bool Arith DecimalString.
From Stdlib Require PrimFloat.
Import ListNotations.

Local Open Scope string_scope.
Local Open Scope Z_scope.

(* ================================================================== *)
(** * Bytes and small helpers *)

Definition byteZ (c : ascii) : Z := Z.of_N (N_of_ascii c).
Definition byteOfZ (z : Z) : ascii := ascii_of_N (Z.to_N z).

Definition error := string.

(** [s[n:]] and [s[:n]] for [n <= len(s)]. *)
Fixpoint dropBytes (n : nat) (s : string) : string :=
  match n, s with
  | O, _ => s
  | S k, String _ t => dropBytes k t
  | S _, EmptyString => EmptyString
  end.

Fixpoint takeBytes (n : nat) (s : string) : string :=
  match n, s with
  | O, _ => EmptyString
  | S k, String c t => String c (takeBytes k t)
  | S _, EmptyString => EmptyString
  end.

Fixpoint revString (acc s : string) : string :=
  match s with
  | EmptyString => acc
  | String c t => revString (String c acc) t
  end.

Definition isEmpty (s : string) : bool :=
  match s with EmptyString => true | _ => false end.

Fixpoint allBytes (p : ascii -> bool) (s : string) : bool :=
  match s with
  | EmptyString => true
  | String c t => p c && allBytes p t
  end.

Fixpoint mapBytes (f : ascii -> ascii) (s : string) : string :=
  match s with
  | EmptyString => EmptyString
  | String c t => String (f c) (mapBytes f t)
  end.

(** A function that may panic (Go's run-time panics are not errors). *)
Inductive Outcome (A : Type) : Type :=
| Returned (a : A)
| Panicked (msg : string).
Arguments Returned {A} a.
Arguments Panicked {A} msg.

(* ================================================================== *)
(** * Package unicode/utf8 *)

Module utf8.

Definition RuneError : Z := 0xFFFD.
Definition RuneSelf : Z := 0x80.
Definition MaxRune : Z := 0x10FFFF.
Definition surrogateMin : Z := 0xD800.
Definition surrogateMax : Z := 0xDFFF.

Definition maskx : Z := 0x3F.
Definition mask2 : Z := 0x1F.
Definition mask3 : Z := 0x0F.
Definition mask4 : Z := 0x07.
Definition locb : Z := 0x80.
Definition hicb : Z := 0xBF.

(** The [first] table joined with [acceptRanges]: what the first byte of
    a sequence announces. *)
Inductive firstInfo : Type :=
| AS                                   (* ASCII, size 1 *)
| XX                                   (* invalid, size 1 *)
| Lead (sz : nat) (lo hi : Z).         (* size and accepted range of the second byte *)

Definition first (b : Z) : firstInfo :=
  if b <? 0x80 then AS
  else if b <? 0xC2 then XX
  else if b <? 0xE0 then Lead 2 locb hicb
  else if b =? 0xE0 then Lead 3 0xA0 hicb
  else if b <? 0xED then Lead 3 locb hicb
  else if b =? 0xED then Lead 3 locb 0x9F
  else if b <? 0xF0 then Lead 3 locb hicb
  else if b =? 0xF0 then Lead 4 0x90 hicb
  else if b <? 0xF4 then Lead 4 locb hicb
  else if b =? 0xF4 then Lead 4 locb 0x8F
  else XX.

Definition isCont (b : Z) : bool := (locb <=? b) && (b <=? hicb).

(** [utf8.DecodeRuneInString]: the first rune of [s] and its width in
    bytes; [(RuneError, 0)] on the empty string, [(RuneError, 1)] on an
    invalid or truncated encoding. *)
Definition DecodeRuneInString (s : string) : Z * nat :=
  match s with
  | EmptyString => (RuneError, 0%nat)
  | String c0 t0 =>
      let s0 := byteZ c0 in
      match first s0 with
      | AS => (s0, 1%nat)
      | XX => (RuneError, 1%nat)
      | Lead sz lo hi =>
          if (String.length s <? sz)%nat then (RuneError, 1%nat)
          else
            match t0 with
            | EmptyString => (RuneError, 1%nat)
            | String c1 t1 =>
                let s1 := byteZ c1 in
                if (s1 <? lo) || (hi <? s1) then (RuneError, 1%nat)
                else if (sz <=? 2)%nat
                then (Z.lor (Z.shiftl (Z.land s0 mask2) 6) (Z.land s1 maskx), 2%nat)
                else
                  match t1 with
                  | EmptyString => (RuneError, 1%nat)
                  | String c2 t2 =>
                      let s2 := byteZ c2 in
                      if negb (isCont s2) then (RuneError, 1%nat)
                      else if (sz <=? 3)%nat
                      then (Z.lor (Z.lor (Z.shiftl (Z.land s0 mask3) 12)
                                         (Z.shiftl (Z.land s1 maskx) 6))
                                  (Z.land s2 maskx), 3%nat)
                      else
                        match t2 with
                        | EmptyString => (RuneError, 1%nat)
                        | String c3 _ =>
                            let s3 := byteZ c3 in
                            if negb (isCont s3) then (RuneError, 1%nat)
                            else (Z.lor (Z.lor (Z.lor (Z.shiftl (Z.land s0 mask4) 18)
                                                      (Z.shiftl (Z.land s1 maskx) 12))
                                               (Z.shiftl (Z.land s2 maskx) 6))
                                        (Z.land s3 maskx), 4%nat)
                        end
                  end
            end
      end
  end.

(** [utf8.RuneStart]: not a continuation byte. *)
Definition RuneStart (b : Z) : bool := negb (Z.land b 0xC0 =? 0x80).

(** The loop of [DecodeLastRuneInString] that walks back from the byte
    before the last one, at most three steps, to a byte that can start a
    rune.  [rev] holds the bytes before the last one, nearest first;
    the result is how many bytes the candidate rune spans. *)
Fixpoint lastStart (steps : nat) (rev : string) (k : nat) : option nat :=
  match steps, rev with
  | S n, String c t =>
      if RuneStart (byteZ c) then Some (S k) else lastStart n t (S k)
  | _, _ => None
  end.

(** [utf8.DecodeLastRuneInString]. *)
Definition DecodeLastRuneInString (s : string) : Z * nat :=
  match revString EmptyString s with
  | EmptyString => (RuneError, 0%nat)
  | String cl before =>
      let r := byteZ cl in
      if r <? RuneSelf then (r, 1%nat)
      else
        match lastStart 3 before 1 with
        | None => (RuneError, 1%nat)
        | Some k =>
            let '(r', size) :=
              DecodeRuneInString (dropBytes (String.length s - k) s) in
            if (size =? k)%nat then (r', size) else (RuneError, 1%nat)
        end
  end.

(** [utf8.AppendRune] on an empty buffer: the encoding of a rune. *)
Definition EncodeRune (r : Z) : string :=
  if (0 <=? r) && (r <? 0x80) then String (byteOfZ r) EmptyString
  else if (0 <=? r) && (r <? 0x800) then
    String (byteOfZ (Z.lor 0xC0 (Z.shiftr r 6)))
      (String (byteOfZ (Z.lor 0x80 (Z.land r maskx))) EmptyString)
  else if (r <? 0) || (MaxRune <? r) || ((surrogateMin <=? r) && (r <=? surrogateMax)) then
    String (byteOfZ 0xEF) (String (byteOfZ 0xBF) (String (byteOfZ 0xBD) EmptyString))
  else if r <? 0x10000 then
    String (byteOfZ (Z.lor 0xE0 (Z.shiftr r 12)))
      (String (byteOfZ (Z.lor 0x80 (Z.land (Z.shiftr r 6) maskx)))
         (String (byteOfZ (Z.lor 0x80 (Z.land r maskx))) EmptyString))
  else
    String (byteOfZ (Z.lor 0xF0 (Z.shiftr r 18)))
      (String (byteOfZ (Z.lor 0x80 (Z.land (Z.shiftr r 12) maskx)))
         (String (byteOfZ (Z.lor 0x80 (Z.land (Z.shiftr r 6) maskx)))
            (String (byteOfZ (Z.lor 0x80 (Z.land r maskx))) EmptyString))).

(** What [for _, r := range s] and the regexp engine see: the runes of
    [s] in order, each with the bytes it was decoded from.  An invalid
    byte is its own rune, [RuneError]. *)
Fixpoint runesFuel (fuel : nat) (s : string) : list (Z * string) :=
  match fuel with
  | O => []
  | S f =>
      match s with
      | EmptyString => []
      | _ =>
          let '(r, w) := DecodeRuneInString s in
          (r, takeBytes w s) :: runesFuel f (dropBytes w s)
      end
  end.

Definition runes (s : string) : list (Z * string) :=
  runesFuel (String.length s) s.

Definition runeValues (s : string) : list Z := map fst (runes s).

Fixpoint concatBytes (l : list string) : string :=
  match l with
  | [] => EmptyString
  | x :: t => x ++ concatBytes t
  end.

End utf8.

(* ================================================================== *)
(** * Package unicode *)

(** The case tables of package unicode are data of the Go runtime; the
    development is parametric in the lower-case mapping of the runes
    above ASCII ([unicode.To(unicode.LowerCase, r)]). *)
Class CaseTables : Type := { toLowerCase : Z -> Z }.

Module unicode.

Definition MaxASCII : Z := 0x7F.
Definition MaxLatin1 : Z := 0xFF.

(** [unicode.IsSpace]: the Latin-1 switch, then the White_Space table. *)
Definition IsSpace (r : Z) : bool :=
  if (0 <=? r) && (r <=? MaxLatin1) then
    (r =? 0x09) || (r =? 0x0A) || (r =? 0x0B) || (r =? 0x0C) || (r =? 0x0D)
    || (r =? 0x20) || (r =? 0x85) || (r =? 0xA0)
  else
    (r =? 0x1680) || ((0x2000 <=? r) && (r <=? 0x200A))
    || (r =? 0x2028) || (r =? 0x2029) || (r =? 0x202F)
    || (r =? 0x205F) || (r =? 0x3000).

(** [unicode.ToLower]. *)
Definition ToLower {tables : CaseTables} (r : Z) : Z :=
  if r <=? MaxASCII then
    if (0x41 <=? r) && (r <=? 0x5A) then r + 0x20 else r
  else toLowerCase r.

End unicode.

(* ================================================================== *)
(** * Package strings, strconv and fmt's verbs *)

Module strings.

Fixpoint HasPrefix (s prefix : string) {struct prefix} : bool :=
  match prefix, s with
  | EmptyString, _ => true
  | String p pt, String c t => Ascii.eqb c p && HasPrefix t pt
  | String _ _, EmptyString => false
  end.

(** [strings.Contains]: [substr] occurs at some byte offset of [s]. *)
Fixpoint Contains (s substr : string) : bool :=
  HasPrefix s substr
  || match s with
     | EmptyString => false
     | String _ t => Contains t substr
     end.

Fixpoint Join (elems : list string) (sep : string) : string :=
  match elems with
  | [] => EmptyString
  | [x] => x
  | x :: t => x ++ sep ++ Join t sep
  end.

(** [strings.Split(s, sep)] for a separator of one byte. *)
Fixpoint SplitByte (s : string) (sep : ascii) : list string :=
  match s with
  | EmptyString => [EmptyString]
  | String c t =>
      if Ascii.eqb c sep then EmptyString :: SplitByte t sep
      else match SplitByte t sep with
           | h :: r => String c h :: r
           | [] => [String c EmptyString]
           end
  end.

Definition newline : ascii := ascii_of_nat 10.
Definition Split_nl (s : string) : list string := SplitByte s newline.

(** [strings.ReplaceAll(s, old, new)] for a non-empty [old]: the
    non-overlapping occurrences, leftmost first.  [skip] counts the
    bytes of an occurrence still to be passed over. *)
Fixpoint replaceAllFrom (old new : string) (skip : nat) (s : string) : string :=
  match s with
  | EmptyString => EmptyString
  | String c t =>
      match skip with
      | S k => replaceAllFrom old new k t
      | O =>
          if HasPrefix s old
          then new ++ replaceAllFrom old new (String.length old - 1) t
          else String c (replaceAllFrom old new 0 t)
      end
  end.

Definition ReplaceAll (s old new : string) : string := replaceAllFrom old new 0 s.

Definition isASCIIByte (c : ascii) : bool := byteZ c <? utf8.RuneSelf.
Definition isASCII (s : string) : bool := allBytes isASCIIByte s.

Definition lowerByte (c : ascii) : ascii :=
  let b := byteZ c in
  if (0x41 <=? b) && (b <=? 0x5A) then byteOfZ (b + 0x20) else c.

(** [strings.Map]: a rune that the mapping leaves alone keeps its bytes,
    a negative result drops the rune, anything else is written encoded;
    an invalid byte reads as [RuneError] and is written as the encoding
    of its image. *)
Definition mapRune (mapping : Z -> Z) (cb : Z * string) : string :=
  let '(c, bytes) := cb in
  let r := mapping c in
  if (r =? c) && negb (c =? utf8.RuneError) then bytes
  else if (c =? utf8.RuneError) && negb (String.length bytes =? 1)%nat && (r =? c)
  then bytes
  else if 0 <=? r then utf8.EncodeRune r else EmptyString.

Definition Map (mapping : Z -> Z) (s : string) : string :=
  utf8.concatBytes (map (mapRune mapping) (utf8.runes s)).

(** [strings.ToLower]: the ASCII fast path, else [Map(unicode.ToLower, s)]. *)
Definition ToLower {tables : CaseTables} (s : string) : string :=
  if isASCII s then mapBytes lowerByte s
  else Map unicode.ToLower s.

(** The [asciiSpace] table. *)
Definition asciiSpace (c : ascii) : bool :=
  let b := byteZ c in
  (b =? 0x09) || (b =? 0x0A) || (b =? 0x0B) || (b =? 0x0C) || (b =? 0x0D) || (b =? 0x20).

(** [strings.TrimLeftFunc]: [s[i:]] for the first rune at [i] that fails
    [f], the empty string when every rune passes. *)
Fixpoint trimLeftFuncFuel (fuel : nat) (f : Z -> bool) (s : string) : string :=
  match fuel with
  | O => EmptyString
  | S k =>
      match s with
      | EmptyString => EmptyString
      | _ =>
          let '(r, w) := utf8.DecodeRuneInString s in
          if f r then trimLeftFuncFuel k f (dropBytes w s) else s
      end
  end.

Definition TrimLeftFunc (s : string) (f : Z -> bool) : string :=
  trimLeftFuncFuel (String.length s) f s.

(** [lastIndexFunc(s, f, false)], decoding backwards from offset [i]. *)
Fixpoint lastIndexFuncFuel (fuel : nat) (f : Z -> bool) (s : string) (i : nat)
  : option nat :=
  match fuel with
  | O => None
  | S k =>
      match i with
      | O => None
      | _ =>
          let '(r, size) := utf8.DecodeLastRuneInString (takeBytes i s) in
          let i' := (i - size)%nat in
          if f r then lastIndexFuncFuel k f s i' else Some i'
      end
  end.

Definition TrimRightFunc (s : string) (f : Z -> bool) : string :=
  match lastIndexFuncFuel (String.length s) f s (String.length s) with
  | Some i =>
      match dropBytes i s with
      | String c _ =>
          if utf8.RuneSelf <=? byteZ c then
            let '(_, wid) := utf8.DecodeRuneInString (dropBytes i s) in
            takeBytes (i + wid) s
          else takeBytes (i + 1) s
      | EmptyString => takeBytes (i + 1) s
      end
  | None => EmptyString
  end.

Definition TrimFunc (s : string) (f : Z -> bool) : string :=
  TrimRightFunc (TrimLeftFunc s f) f.

(** The first loop of [TrimSpace]: [s[start:]], and whether a byte
    outside ASCII sent the function to the slow path. *)
Fixpoint trimSpaceStart (s : string) : string * bool :=
  match s with
  | EmptyString => (EmptyString, false)
  | String c t =>
      if utf8.RuneSelf <=? byteZ c then (s, true)
      else if asciiSpace c then trimSpaceStart t
      else (s, false)
  end.

(** [strings.TrimSpace]. *)
Definition TrimSpace (s : string) : string :=
  let '(s1, slow) := trimSpaceStart s in
  if slow then TrimFunc s1 unicode.IsSpace
  else
    let '(r1, slow') := trimSpaceStart (revString EmptyString s1) in
    let s2 := revString EmptyString r1 in
    if slow' then TrimRightFunc s2 unicode.IsSpace else s2.

End strings.

Module strconv.
(** [strconv.Itoa], also the [%d] verb. *)
Definition Itoa (n : Z) : string :=
  NilZero.string_of_int (Z.to_int n).
End strconv.

(* ================================================================== *)
(** * Package regexp: the patterns the program compiles

    RE2 walks the input rune by rune (an invalid byte is the rune
    [RuneError]).  [MatchString] is modelled by derivatives over the
    runes of the input; [FindStringSubmatch] and [ReplaceAllString] are
    given for the shapes of pattern that the program uses. *)

Module regexp.

Inductive re : Type :=
| Void
| Eps
| Sym (p : Z -> bool)
| Cat (a b : re)
| Alt (a b : re)
| Star (a : re).

Fixpoint nullable (r : re) : bool :=
  match r with
  | Void => false
  | Eps => true
  | Sym _ => false
  | Cat a b => nullable a && nullable b
  | Alt a b => nullable a || nullable b
  | Star _ => true
  end.

Definition isVoid (r : re) : bool :=
  match r with Void => true | _ => false end.

Definition cat (a b : re) : re :=
  if isVoid a then Void else if isVoid b then Void else Cat a b.

Definition alt (a b : re) : re :=
  if isVoid a then b else if isVoid b then a else Alt a b.

Fixpoint deriv (c : Z) (r : re) : re :=
  match r with
  | Void => Void
  | Eps => Void
  | Sym p => if p c then Eps else Void
  | Cat a b =>
      if nullable a then alt (cat (deriv c a) b) (deriv c b)
      else cat (deriv c a) b
  | Alt a b => alt (deriv c a) (deriv c b)
  | Star a => cat (deriv c a) (Star a)
  end.

Fixpoint matches (r : re) (w : list Z) : bool :=
  match w with
  | [] => nullable r
  | c :: t => matches (deriv c r) t
  end.

(** A compiled pattern: its body, and whether [^] and [$] frame it. *)
Record Regexp : Type := {
  body : re;
  atStart : bool;
  atEnd : bool
}.

Definition anyRune : re := Sym (fun _ => true).

Definition framed (r : Regexp) : re :=
  let left := if atStart r then body r else Cat (Star anyRune) (body r) in
  if atEnd r then left else Cat left (Star anyRune).

(** The method [MatchString] of a compiled pattern. *)
Definition MatchString (r : Regexp) (s : string) : bool :=
  matches (framed r) (utf8.runeValues s).

(** ** Character classes *)

Definition chr (c : Z) : re := Sym (fun r => r =? c).

(** [.] without the [s] flag. *)
Definition dot : re := Sym (fun r => negb (r =? 0x0A)).

(** [\s] is [[\t\n\f\r ]]. *)
Definition perlSpace (r : Z) : bool :=
  (r =? 0x09) || (r =? 0x0A) || (r =? 0x0C) || (r =? 0x0D) || (r =? 0x20).

(** [\w] is [[0-9A-Za-z_]]. *)
Definition perlWord (r : Z) : bool :=
  ((0x30 <=? r) && (r <=? 0x39)) || ((0x41 <=? r) && (r <=? 0x5A))
  || ((0x61 <=? r) && (r <=? 0x7A)) || (r =? 0x5F).

Definition isUpperASCII (r : Z) : bool := (0x41 <=? r) && (r <=? 0x5A).
Definition isLowerASCII (r : Z) : bool := (0x61 <=? r) && (r <=? 0x7A).

(** Under [(?i)] a literal ASCII rune [p] matches the runes of its
    simple-folding orbit: both cases of a letter, and the two letters
    whose orbit leaves ASCII, U+212A for k and U+017F for s. *)
Definition foldEq (p r : Z) : bool :=
  (r =? p)
  || (isUpperASCII p && (r =? p + 0x20))
  || (isLowerASCII p && (r =? p - 0x20))
  || (((p =? 0x4B) || (p =? 0x6B)) && (r =? 0x212A))
  || (((p =? 0x53) || (p =? 0x73)) && (r =? 0x17F)).

Fixpoint literal (eq : Z -> Z -> bool) (pattern : list Z) : re :=
  match pattern with
  | [] => Eps
  | p :: t => Cat (Sym (eq p)) (literal eq t)
  end.

(** [regexp.Compile("(?i)" + pattern)] for a pattern without
    metacharacters: a case-insensitive literal, found anywhere. *)
Definition compileFoldLiteral (pattern : string) : Regexp :=
  {| body := literal foldEq (utf8.runeValues pattern);
     atStart := false; atEnd := false |}.

(** [^\s*\[.*-->\s*.*\]\s*$] *)
Definition timestampPattern : Regexp :=
  {| body :=
       Cat (Star (Sym perlSpace))
      (Cat (chr 0x5B)
      (Cat (Star dot)
      (Cat (literal Z.eqb [0x2D; 0x2D; 0x3E])
      (Cat (Star (Sym perlSpace))
      (Cat (Star dot)
      (Cat (chr 0x5D)
           (Star (Sym perlSpace))))))));
     atStart := true; atEnd := true |}.

(** ** Submatch of [(?i)kw\s+([A-Za-z\s]+)] *)

(** [[A-Za-z\s]] under [(?i)]: folding adds U+017F and U+212A. *)
Definition locationClass (r : Z) : bool :=
  isUpperASCII r || isLowerASCII r || perlSpace r || (r =? 0x17F) || (r =? 0x212A).

Fixpoint spanRunes (p : Z -> bool) (l : list (Z * string))
  : list (Z * string) * list (Z * string) :=
  match l with
  | [] => ([], [])
  | x :: t =>
      if p (fst x) then let '(a, b) := spanRunes p t in (x :: a, b)
      else ([], l)
  end.

Definition bytesOf (l : list (Z * string)) : string :=
  utf8.concatBytes (map snd l).

(** The match that starts right after the keyword, if there is one.
    [\s+] is greedy: it takes the whole run of spaces when a class rune
    follows the run, and gives the last space back to the group
    otherwise, which needs a run of two at least. *)
Definition groupAfterKeyword (rest : list (Z * string)) : option string :=
  let '(spaces, after) := spanRunes perlSpace rest in
  match spaces with
  | [] => None
  | _ =>
      let '(grp, _) := spanRunes locationClass after in
      match grp with
      | _ :: _ => Some (bytesOf grp)
      | [] =>
          match rev spaces with
          | lastSp :: _ :: _ => Some (snd lastSp)
          | _ => None
          end
      end
  end.

(** Leftmost match of the two-letter keyword [k1 k2]; the result is the
    text of group 1. *)
Fixpoint findKeywordGroup (k1 k2 : Z) (l : list (Z * string)) : option string :=
  match l with
  | [] => None
  | x :: t =>
      let here :=
        match t with
        | y :: rest =>
            if foldEq k1 (fst x) && foldEq k2 (fst y)
            then groupAfterKeyword rest else None
        | [] => None
        end in
      match here with
      | Some g => Some g
      | None => findKeywordGroup k1 k2 t
      end
  end.

(** [FindStringSubmatch] of [(?i)k1k2\s+([A-Za-z\s]+)], reduced to
    group 1 ([None] when [len(matches) <= 1], that is, no match). *)
Definition FindLocationGroup (k1 k2 : Z) (s : string) : option string :=
  findKeywordGroup k1 k2 (utf8.runes s).

(** ** Replacement of runs of a one-byte class

    The classes below hold ASCII runes only, and an ASCII byte is always
    a rune of its own, so the runs can be read off the bytes. *)

Fixpoint chunks (p : ascii -> bool) (s : string) : list (bool * string) :=
  match s with
  | EmptyString => []
  | String c t =>
      match chunks p t with
      | (b, g) :: rest =>
          if Bool.eqb b (p c) then (b, String c g) :: rest
          else (p c, String c EmptyString) :: (b, g) :: rest
      | [] => [(p c, String c EmptyString)]
      end
  end.

(** [ReplaceAllString] for a pattern [[class]{n,}] with [n >= 1]. *)
Definition replaceRuns (p : ascii -> bool) (n : nat) (repl : string) (s : string)
  : string :=
  utf8.concatBytes
    (map (fun bg : bool * string =>
            let '(b, g) := bg in
            if b && (n <=? String.length g)%nat then repl else g)
         (chunks p s)).

(** [ReplaceAllString] for a pattern that is one class of runes. *)
Definition replaceRunes (p : Z -> bool) (repl : string) (s : string) : string :=
  utf8.concatBytes
    (map (fun rb : Z * string => if p (fst rb) then repl else snd rb)
         (utf8.runes s)).

Definition byteIs (z : Z) (c : ascii) : bool := byteZ c =? z.
Definition bytePerlSpace (c : ascii) : bool := perlSpace (byteZ c).

End regexp.

(* ================================================================== *)
(** * Data declared by the packages *)

Definition nl : string := String (ascii_of_nat 10) EmptyString.

(** ** package config *)

Record VertexAIConfig : Type := {
  ProjectID : string;
  Location : string;
  Model : string;
  MaxTokens : Z;
  Temperature : PrimFloat.float;
  SystemPrompt : string;
  EnableAutoSearch : bool
}.

Record VoiceConfig : Type := {
  UseWhisperCpp : bool;
  WhisperCppPath : string;
  WhisperModelPath : string;
  SampleRate : Z;
  Channels : Z;
  ChunkSize : Z
}.

Record TTSConfig : Type := {
  Enabled : bool;
  Rate : Z;
  Volume : PrimFloat.float;
  VoiceID : string
}.

Record Config : Type := {
  VertexAI : VertexAIConfig;
  Voice : VoiceConfig;
  TTS : TTSConfig
}.

(** ** package claude *)

Record Message : Type := {
  Role : string;
  Content : string
}.

Record SearchResult : Type := {
  Title : string;
  Snippet : string;
  Source : string
}.

Record SearchResults : Type := {
  Results : list SearchResult;
  Error : string
}.

(* ================================================================== *)
(** * Effects

    The program talks to the model endpoint, to child processes, to the
    file system, to the terminal and to its logger.  A computation
    threads the state of its receiver and the history of these events;
    what the outside answers is read from a [World], as a function of
    the history so far.  A log event keeps the level and the message of
    the call, not its attributes. *)

Inductive Level : Type := LevelDebug | LevelInfo | LevelWarn | LevelError.

Inductive StatResult : Type := StatOk | StatNotExist | StatFailed (e : error).

Inductive ReadResult : Type :=
| Line (s : string)
| ErrInterrupt
| EOF
| ReadFailed (e : error).

Inductive Event : Type :=
| Log (lvl : Level) (msg : string)
| VertexCall (messages : list Message) (text : string) (err : option error)
| Lookup (query : string) (found : option SearchResults)
| Exec (name : string) (args : list string) (dir : option string)
       (output : string) (err : option error)
| MkdirAll (path : string) (err : option error)
| Stat (path : string) (r : StatResult)
| ReadFile (path : string) (data : string) (err : option error)
| Remove (path : string)
| Readline (r : ReadResult).

(** How the [select] of [RecordAudio] went: for each tick taken before
    the loop ended, whether the progress was still at most 100, then the
    case that ended it. *)
Inductive SelectEnd : Type := RecordingDone | CtxDone (e : error).

Class World : Type := {
  vertexSend : list Event -> list Message -> string * option error;
  execRun : list Event -> string -> list string -> option string
            -> string * option error;
  osMkdirAll : list Event -> string -> option error;
  osTempDir : string;
  osStat : list Event -> string -> StatResult;
  osReadFile : list Event -> string -> string * option error;
  filepathAbs : string -> string * option error;
  filepathJoin : string -> string -> string;
  filepathDir : string -> string;
  timeNowFormat : list Event -> string;
  recordSelect : list Event -> list bool * SelectEnd
}.

Definition M (St A : Type) : Type :=
  St -> list Event -> Outcome A * St * list Event.

Definition ret {St A} (a : A) : M St A :=
  fun s h => (Returned a, s, h).

Definition bind {St A B} (m : M St A) (k : A -> M St B) : M St B :=
  fun s h =>
    match m s h with
    | (Returned a, s', h') => k a s' h'
    | (Panicked msg, s', h') => (Panicked msg, s', h')
    end.

Definition panic {St A} (msg : string) : M St A :=
  fun s h => (Panicked msg, s, h).

Definition emit {St} (e : Event) : M St unit :=
  fun s h => (Returned tt, s, (h ++ [e])%list).

Definition history {St} : M St (list Event) :=
  fun s h => (Returned h, s, h).

Definition get {St} : M St St :=
  fun s h => (Returned s, s, h).

Definition put {St} (s' : St) : M St unit :=
  fun _ h => (Returned tt, s', h).

Declare Scope go_scope.
Delimit Scope go_scope with go.
Notation "x <- m ;; k" := (bind m (fun x => k))
  (at level 61, m at next level, right associativity) : go_scope.
Notation "' p <- m ;; k" := (bind m (fun p => k))
  (at level 61, p pattern, m at next level, right associativity) : go_scope.
Notation "m ;; k" := (bind m (fun _ => k))
  (at level 61, right associativity) : go_scope.
Local Open Scope go_scope.

Definition log {St} (lvl : Level) (msg : string) : M St unit :=
  emit (Log lvl msg).

(** [s[:n]]: a slice beyond the length is a run-time panic. *)
Definition sliceTo {St} (s : string) (n : nat) : M St string :=
  if (String.length s <? n)%nat
  then panic ("runtime error: slice bounds out of range [:" ++
              strconv.Itoa (Z.of_nat n) ++ "] with length " ++
              strconv.Itoa (Z.of_nat (String.length s)))
  else ret (takeBytes n s).

(** The events that are calls to the model endpoint. *)
Definition isVertexCall (e : Event) : bool :=
  match e with VertexCall _ _ _ => true | _ => false end.

Definition isLookup (e : Event) : bool :=
  match e with Lookup _ _ => true | _ => false end.

Definition isExec (e : Event) : bool :=
  match e with Exec _ _ _ _ _ => true | _ => false end.

Definition isLog (e : Event) : bool :=
  match e with Log _ _ => true | _ => false end.

(* ================================================================== *)
(** * package claude: the SmartClient *)

Module claude.

Section Engine.
Context {tables : CaseTables} {world : World}.
Context {St : Type}.

Record SmartClient : Type := {
  autoSearchEnabled : bool;
  searchTriggers : list regexp.Regexp
}.

Definition triggerPatterns : list string :=
  [ "I don't have access to current information";
    "I cannot provide real-time information";
    "I don't have access to weather data";
    "real-time weather information";
    "I don't have access to internet";
    "updated data";
    "I don't have access to real-time";
    "I don't have access to current";
    "I cannot access current";
    "I don't have internet access";
    "real-time information";
    "current information";
    "up-to-date information" ].

Definition NewSmartClient (cfg : VertexAIConfig) : SmartClient :=
  {| autoSearchEnabled := EnableAutoSearch cfg;
     searchTriggers := map regexp.compileFoldLiteral triggerPatterns |}.

(** [VertexClient.SendMessage]: one exchange with the endpoint. *)
Definition vertexSendMessage (messages : list Message)
  : M St (string * option error) :=
  h <- history ;;
  let r := vertexSend h messages in
  emit (VertexCall messages (fst r) (snd r)) ;;
  ret r.

Fixpoint containsAny (text : string) (substrings : list string) : bool :=
  match substrings with
  | [] => false
  | substring :: rest =>
      if strings.Contains text substring then true else containsAny text rest
  end.

(** [messages[len(messages)-1].Content], for a non-empty slice. *)
Definition lastContent (messages : list Message) : option string :=
  match rev messages with
  | [] => None
  | m :: _ => Some (Content m)
  end.

Definition currentIndicators : list string :=
  [ "hoy"; "today"; "ahora"; "now"; "actual"; "current";
    "reciente"; "recent"; "último"; "latest"; "tiempo";
    "weather"; "noticias"; "news"; "precio"; "price" ].

(** [needsWebSearch]; the two debug lines it writes are not recorded. *)
Definition needsWebSearch (s : SmartClient) (response : string)
    (messages : list Message) : bool :=
  if existsb (fun trigger => regexp.MatchString trigger response) (searchTriggers s)
  then true
  else
    match lastContent messages with
    | Some content => containsAny (strings.ToLower content) currentIndicators
    | None => false
    end.

(** The three location patterns, [(?i)en\s+(...)], [(?i)in\s+(...)],
    [(?i)de\s+(...)], tried in this order. *)
Definition locationPatterns : list (Z * Z) :=
  [ (0x65, 0x6E); (0x69, 0x6E); (0x64, 0x65) ].

Fixpoint firstLocation (patterns : list (Z * Z)) (userMessage : string)
  : option string :=
  match patterns with
  | [] => None
  | (k1, k2) :: rest =>
      match regexp.FindLocationGroup k1 k2 userMessage with
      | Some g => Some (strings.TrimSpace g)
      | None => firstLocation rest userMessage
      end
  end.

Definition extractSearchQuery (userMessage claudeResponse : string) : string :=
  let userLower := strings.ToLower userMessage in
  if containsAny userLower ["tiempo"; "weather"; "clima"] then
    match firstLocation locationPatterns userMessage with
    | Some location => "weather today " ++ location
    | None => "weather today"
    end
  else if containsAny userLower
            ["real madrid"; "madrid"; "partido"; "match"; "resultado";
             "fútbol"; "futbol"; "football"] then
    if strings.Contains userLower "real madrid" then
      if containsAny userLower ["último"; "last"; "recent"; "ayer"; "yesterday"]
      then "Real Madrid latest match result today"
      else "Real Madrid news today"
    else "football results today Spain"
  else if containsAny userLower ["noticias"; "news"; "novedades"] then
    "latest news today"
  else if containsAny userLower ["precio"; "price"; "bitcoin"; "crypto"; "bolsa"] then
    if strings.Contains userLower "bitcoin" then "Bitcoin price today"
    else "financial markets today"
  else "current information " ++ userMessage.

(** ** The simulated lookup *)

Definition oneResult (t sn so : string) : SearchResult :=
  {| Title := t; Snippet := sn; Source := so |}.

Definition generateWeatherResults (location date : string) : SearchResults :=
  if String.eqb (strings.ToLower location) "madrid" then
    {| Results :=
         [ oneResult "Madrid Weather Now"
             "Partly cloudy, 8°C (46°F). High: 12°C, Low: 4°C. Light wind from the northwest at 10 km/h. No precipitation expected."
             "AEMET - Agencia Estatal de Meteorología";
           oneResult "Current Weather Conditions Madrid"
             "Real-time weather: 8°C, feels like 6°C. Humidity 65%, visibility 10km. Air quality: Good."
             "Weather.com" ];
       Error := "" |}
  else
    {| Results :=
         [ oneResult "Weather Today"
             "Current weather conditions and forecast. Check local weather services for specific location data."
             "Weather Service" ];
       Error := "" |}.

Definition generateFootballResults (team date : string) : SearchResults :=
  {| Results :=
       [ oneResult "Real Madrid 3-1 Athletic Bilbao - Yesterday"
           "Real Madrid ganó 3-1 contra Athletic Bilbao ayer en el Santiago Bernabéu. Goles de Vinícius Jr. (2) y Bellingham. Los Blancos siguen líderes en La Liga con 2 puntos de ventaja sobre el Barcelona."
           "Marca.com";
         oneResult "La Liga Standings - Current"
           "1. Real Madrid - 58 pts, 2. FC Barcelona - 56 pts, 3. Atlético Madrid - 51 pts. El Real Madrid ha ganado 4 de sus últimos 5 partidos en Liga."
           "ESPN Deportes" ];
     Error := "" |}.

Definition generateFinancialResults (asset date : string) : SearchResults :=
  {| Results :=
       [ oneResult "Bitcoin Price Now"
           "Bitcoin: $52,430 USD (+2.3% today). Market cap: $1.03T. 24h trading volume: $28.5B."
           "CoinMarketCap" ];
     Error := "" |}.

Definition generateNewsResults (date : string) : SearchResults :=
  {| Results :=
       [ oneResult "Latest News Today"
           "Top headlines: Technology markets show growth, renewable energy initiatives expanded, international cooperation agreements signed."
           "News Agency" ];
     Error := "" |}.

Definition generateSportsResults (date : string) : SearchResults :=
  {| Results :=
       [ oneResult "Football Results Today"
           "La Liga: Real Madrid lidera. Premier League: Manchester City 2-0 Arsenal. Champions League: Octavos de final próxima semana."
           "Mundo Deportivo" ];
     Error := "" |}.

Definition generateMarketResults (date : string) : SearchResults :=
  {| Results :=
       [ oneResult "Financial Markets Today"
           "Global markets mixed. S&P 500 +0.8%, NASDAQ +1.2%, EUR/USD 1.0856. Tech stocks leading gains."
           "Financial Times" ];
     Error := "" |}.

Definition generateCurrentInfoResults (query date : string) : SearchResults :=
  {| Results :=
       [ oneResult "Current Information Search"
           ("Current search for: '" ++ query ++
            "'. For more specific information, try rephrasing your question.")
           "Search Engine" ];
     Error := "" |}.

Definition simulateRealisticSearch (query : string) : SearchResults :=
  let queryLower := strings.ToLower query in
  let currentDate := "Today" in
  if strings.Contains queryLower "weather today" then
    if strings.Contains queryLower "madrid"
    then generateWeatherResults "Madrid" currentDate
    else generateWeatherResults "location" currentDate
  else if strings.Contains queryLower "real madrid latest match" then
    generateFootballResults "Real Madrid" currentDate
  else if strings.Contains queryLower "bitcoin price" then
    generateFinancialResults "Bitcoin" currentDate
  else if strings.Contains queryLower "latest news" then
    generateNewsResults currentDate
  else if strings.Contains queryLower "football results" then
    generateSportsResults currentDate
  else if strings.Contains queryLower "financial markets" then
    generateMarketResults currentDate
  else generateCurrentInfoResults query currentDate.

(** The lookup returns a pointer, never nil here: [Some]. *)
Definition performSmartSearch (query : string) : M St (option SearchResults) :=
  log LevelInfo "🔍 Performing smart search" ;;
  let results := simulateRealisticSearch query in
  log LevelInfo "📊 Search results" ;;
  ret (Some results).

(** ** The second request *)

Definition orDefault (s dflt : string) : string :=
  if isEmpty s then dflt else s.

Definition formatResult (i : Z) (result : SearchResult) : string :=
  let title := orDefault (Title result) "No title" in
  let snippet := orDefault (Snippet result) "No description" in
  let source := orDefault (Source result) "Unknown source" in
  strconv.Itoa (i + 1) ++ ". " ++ title ++ " (" ++ source ++ ")" ++ nl
    ++ "   " ++ snippet.

(** The loop of [formatSearchResults], from index [i]. *)
Fixpoint formatFrom (i : Z) (results : list SearchResult) : list string :=
  match results with
  | [] => []
  | result :: rest =>
      if 3 <=? i then []
      else formatResult i result :: formatFrom (i + 1) rest
  end.

Definition formatSearchResults (searchResults : SearchResults) : string :=
  match Results searchResults with
  | [] => "No current information found."
  | _ => strings.Join (formatFrom 0 (Results searchResults)) (nl ++ nl)
  end.

Definition enhancedMessages (messages : list Message)
    (initialResponse searchQuery : string) (searchResults : SearchResults)
  : list Message :=
  (messages
     ++ [ {| Role := "assistant"; Content := initialResponse |} ]
     ++ [ {| Role := "user";
             Content :=
               "I searched for current information about '" ++ searchQuery
               ++ "' and found this:" ++ nl ++ nl
               ++ formatSearchResults searchResults ++ nl ++ nl
               ++ "With this info, respond to my original question briefly and informally (maximum 2-3 sentences)." |} ])%list.

Definition createEnhancedResponse (messages : list Message)
    (initialResponse searchQuery : string) (searchResults : SearchResults)
  : M St (string * option error) :=
  '(enhancedResponse, err) <-
     vertexSendMessage
       (enhancedMessages messages initialResponse searchQuery searchResults) ;;
  match err with
  | Some e => ret ("", Some ("failed to get enhanced response: " ++ e))
  | None =>
      if negb (isEmpty enhancedResponse) then
        log LevelInfo "Successfully created enhanced response with current information" ;;
        ret (enhancedResponse, None)
      else ret ("", Some "empty enhanced response")
  end.

(** ** [SmartClient.SendMessage]

    [search] is the lookup; the method of the source is the instance at
    [performSmartSearch].  What the lookup returned is entered in the
    history as a [Lookup] event.  The debug line takes
    [initialResponse[:100]], whatever the level of the logger. *)
Definition sendMessageVia (search : string -> M St (option SearchResults))
    (s : SmartClient) (messages : list Message)
  : M St (string * option error) :=
  '(initialResponse, err) <- vertexSendMessage messages ;;
  match err with
  | Some e => ret ("", Some ("failed to get initial response: " ++ e))
  | None =>
      if isEmpty initialResponse
      then ret ("", Some "empty response from Claude")
      else if autoSearchEnabled s && needsWebSearch s initialResponse messages
      then
        log LevelInfo "🔍 Claude indicated need for current information, enhancing with web search..." ;;
        _ <- sliceTo initialResponse 100 ;;
        log LevelDebug "📝 Claude's initial response" ;;
        let userMessage :=
          match lastContent messages with
          | Some c => c
          | None => ""
          end in
        let searchQuery := extractSearchQuery userMessage initialResponse in
        log LevelInfo "🎯 Extracted search query" ;;
        if negb (isEmpty searchQuery) then
          searchResults <- search searchQuery ;;
          emit (Lookup searchQuery searchResults) ;;
          match searchResults with
          | Some found =>
              if isEmpty (Error found) && (0 <? Z.of_nat (List.length (Results found)))
              then
                '(enhancedResponse, err') <-
                   createEnhancedResponse messages initialResponse searchQuery found ;;
                if (match err' with None => true | Some _ => false end)
                   && negb (isEmpty enhancedResponse)
                then ret (enhancedResponse, None)
                else
                  log LevelWarn "Failed to create enhanced response, falling back to original" ;;
                  ret (initialResponse, None)
              else ret (initialResponse, None)
          | None => ret (initialResponse, None)
          end
        else ret (initialResponse, None)
      else ret (initialResponse, None)
  end.

Definition SendMessage (s : SmartClient) (messages : list Message)
  : M St (string * option error) :=
  sendMessageVia performSmartSearch s messages.

End Engine.

End claude.

(* ================================================================== *)
(** * package voice *)

Module voice.

(** The adapters hold a pointer to the configuration of the session, not
    a copy: what they read of it is passed in from the session's
    [Config] at the call. *)
Record AudioRecorder : Type := {
  AudioFilePath : string
}.

Record WhisperCppTranscriber : Type := {
  whisperCppPath : string;
  modelPath : string
}.

Record SystemTTS : Type := {
  command : string;
  args : list string
}.

(** The session once [Initialize] has returned nil: every adapter is
    set, except the synthesis one, which stays nil when no backend was
    found or speech is disabled. *)
Record Interface : Type := {
  config : Config;
  claudeClient : claude.SmartClient;
  recorder : AudioRecorder;
  transcriber : WhisperCppTranscriber;
  tts : option SystemTTS
}.

Definition setEnabled (b : bool) (c : Config) : Config :=
  {| VertexAI := VertexAI c;
     Voice := Voice c;
     TTS := {| Enabled := b; Rate := Rate (TTS c);
               Volume := Volume (TTS c); VoiceID := VoiceID (TTS c) |} |}.

Definition withConfig (c : Config) (v : Interface) : Interface :=
  {| config := c; claudeClient := claudeClient v; recorder := recorder v;
     transcriber := transcriber v; tts := tts v |}.

Definition withRecorder (a : AudioRecorder) (v : Interface) : Interface :=
  {| config := config v; claudeClient := claudeClient v; recorder := a;
     transcriber := transcriber v; tts := tts v |}.

Section Adapters.
Context {tables : CaseTables} {world : World}.

Definition exec {St} (name : string) (arguments : list string) (dir : option string)
  : M St (string * option error) :=
  h <- history ;;
  let r := execRun h name arguments dir in
  emit (Exec name arguments dir (fst r) (snd r)) ;;
  ret r.

Definition stat {St} (path : string) : M St StatResult :=
  h <- history ;;
  let r := osStat h path in
  emit (Stat path r) ;;
  ret r.

(** ** audio.go *)

Definition recordWithFFmpeg (cfg : VoiceConfig) (durationSeconds : Z)
  : M AudioRecorder (option error) :=
  a <- get ;;
  let arguments :=
    [ "-f"; "avfoundation";
      "-i"; ":0";
      "-t"; strconv.Itoa durationSeconds;
      "-ar"; strconv.Itoa (SampleRate cfg);
      "-ac"; strconv.Itoa (Channels cfg);
      "-y";
      AudioFilePath a ] in
  log LevelInfo "🎙️ Starting ffmpeg recording" ;;
  '(stderrOutput, err) <- exec "ffmpeg" arguments None ;;
  match err with
  | Some e =>
      (if negb (isEmpty stderrOutput)
       then log LevelWarn "ffmpeg stderr output" else ret tt) ;;
      ret (Some ("ffmpeg recording failed: " ++ e))
  | None =>
      st <- stat (AudioFilePath a) ;;
      match st with
      | StatNotExist =>
          ret (Some ("audio file was not created: " ++ AudioFilePath a))
      | _ => ret None
      end
  end.

Fixpoint progressTicks {St} (ticks : list bool) : M St unit :=
  match ticks with
  | [] => ret tt
  | shown :: rest =>
      (if shown then log LevelInfo "🔴 Recording progress" else ret tt) ;;
      progressTicks rest
  end.

(** [RecordAudio].  The recording runs in a goroutine while the loop
    waits on it, on the ticker and on the context; the events of the
    goroutine are entered in the history before those of the loop, and
    [recordSelect] tells how the loop went. *)
Definition RecordAudio (cfg : VoiceConfig) (durationSeconds : Z)
  : M AudioRecorder (bool * option error) :=
  log LevelInfo "🎤 Recording audio with ffmpeg" ;;
  h <- history ;;
  let mk := osMkdirAll h "work/temp" in
  emit (MkdirAll "work/temp" mk) ;;
  let workTempDir :=
    match mk with Some _ => osTempDir | None => "work/temp" end in
  absWorkDir <-
    (match filepathAbs workTempDir with
     | (_, Some _) =>
         log LevelWarn "Failed to get absolute path, using relative" ;;
         ret workTempDir
     | (p, None) => ret p
     end) ;;
  h' <- history ;;
  let timestamp := timeNowFormat h' in
  put {| AudioFilePath :=
           filepathJoin absWorkDir
             ("desk_pet_recording_" ++ timestamp ++ ".wav") |} ;;
  done <- recordWithFFmpeg cfg durationSeconds ;;
  h'' <- history ;;
  let '(ticks, ending) := recordSelect h'' in
  progressTicks ticks ;;
  match ending with
  | RecordingDone =>
      log LevelInfo "⏹️ Recording complete" ;;
      match done with
      | Some e => ret (false, Some ("recording failed: " ++ e))
      | None =>
          log LevelInfo "✅ Audio recording successful (real audio)" ;;
          ret (true, None)
      end
  | CtxDone e => ret (false, Some e)
  end.

(** ** The transcriber *)

Definition isTimestampLine (line : string) : bool :=
  regexp.MatchString regexp.timestampPattern line.

Definition debugPatterns : list string :=
  [ "output_txt: saving output to";
    "output_vtt: saving output to";
    "output_srt: saving output to";
    "whisper_print_timings:";
    "load time =";
    "fallbacks =";
    "main:" ].

Definition isDebugLine (line : string) : bool :=
  let lineLower := strings.ToLower line in
  existsb (fun pattern => strings.Contains lineLower pattern) debugPatterns.

(** The lines that the loop of [parseWhisperOutput] keeps. *)
Fixpoint textLinesOf (lines : list string) : list string :=
  match lines with
  | [] => []
  | line :: rest =>
      let line := strings.TrimSpace line in
      if negb (isEmpty line) && negb (isTimestampLine line) && negb (isDebugLine line)
      then line :: textLinesOf rest
      else textLinesOf rest
  end.

Definition parseWhisperOutput (output : string) : string :=
  let lines := strings.Split_nl (strings.TrimSpace output) in
  strings.Join (textLinesOf lines) " ".

Definition cleanTranscription (text : string) : string :=
  let text := strings.ReplaceAll text "[BLANK_AUDIO]" "" in
  let text := strings.ReplaceAll text "(silence)" "" in
  let text := strings.ReplaceAll text "(music)" "" in
  let text := strings.ReplaceAll text "[música]" "" in
  let text := strings.ReplaceAll text "[MÚSICA]" "" in
  let text := regexp.replaceRuns regexp.bytePerlSpace 1 " " text in
  strings.TrimSpace text.

Definition Transcribe {St} (w : WhisperCppTranscriber)
    (audioFilePath language : string) : M St (string * option error) :=
  if isEmpty (whisperCppPath w)
  then ret ("", Some "whisper.cpp not initialized")
  else
    match filepathAbs audioFilePath with
    | (_, Some e) =>
        ret ("", Some ("failed to get absolute path for audio file: " ++ e))
    | (absAudioPath, None) =>
        st <- stat absAudioPath ;;
        match st with
        | StatNotExist =>
            ret ("", Some ("audio file does not exist: " ++ absAudioPath))
        | _ =>
            let arguments :=
              [ "--language"; language;
                "--threads"; "4";
                "--file"; absAudioPath;
                "--output-txt";
                "--no-timestamps";
                "--no-prints";
                "-m"; modelPath w ] in
            let dir :=
              if strings.Contains (whisperCppPath w) "/"
              then Some (filepathDir (whisperCppPath w)) else None in
            '(output, err) <- exec (whisperCppPath w) arguments dir ;;
            match err with
            | Some e =>
                ret ("", Some ("whisper.cpp failed: " ++ e ++ ", output: " ++ output))
            | None =>
                let transcription :=
                  if isEmpty output then "" else parseWhisperOutput output in
                transcription' <-
                  (if isEmpty transcription then
                     let txtFile := absAudioPath ++ ".txt" in
                     h <- history ;;
                     let '(data, rerr) := osReadFile h txtFile in
                     emit (ReadFile txtFile data rerr) ;;
                     match rerr with
                     | None => emit (Remove txtFile) ;; ret data
                     | Some _ => ret transcription
                     end
                   else ret transcription) ;;
                ret (cleanTranscription transcription', None)
            end
        end
    end.

(** ** Speech synthesis *)

(** The class of the first pattern of [cleanTextForSpeech], before its
    negation: [\w], [\s], the listed punctuation and the listed
    accented letters. *)
Definition speakable (r : Z) : bool :=
  regexp.perlWord r || regexp.perlSpace r
  || existsb (Z.eqb r)
       [ 0x2E; 0x2C; 0x21; 0x3F; 0x3A; 0x3B; 0x2D; 0x28; 0x29; 0x27; 0x22 ]
  || existsb (Z.eqb r)
       [ 0xE1; 0xE9; 0xED; 0xF3; 0xFA; 0xF1;
         0xC1; 0xC9; 0xCD; 0xD3; 0xDA; 0xD1; 0xFC; 0xDC ].

Definition cleanTextForSpeech (text : string) : string :=
  let cleanText := regexp.replaceRunes (fun r => negb (speakable r)) " " text in
  let cleanText := regexp.replaceRuns (regexp.byteIs 0x2A) 1 "" cleanText in
  let cleanText := regexp.replaceRuns (regexp.byteIs 0x23) 1 "" cleanText in
  let cleanText := regexp.replaceRuns (regexp.byteIs 0x60) 1 "" cleanText in
  let cleanText := regexp.replaceRuns (regexp.byteIs 0x5F) 1 "" cleanText in
  let cleanText := regexp.replaceRuns (regexp.byteIs 0x0A) 1 ". " cleanText in
  let cleanText := regexp.replaceRuns regexp.bytePerlSpace 1 " " cleanText in
  let cleanText := regexp.replaceRuns (regexp.byteIs 0x2E) 2 "." cleanText in
  strings.TrimSpace cleanText.

Definition Speak {St} (s : SystemTTS) (text : string) : M St (option error) :=
  if isEmpty text then ret None
  else
    log LevelInfo "🔊 Speaking response..." ;;
    let cleanText := cleanTextForSpeech text in
    if isEmpty cleanText then
      log LevelWarn "⚠️ No speakable text after cleaning" ;;
      ret None
    else
      '(_, err) <- exec (command s) (args s ++ [cleanText])%list None ;;
      match err with
      | Some e => ret (Some ("TTS command failed: " ++ e))
      | None => log LevelInfo "✅ TTS completed" ;; ret None
      end.

End Adapters.

(** ** interface.go: the session controller

    The handlers reach the adapters through their methods only; the
    controller is written over these four capabilities, and
    [sessionAdapters] are the ones the program links. *)
Record Capabilities : Type := {
  recordAudio : Z -> M Interface (bool * option error);
  transcribe : string -> string -> M Interface (string * option error);
  sendMessage : list Message -> M Interface (string * option error);
  speak : string -> M Interface (option error)
}.

Inductive LoopControl : Type :=
| Continue
| Return (err : option error).

Inductive LoopInput : Type :=
| CtxCancelled (e : error)
| Read (r : ReadResult).

Inductive LoopResult : Type :=
| Exited (err : option error)
| AwaitingInput.

Section Controller.
Context {tables : CaseTables} {world : World}.

(** A method of the recorder, run on the recorder of the session. *)
Definition onRecorder {A} (m : VoiceConfig -> M AudioRecorder A) : M Interface A :=
  fun v h =>
    let '(o, a', h') := m (Voice (config v)) (recorder v) h in
    (o, withRecorder a' v, h').

Definition sessionAdapters : Capabilities :=
  {| recordAudio := fun d => onRecorder (fun cfg => RecordAudio cfg d);
     transcribe := fun path language =>
       v <- get ;; Transcribe (transcriber v) path language;
     sendMessage := fun messages =>
       v <- get ;; claude.SendMessage (claudeClient v) messages;
     speak := fun text =>
       v <- get ;;
       match tts v with
       | Some s => Speak s text
       | None => panic "runtime error: invalid memory address or nil pointer dereference"
       end |}.

Variable caps : Capabilities.

Definition ttsUsable (v : Interface) : bool :=
  Enabled (TTS (config v)) && (match tts v with Some _ => true | None => false end).

Definition processAudio : M Interface (option error) :=
  v <- get ;;
  if isEmpty (AudioFilePath (recorder v))
  then ret (Some "no audio file to process")
  else
    log LevelInfo "🔄 Processing audio..." ;;
    log LevelInfo "🔄 Transcribing..." ;;
    '(transcription, err) <- transcribe caps (AudioFilePath (recorder v)) "es" ;;
    match err with
    | Some e => ret (Some ("transcription failed: " ++ e))
    | None =>
        let transcription := strings.TrimSpace transcription in
        if isEmpty transcription then
          log LevelWarn "❌ No speech detected" ;;
          ret None
        else
          log LevelInfo "👤 You said" ;;
          log LevelInfo "🤖 Claude is thinking..." ;;
          '(response, err') <-
             sendMessage caps [ {| Role := "user"; Content := transcription |} ] ;;
          match err' with
          | Some e => ret (Some ("Claude request failed: " ++ e))
          | None =>
              if isEmpty response then
                log LevelWarn "❌ Claude didn't respond" ;;
                ret None
              else
                log LevelInfo "🎯 Claude" ;;
                v' <- get ;;
                (if ttsUsable v' then
                   serr <- speak caps response ;;
                   match serr with
                   | Some _ => log LevelWarn "TTS failed"
                   | None => ret tt
                   end
                 else ret tt) ;;
                ret None
          end
    end.

Definition processVoiceCommand (durationSeconds : Z) : M Interface (option error) :=
  '(success, err) <- recordAudio caps durationSeconds ;;
  match err with
  | Some e => ret (Some ("recording failed: " ++ e))
  | None =>
      if negb success then
        log LevelWarn "Recording was not successful" ;;
        ret None
      else processAudio
  end.

Definition testMicrophone (durationSeconds : Z) : M Interface (option error) :=
  '(_, err) <- recordAudio caps durationSeconds ;;
  match err with
  | Some e => ret (Some e)
  | None =>
      log LevelInfo "✅ Microphone test complete!" ;;
      ret None
  end.

Definition testTTS : M Interface (option error) :=
  v <- get ;;
  if negb (ttsUsable v) then
    log LevelInfo "⚠️ TTS is disabled or not available" ;;
    ret None
  else
    serr <- speak caps "Hello, this is a voice test. Everything is working correctly." ;;
    match serr with
    | Some e => ret (Some ("TTS test failed: " ++ e))
    | None =>
        log LevelInfo "✅ TTS test complete!" ;;
        ret None
    end.

(** A handler whose error the loop logs and drops. *)
Definition logged (failure : string) (m : M Interface (option error))
  : M Interface unit :=
  err <- m ;;
  match err with
  | Some _ => log LevelError failure
  | None => ret tt
  end.

(** The [switch] on the command of [Run]. *)
Definition runCommand (command : string) : M Interface LoopControl :=
  if String.eqb command "r" then
    logged "Voice command failed" (processVoiceCommand 7) ;;
    ret Continue
  else if String.eqb command "l" then
    log LevelInfo "🎤 Long recording mode..." ;;
    logged "Long voice command failed" (processVoiceCommand 12) ;;
    ret Continue
  else if String.eqb command "t" then
    log LevelInfo "🎤 Testing microphone..." ;;
    logged "Microphone test failed" (testMicrophone 3) ;;
    ret Continue
  else if String.eqb command "x" then
    log LevelInfo "🔊 Testing TTS..." ;;
    logged "TTS test failed" testTTS ;;
    ret Continue
  else if String.eqb command "s" then
    v <- get ;;
    put (withConfig (setEnabled (negb (Enabled (TTS (config v)))) (config v)) v) ;;
    log LevelInfo "🔊 TTS toggled" ;;
    ret Continue
  else if String.eqb command "q" then
    log LevelInfo "👋 Goodbye!" ;;
    ret (Return None)
  else if String.eqb command "" then
    ret Continue
  else
    log LevelWarn "❓ Unknown command" ;;
    ret Continue.

(** The [for] of [Run], on what each turn of the loop finds: the context
    already done, or the outcome of reading a line. *)
Fixpoint runLoop (inputs : list LoopInput) : M Interface LoopResult :=
  match inputs with
  | [] => ret AwaitingInput
  | CtxCancelled e :: _ => ret (Exited (Some e))
  | Read r :: rest =>
      emit (Readline r) ;;
      match r with
      | ErrInterrupt =>
          log LevelInfo "👋 Interrupt received" ;;
          ret (Exited None)
      | EOF =>
          log LevelInfo "👋 EOF received" ;;
          ret (Exited None)
      | ReadFailed e => ret (Exited (Some ("error reading input: " ++ e)))
      | Line line =>
          let command := strings.TrimSpace (strings.ToLower line) in
          ctl <- runCommand command ;;
          match ctl with
          | Return err => ret (Exited err)
          | Continue => runLoop rest
          end
      end
  end.

Definition Run (inputs : list LoopInput) : M Interface LoopResult :=
  log LevelInfo "🎯 Commands:" ;;
  log LevelInfo "  • 'r' + ENTER: Record and process voice (7 seconds)" ;;
  log LevelInfo "  • 'l' + ENTER: Long recording (12 seconds)" ;;
  log LevelInfo "  • 't' + ENTER: Test microphone levels" ;;
  log LevelInfo "  • 'x' + ENTER: Test TTS voice" ;;
  log LevelInfo "  • 's' + ENTER: Toggle speech" ;;
  log LevelInfo "  • 'q' + ENTER: Quit" ;;
  log LevelInfo "🔊 TTS" ;;
  log LevelInfo "🎤 Speech Recognition" ;;
  runLoop inputs.

End Controller.

End voice.

(* ================================================================== *)
(** * Vocabulary of the statements *)

(** The language of a pattern, as a relation. *)
Inductive lang : regexp.re -> list Z -> Prop :=
| lang_eps : lang regexp.Eps []
| lang_sym p c : p c = true -> lang (regexp.Sym p) [c]
| lang_cat a b u w : lang a u -> lang b w -> lang (regexp.Cat a b) (u ++ w)%list
| lang_alt_l a b w : lang a w -> lang (regexp.Alt a b) w
| lang_alt_r a b w : lang b w -> lang (regexp.Alt a b) w
| lang_star_nil a : lang (regexp.Star a) []
| lang_star_cons a u w :
    lang a u -> lang (regexp.Star a) w -> lang (regexp.Star a) (u ++ w)%list.


(** The runes of an ASCII string, byte by byte. *)
Fixpoint asciiRunes (s : string) : list (Z * string) :=
  match s with
  | EmptyString => []
  | String c t => (byteZ c, String c EmptyString) :: asciiRunes t
  end.

(** A list with the indices that [%d] prints, counted from [i]. *)
Fixpoint numbered {A : Type} (i : Z) (l : list A) : list (Z * A) :=
  match l with
  | [] => []
  | x :: t => (i, x) :: numbered (i + 1) t
  end.

(** The layout of one snippet in the words of the specification:
    ["<index>. <title> (<source>)\n   <body>"]. *)
Definition snippetLayout (index : Z) (title source body : string) : string :=
  strconv.Itoa index ++ ". " ++ title ++ " (" ++ source ++ ")" ++ nl
    ++ "   " ++ body.

(** A snippet laid out with its own fields. *)
Definition snippetAsIs (ir : Z * SearchResult) : string :=
  snippetLayout (fst ir) (Title (snd ir)) (Source (snd ir)) (Snippet (snd ir)).

(** A snippet laid out with the placeholders of the code for the
    fields that are empty. *)
Definition snippetShown (ir : Z * SearchResult) : string :=
  snippetLayout (fst ir)
    (claude.orDefault (Title (snd ir)) "No title")
    (claude.orDefault (Source (snd ir)) "Unknown source")
    (claude.orDefault (Snippet (snd ir)) "No description").

(** ** Case tables and worlds to run the program in *)

(** Lower case for Latin-1: the letters U+00C0 to U+00DE, the
    multiplication sign apart. *)
Definition latin1Tables : CaseTables :=
  {| toLowerCase := fun r =>
       if (0xC0 <=? r) && (r <=? 0xDE) && negb (r =? 0xD7) then r + 0x20 else r |}.

Definition countVertexCalls (h : list Event) : nat :=
  List.length (filter isVertexCall h).

(** A world that answers the requests to the endpoint from a script,
    runs every command with the same result, and sees the same thing at
    every path. *)
Definition scriptedWorld (replies : list (string * option error))
    (run : string * option error) (seen : StatResult)
    (waited : list bool * SelectEnd) : World :=
  {| vertexSend := fun h _ =>
       nth (countVertexCalls h) replies ("", Some "connection refused");
     execRun := fun _ _ _ _ => run;
     osMkdirAll := fun _ _ => None;
     osTempDir := "/tmp";
     osStat := fun _ _ => seen;
     osReadFile := fun _ _ => ("", Some "no such file");
     filepathAbs := fun p => ("/home/bobo/" ++ p, None);
     filepathJoin := fun d f => d ++ "/" ++ f;
     filepathDir := fun p => p;
     timeNowFormat := fun _ => "20250101_120000";
     recordSelect := fun _ => waited |}.

Definition sampleVoiceConfig : VoiceConfig :=
  {| UseWhisperCpp := true;
     WhisperCppPath := "./work/repos/whisper.cpp/build/bin/whisper-cli";
     WhisperModelPath := "./work/repos/whisper.cpp/models/ggml-small.bin";
     SampleRate := 22050; Channels := 1; ChunkSize := 2048 |}.

Definition sampleVertexConfig (autoSearch : bool) : VertexAIConfig :=
  {| ProjectID := "your-gcp-project-id"; Location := "us-east5";
     Model := "claude-sonnet-4@20250514"; MaxTokens := 1000;
     Temperature := PrimFloat.one; SystemPrompt := "";
     EnableAutoSearch := autoSearch |}.

Definition sampleSession : voice.Interface :=
  {| voice.config :=
       {| VertexAI := sampleVertexConfig true;
          Voice := sampleVoiceConfig;
          TTS := {| Enabled := true; Rate := 160; Volume := PrimFloat.one;
                    VoiceID := "" |} |};
     voice.claudeClient := claude.NewSmartClient (sampleVertexConfig true);
     voice.recorder := {| voice.AudioFilePath := "" |};
     voice.transcriber :=
       {| voice.whisperCppPath := "./work/repos/whisper.cpp/build/bin/whisper-cli";
          voice.modelPath := "./work/repos/whisper.cpp/models/ggml-small.bin" |};
     voice.tts := Some {| voice.command := "espeak-ng";
                          voice.args := ["-v"; "es"; "-s"; "160"] |} |}.

(** The state that the command [s] leaves. *)
Definition toggled (v : voice.Interface) : voice.Interface :=
  voice.withConfig
    (voice.setEnabled (negb (Enabled (TTS (voice.config v)))) (voice.config v)) v.



(** A capture that reports ok=false without an error; the other
    capabilities would panic if they were called. *)
Definition silentCapture : voice.Capabilities :=
  {| voice.recordAudio := fun _ => ret (false, None);
     voice.transcribe := fun _ _ => panic "transcribe called";
     voice.sendMessage := fun _ => panic "sendMessage called";
     voice.speak := fun _ => panic "speak called" |}.

(** Every rune of [s] satisfies [p]. *)
Definition onlyRunes (p : Z -> bool) (s : string) : bool :=
  forallb (fun rb : Z * string => p (fst rb)) (utf8.runes s).

Fixpoint spaces (n : nat) : string :=
  match n with
  | O => EmptyString
  | S k => String " " (spaces k)
  end.

Definition nbsp : string :=
  String (ascii_of_nat 194) (String (ascii_of_nat 160) EmptyString).

(** A line of spaces, a tab and a no-break space (U+00A0). *)
Definition blankLine : string :=
  "  " ++ String (ascii_of_nat 9) (nbsp ++ " ").

(** ** Timestamp ranges *)





Definition noNewline (s : string) : bool :=
  allBytes (fun c => negb (byteZ c =? 0x0A)) s.

(** ** The scenario of the weather question *)

Definition disclaimer : string := "I don't have access to current information".
Definition weatherQuestion : string := "what's the weather in Madrid".

(** A reply of 115 bytes that holds the disclaimer. *)
Definition longDisclaimer : string :=
  "I'm sorry, but I don't have access to current information about the weather; please check a local forecast service.".

Definition askWeather : list Message :=
  [ {| Role := "user"; Content := weatherQuestion |} ].

(** The endpoint answers the disclaimer first, then a forecast. *)
Definition weatherWorld : World :=
  scriptedWorld [(longDisclaimer, None); ("Unos 8 grados y algo nublado.", None)]
    ("", None) StatOk ([], RecordingDone).

(** ** Failed augmentation *)

(** A computation that returns, leaves the state alone and does nothing
    but log. *)
Definition quiet {St A : Type} (m : M St A) : Prop :=
  forall (st : St) (h : list Event),
    exists (a : A) (logs : list Event),
      m st h = (Returned a, st, (h ++ logs)%list) /\ forallb isLog logs = true.

(** What a lookup returned is of no use: nil, an error, or no snippet. *)
Definition unusable (found : option SearchResults) : Prop :=
  match found with
  | None => True
  | Some results => Error results <> "" \/ Results results = []
  end.

(** Among the events of a turn, a lookup that came back with nothing of
    use, or a second request to the endpoint that failed or came back
    empty. *)
Definition augmentationFailed (new : list Event) : Prop :=
  (exists query found, In (Lookup query found) new /\ unusable found)
  \/ (exists messages text err,
         nth_error (filter isVertexCall new) 1 = Some (VertexCall messages text err)
         /\ (err <> None \/ text = "")).

(** A lookup that finds nothing. *)
Definition emptyLookup {St : Type} (query : string) : M St (option SearchResults) :=
  ret (Some {| Results := []; Error := "" |}).

(** The weather turn with a lookup that finds nothing. *)
Definition emptyLookupTurn
  : Outcome (string * option error) * unit * list Event :=
  claude.sendMessageVia (tables := latin1Tables) (world := weatherWorld)
    emptyLookup (claude.NewSmartClient (sampleVertexConfig true)) askWeather tt [].

(** ** Proof automation *)

Create HintDb re.
#[local] Hint Constructors lang : re.

(** Boolean comparisons in the hypotheses, as propositions. *)
Ltac natbool :=
  repeat match goal with
  | Hb : (_ <? _)%nat = true |- _ => apply Nat.ltb_lt in Hb
  | Hb : (_ <? _)%nat = false |- _ => apply Nat.ltb_ge in Hb
  | Hb : (_ <=? _)%nat = true |- _ => apply Nat.leb_le in Hb
  | Hb : (_ <=? _)%nat = false |- _ => apply Nat.leb_gt in Hb
  end.

Ltac boolprops :=
  repeat match goal with
  | Hb : _ || _ = true |- _ => apply orb_true_iff in Hb as [Hb | Hb]
  | Hb : _ && _ = true |- _ => apply andb_true_iff in Hb as [? Hb]
  | Hb : (_ =? _) = true |- _ => apply Z.eqb_eq in Hb
  | Hb : (_ <=? _) = true |- _ => apply Z.leb_le in Hb
  | Hb : (_ <? _) = true |- _ => apply Z.ltb_lt in Hb
  | Hb : (_ =? _) = false |- _ => apply Z.eqb_neq in Hb
  | Hb : (_ <=? _) = false |- _ => apply Z.leb_gt in Hb
  | Hb : (_ <? _) = false |- _ => apply Z.ltb_ge in Hb
  end.

(* ================================================================== *)
(** * Further statements about the engine *)

(** [SmartClient.SendMessage] in closed form: the outcome and the
    history of a turn, from what the endpoint answers. *)
Definition turnOf {tables : CaseTables} {world : World} {St : Type}
    (s : claude.SmartClient) (messages : list Message) (st : St) (h : list Event)
  : Outcome (string * option error) * St * list Event :=
  let '(primary, perr) := vertexSend h messages in
  let h1 := (h ++ [VertexCall messages primary perr])%list in
  match perr with
  | Some e => (Returned ("", Some ("failed to get initial response: " ++ e)), st, h1)
  | None =>
      if isEmpty primary
      then (Returned ("", Some "empty response from Claude"), st, h1)
      else if claude.autoSearchEnabled s && claude.needsWebSearch s primary messages
      then
        let h2 :=
          (h1 ++ [Log LevelInfo "🔍 Claude indicated need for current information, enhancing with web search..."])%list in
        if (String.length primary <? 100)%nat
        then (Panicked ("runtime error: slice bounds out of range [:100] with length "
                        ++ strconv.Itoa (Z.of_nat (String.length primary))), st, h2)
        else
          let query :=
            claude.extractSearchQuery
              (match claude.lastContent messages with Some c => c | None => "" end)
              primary in
          let found := claude.simulateRealisticSearch query in
          let h3 :=
            (h2 ++ [ Log LevelDebug "📝 Claude's initial response";
                     Log LevelInfo "🎯 Extracted search query";
                     Log LevelInfo "🔍 Performing smart search";
                     Log LevelInfo "📊 Search results";
                     Lookup query (Some found) ])%list in
          let sent := claude.enhancedMessages messages primary query found in
          let '(text, err) := vertexSend h3 sent in
          let h4 := (h3 ++ [VertexCall sent text err])%list in
          match err with
          | Some _ =>
              (Returned (primary, None), st,
               (h4 ++ [Log LevelWarn "Failed to create enhanced response, falling back to original"])%list)
          | None =>
              if isEmpty text
              then (Returned (primary, None), st,
                    (h4 ++ [Log LevelWarn "Failed to create enhanced response, falling back to original"])%list)
              else (Returned (text, None), st,
                    (h4 ++ [Log LevelInfo "Successfully created enhanced response with current information"])%list)
          end
      else (Returned (primary, None), st, h1)
  end.

(** A snippet with a title, a body and a source. *)
Definition complete (r : SearchResult) : Prop :=
  Title r <> "" /\ Snippet r <> "" /\ Source r <> "".

(** [m] is [pattern] up to the case of its ASCII letters. *)
Fixpoint sameFold (pattern m : string) : bool :=
  match pattern, m with
  | EmptyString, EmptyString => true
  | String p pattern', String c m' =>
      regexp.foldEq (byteZ p) (byteZ c) && sameFold pattern' m'
  | _, _ => false
  end.

(** The capabilities with the synthesis one taken away: a call to it
    would panic. *)
Definition mute (caps : voice.Capabilities) : voice.Capabilities :=
  {| voice.recordAudio := voice.recordAudio caps;
     voice.transcribe := voice.transcribe caps;
     voice.sendMessage := voice.sendMessage caps;
     voice.speak := fun _ => panic "speak called" |}.

(** A computation that leaves the session as it found it. *)
Definition keepsSession {A : Type} (m : M voice.Interface A) : Prop :=
  forall (v : voice.Interface) (h : list Event), snd (fst (m v h)) = v.

(** Capabilities that answer from a fixed transcript and reply. *)
Definition cannedAnswers (transcript reply : string) : voice.Capabilities :=
  {| voice.recordAudio := fun _ => ret (true, None);
     voice.transcribe := fun _ _ => ret (transcript, None);
     voice.sendMessage := fun _ => ret (reply, None);
     voice.speak := fun _ => ret (Some "exit status 1") |}.

Definition recordedSession (enabled : bool) : voice.Interface :=
  voice.withRecorder {| voice.AudioFilePath := "/tmp/desk_pet_recording_1.wav" |}
    (voice.withConfig (voice.setEnabled enabled (voice.config sampleSession))
       sampleSession).

(** ** Bytes of a cleaned text *)

Definition highByte (c : ascii) : bool := 0x80 <=? byteZ c.

(** The bytes that the text handed to the synthesizer is made of: those
    of the runes outside ASCII, the ASCII letters and digits, the space
    and the punctuation marks [. , ! ? : ; - ( )] and the two quotes. *)
Definition spokenByte (c : ascii) : bool :=
  let b := byteZ c in
  highByte c
  || ((0x30 <=? b) && (b <=? 0x39))
  || ((0x41 <=? b) && (b <=? 0x5A))
  || ((0x61 <=? b) && (b <=? 0x7A))
  || existsb (Z.eqb b)
       [ 0x20; 0x2E; 0x2C; 0x21; 0x3F; 0x3A; 0x3B; 0x2D; 0x28; 0x29; 0x27; 0x22 ].

(** Every byte of the class [\s] is a space, and no two of them are
    next to each other. *)
Fixpoint singleSpaced (s : string) : bool :=
  match s with
  | EmptyString => true
  | String c t =>
      (if regexp.bytePerlSpace c
       then (byteZ c =? 0x20)
            && match t with
               | String d _ => negb (regexp.bytePerlSpace d)
               | EmptyString => true
               end
       else true)
      && singleSpaced t
  end.

Definition firstByte (s : string) : option ascii :=
  match s with
  | EmptyString => None
  | String c _ => Some c
  end.

Definition lastByte (s : string) : option ascii := firstByte (revString "" s).

(** Neither end of [s] is a byte of the [asciiSpace] table. *)
Definition trimmed (s : string) : bool :=
  match firstByte s, lastByte s with
  | Some a, Some b => negb (strings.asciiSpace a) && negb (strings.asciiSpace b)
  | _, _ => true
  end.

(* ================================================================== *)
(** * The life cycle of the session

    What [New] returns has its adapters nil; [Initialize] sets them one
    by one, and [Shutdown] releases those that are set.  The file system
    and the terminal library answer through a [Host]. *)

Inductive RemoveResult : Type :=
| RemoveOk
| RemoveNotExist
| RemoveFailed (e : error).

Class Host : Type := {
  osRemove : list Event -> string -> RemoveResult;
  readlineNew : list Event -> option error;
  readlineClose : list Event -> option error
}.

Module lifecycle.

Section Lifecycle.
Context {tables : CaseTables} {world : World} {host : Host}.

(** A method run on a receiver of its own: the result and the receiver
    it leaves. *)
Definition onLocal {St L A : Type} (receiver : L) (m : M L A) : M St (A * L) :=
  fun st h =>
    match m receiver h with
    | (Returned a, l, h') => (Returned (a, l), st, h')
    | (Panicked msg, _, h') => (Panicked msg, st, h')
    end.

(** ** The transcriber *)

(** [testWhisperCpp].  [CombinedOutput] returns a nil error only for a
    process that exited with status 0, so [cmd.ProcessState.Success()]
    is true where it is read. *)
Definition testWhisperCpp {St : Type} (path : string) : M St (option error) :=
  '(output, err) <- voice.exec path ["--help"] None ;;
  match err with
  | Some e => ret (Some e)
  | None =>
      if strings.Contains output "language LANG" || true
      then ret None
      else ret (Some "whisper.cpp test failed")
  end.

Definition searchPaths : list string :=
  [ "./work/repos/whisper.cpp/build/bin/whisper-cli";
    "./work/repos/whisper.cpp/build/bin/main";
    "./whisper.cpp/build/bin/whisper-cli";
    "./whisper.cpp/build/bin/main";
    "/usr/local/bin/whisper-cli";
    "/usr/local/bin/whisper";
    "whisper-cli";
    "whisper" ].

Definition setPath (path : string) : M voice.WhisperCppTranscriber unit :=
  w <- get ;;
  put {| voice.whisperCppPath := path; voice.modelPath := voice.modelPath w |}.

(** The loop of [findWhisperCpp] over the common locations. *)
Fixpoint searchFrom (paths : list string)
  : M voice.WhisperCppTranscriber (option error) :=
  match paths with
  | [] =>
      ret (Some "whisper.cpp binary not found. Run: bash scripts/setup_whisper_cpp.sh")
  | path :: rest =>
      terr <- testWhisperCpp path ;;
      match terr with
      | None => setPath path ;; ret None
      | Some _ => searchFrom rest
      end
  end.

(** [findWhisperCpp]; the line it prints on standard output when it
    has found the binary is not recorded. *)
Definition findWhisperCpp (cfg : VoiceConfig)
  : M voice.WhisperCppTranscriber (option error) :=
  found <-
    (if negb (isEmpty (WhisperCppPath cfg)) then
       st <- voice.stat (WhisperCppPath cfg) ;;
       match st with
       | StatOk =>
           terr <- testWhisperCpp (WhisperCppPath cfg) ;;
           match terr with
           | None => setPath (WhisperCppPath cfg) ;; ret true
           | Some _ => ret false
           end
       | _ => ret false
       end
     else ret false) ;;
  if (found : bool) then ret None else searchFrom searchPaths.

Definition NewWhisperCppTranscriber {St : Type} (cfg : VoiceConfig)
  : M St (option voice.WhisperCppTranscriber * option error) :=
  '(err, transcriber) <-
     onLocal {| voice.whisperCppPath := ""; voice.modelPath := WhisperModelPath cfg |}
       (findWhisperCpp cfg) ;;
  match err with
  | Some e => ret (None, Some ("whisper.cpp not found: " ++ e))
  | None => ret (Some transcriber, None)
  end.

(** ** The synthesizer *)

Definition testCommand {St : Type} (command : string) (arguments : list string)
  : M St bool :=
  '(_, err) <- voice.exec command arguments None ;;
  ret (match err with None => true | Some _ => false end).

(** The systems that [detectTTSSystem] tries, in its order: command,
    arguments, test arguments. *)
Definition systems (cfg : TTSConfig) : list (string * list string * list string) :=
  [ ("espeak-ng", ["-v"; "es"; "-s"; strconv.Itoa (Rate cfg)], ["--help"]);
    ("espeak", ["-v"; "es"; "-s"; strconv.Itoa (Rate cfg)], ["--help"]);
    ("festival", ["--tts"], ["--help"]) ].

Fixpoint detectFrom (candidates : list (string * list string * list string))
    (triedCommands : list string) : M voice.SystemTTS (option error) :=
  match candidates with
  | [] =>
      ret (Some ("no supported TTS system found (tried: "
                 ++ strings.Join triedCommands ", " ++ ")"))
  | (command, arguments, test) :: rest =>
      let triedCommands := (triedCommands ++ [command])%list in
      ok <- testCommand command test ;;
      if (ok : bool) then
        put {| voice.command := command; voice.args := arguments |} ;;
        log LevelInfo "🔊 TTS system detected" ;;
        ret None
      else detectFrom rest triedCommands
  end.

Definition detectTTSSystem (cfg : TTSConfig) : M voice.SystemTTS (option error) :=
  detectFrom (systems cfg) [].

Definition NewTextToSpeech {St : Type} (cfg : TTSConfig)
  : M St (option voice.SystemTTS * option error) :=
  '(err, tts) <-
     onLocal {| voice.command := ""; voice.args := [] |} (detectTTSSystem cfg) ;;
  match err with
  | Some e => ret (None, Some ("no TTS system found: " ++ e))
  | None => ret (Some tts, None)
  end.

(** ** The recorder *)

Definition NewAudioRecorder (cfg : VoiceConfig)
  : voice.AudioRecorder * option error :=
  ({| voice.AudioFilePath := "" |}, None).

Definition Cleanup : M voice.AudioRecorder (option error) :=
  a <- get ;;
  if negb (isEmpty (voice.AudioFilePath a))
     && strings.Contains (voice.AudioFilePath a) "desk_pet_recording_"
  then
    h <- history ;;
    let removed := osRemove h (voice.AudioFilePath a) in
    emit (Remove (voice.AudioFilePath a)) ;;
    match removed with
    | RemoveFailed e => ret (Some ("failed to remove audio file: " ++ e))
    | _ => put {| voice.AudioFilePath := "" |} ;; ret None
    end
  else ret None.

(** ** The session *)

(** The [Interface] with the adapters that may still be nil; [rl] tells
    whether the line reader is set. *)
Record Session : Type := {
  config : Config;
  claudeClient : option claude.SmartClient;
  recorder : option voice.AudioRecorder;
  transcriber : option voice.WhisperCppTranscriber;
  tts : option voice.SystemTTS;
  rl : bool
}.

Definition New (cfg : Config) : Session * option error :=
  ({| config := cfg; claudeClient := None; recorder := None;
      transcriber := None; tts := None; rl := false |}, None).

Definition setTranscriber (w : option voice.WhisperCppTranscriber) : M Session unit :=
  v <- get ;;
  put {| config := config v; claudeClient := claudeClient v; recorder := recorder v;
         transcriber := w; tts := tts v; rl := rl v |}.

Definition setClaudeClient (c : option claude.SmartClient) : M Session unit :=
  v <- get ;;
  put {| config := config v; claudeClient := c; recorder := recorder v;
         transcriber := transcriber v; tts := tts v; rl := rl v |}.

Definition setRecorder (a : option voice.AudioRecorder) : M Session unit :=
  v <- get ;;
  put {| config := config v; claudeClient := claudeClient v; recorder := a;
         transcriber := transcriber v; tts := tts v; rl := rl v |}.

Definition setTTS (s : option voice.SystemTTS) : M Session unit :=
  v <- get ;;
  put {| config := config v; claudeClient := claudeClient v; recorder := recorder v;
         transcriber := transcriber v; tts := s; rl := rl v |}.

Definition setReadline (present : bool) : M Session unit :=
  v <- get ;;
  put {| config := config v; claudeClient := claudeClient v; recorder := recorder v;
         transcriber := transcriber v; tts := tts v; rl := present |}.

Definition setConfig (c : Config) : M Session unit :=
  v <- get ;;
  put {| config := c; claudeClient := claudeClient v; recorder := recorder v;
         transcriber := transcriber v; tts := tts v; rl := rl v |}.

(** The client holds the pointer [v.config.VertexAI]: its [Initialize]
    runs on that part of the configuration of the session. *)
Definition onVertexAI {A : Type} (m : M VertexAIConfig A) : M Session A :=
  v <- get ;;
  '(a, vertexAI) <- onLocal (VertexAI (config v)) m ;;
  setConfig {| VertexAI := vertexAI; Voice := Voice (config v); TTS := TTS (config v) |} ;;
  ret a.

(** [SmartClient.Initialize], which the session calls on its client. *)
Variable clientInitialize : M VertexAIConfig (option error).

(** The last step of [Initialize]: the line reader. *)
Definition initReadline : M Session (option error) :=
  h <- history ;;
  match readlineNew h with
  | Some e => ret (Some ("failed to initialize readline: " ++ e))
  | None =>
      setReadline true ;;
      log LevelInfo "🎉 Voice interface ready!" ;;
      ret None
  end.

(** The step before it: the synthesizer, when speech is enabled. *)
Definition initTTS : M Session unit :=
  v <- get ;;
  if Enabled (TTS (config v)) then
    log LevelInfo "🔄 Setting up text-to-speech..." ;;
    '(s, err) <- NewTextToSpeech (TTS (config v)) ;;
    setTTS s ;;
    match err with
    | Some _ =>
        log LevelWarn "Failed to initialize TTS" ;;
        v' <- get ;;
        setConfig (voice.setEnabled false (config v'))
    | None => log LevelInfo "✅ TTS ready"
    end
  else ret tt.

Definition Initialize : M Session (option error) :=
  log LevelInfo "🔄 Initializing voice interface..." ;;
  v <- get ;;
  if UseWhisperCpp (Voice (config v)) then
    log LevelInfo "🔄 Setting up whisper.cpp (fast & lightweight)..." ;;
    '(w, err) <- NewWhisperCppTranscriber (Voice (config v)) ;;
    setTranscriber w ;;
    match err with
    | Some e => ret (Some ("failed to initialize whisper.cpp: " ++ e))
    | None =>
        log LevelInfo "✅ whisper.cpp ready" ;;
        log LevelInfo "🔄 Connecting to Claude..." ;;
        setClaudeClient (Some (claude.NewSmartClient (VertexAI (config v)))) ;;
        cerr <- onVertexAI clientInitialize ;;
        match cerr with
        | Some e => ret (Some ("failed to initialize Claude client: " ++ e))
        | None =>
            log LevelInfo "✅ Claude connected" ;;
            log LevelInfo "🔄 Setting up audio recorder..." ;;
            v1 <- get ;;
            let '(a, rerr) := NewAudioRecorder (Voice (config v1)) in
            setRecorder (Some a) ;;
            match rerr with
            | Some e => ret (Some ("failed to initialize audio recorder: " ++ e))
            | None =>
                log LevelInfo "✅ Audio recorder ready" ;;
                initTTS ;;
                initReadline
            end
        end
    end
  else ret (Some "Python Whisper not implemented yet, use whisper.cpp").

(** [VertexClient.Shutdown] through [SmartClient.Shutdown]: it logs and
    returns nil. *)
Definition clientShutdown : M Session (option error) :=
  log LevelInfo "Shutting down Claude Vertex AI client" ;;
  ret None.

(** [fmt.Errorf] with the verb [%v] on the slice of errors. *)
Definition shutdownErrors (errs : list error) : error :=
  "shutdown errors: [" ++ strings.Join errs " " ++ "]".

Definition Shutdown : M Session (option error) :=
  log LevelInfo "Shutting down voice interface" ;;
  v <- get ;;
  errs1 <-
    (if rl v then
       h <- history ;;
       match readlineClose h with
       | Some e => ret ["readline shutdown: " ++ e]
       | None => ret []
       end
     else ret []) ;;
  errs2 <-
    (match claudeClient v with
     | Some _ =>
         err <- clientShutdown ;;
         match err with
         | Some e => ret (errs1 ++ [("Claude client shutdown: " ++ e)%string])%list
         | None => ret errs1
         end
     | None => ret errs1
     end) ;;
  errs3 <-
    (match recorder v with
     | Some a =>
         '(err, a') <- onLocal a Cleanup ;;
         setRecorder (Some a') ;;
         match err with
         | Some e => ret (errs2 ++ [("recorder cleanup: " ++ e)%string])%list
         | None => ret errs2
         end
     | None => ret errs2
     end) ;;
  if (0 <? Z.of_nat (List.length errs3)) then ret (Some (shutdownErrors errs3))
  else ret None.

(** The session that the loop runs on, when every adapter it uses is
    set. *)
Definition ready (v : Session) : option voice.Interface :=
  match claudeClient v, recorder v, transcriber v with
  | Some c, Some a, Some w =>
      Some {| voice.config := config v; voice.claudeClient := c;
              voice.recorder := a; voice.transcriber := w; voice.tts := tts v |}
  | _, _, _ => None
  end.

End Lifecycle.

End lifecycle.

(** ** Statements about the life cycle *)

(** A run of [command] that came back with an error. *)
Definition failedProbe (command : string) (arguments : list string) (e : Event) : Prop :=
  exists output err, e = Exec command arguments None output (Some err).

(** The places where [findWhisperCpp] looks, in its order: the
    configured path when it is set and [os.Stat] finds it, then the
    common locations. *)
Definition candidates {world : World} (cfg : VoiceConfig) (h : list Event)
  : list string :=
  ((if negb (isEmpty (WhisperCppPath cfg))
    then match osStat h (WhisperCppPath cfg) with
         | StatOk => [WhisperCppPath cfg]
         | _ => []
         end
    else []) ++ lifecycle.searchPaths)%list.

(** The recorder holds the path of a recording that [Cleanup] removes. *)
Definition holdsRecording (a : voice.AudioRecorder) : bool :=
  negb (isEmpty (voice.AudioFilePath a))
  && strings.Contains (voice.AudioFilePath a) "desk_pet_recording_".

(** A host where every call succeeds. *)
Definition kindHost : Host :=
  {| osRemove := fun _ _ => RemoveOk;
     readlineNew := fun _ => None;
     readlineClose := fun _ => None |}.

(** A world where only [espeak] and [whisper] are installed. *)
Definition sparseWorld : World :=
  {| vertexSend := fun _ _ => ("", Some "connection refused");
     execRun := fun _ name _ _ =>
       if String.eqb name "espeak" || String.eqb name "whisper"
       then ("usage", None)
       else ("", Some "executable file not found in $PATH");
     osMkdirAll := fun _ _ => None;
     osTempDir := "/tmp";
     osStat := fun _ _ => StatNotExist;
     osReadFile := fun _ _ => ("", Some "no such file");
     filepathAbs := fun p => ("/home/bobo/" ++ p, None);
     filepathJoin := fun d f => d ++ "/" ++ f;
     filepathDir := fun p => p;
     timeNowFormat := fun _ => "20250101_120000";
     recordSelect := fun _ => ([], RecordingDone) |}.

Definition sampleConfig : Config :=
  {| VertexAI := sampleVertexConfig true;
     Voice := sampleVoiceConfig;
     TTS := {| Enabled := true; Rate := 160; Volume := PrimFloat.one;
               VoiceID := "" |} |}.


(** The runs that [chunks] cuts: none is empty, each holds bytes of one
    kind, and two neighbours are of different kinds. *)
Inductive runsOf (p : ascii -> bool) : list (bool * string) -> Prop :=
| runs_nil : runsOf p []
| runs_cons b c g rest :
    allBytes (fun x => Bool.eqb b (p x)) (String c g) = true ->
    match rest with
    | (b', _) :: _ => b' = negb b
    | [] => True
    end ->
    runsOf p rest ->
    runsOf p ((b, String c g) :: rest).

(** A statement about every byte, settled on the 256 of them. *)
Ltac by_bytes :=
  let c := fresh "c" in
  intros c; destruct c as [[] [] [] [] [] [] [] []];
  vm_compute; intros; congruence.

(* ================================================================== *)
(** * package config: the environment file

    [loadEnvFile] reads the file through a [bufio.Scanner]; what is
    modelled of it is the lines that the scanner hands over, and the
    error it holds when it stops.  The environment of the process is
    the list of its variables, the latest assignment first. *)

Module config.

Definition Env : Type := list (string * string).

Fixpoint lookupEnv (key : string) (env : Env) : option string :=
  match env with
  | [] => None
  | (k, v) :: rest => if String.eqb k key then Some v else lookupEnv key rest
  end.

(** [os.Getenv]: the empty string for a variable that is not set. *)
Definition Getenv (env : Env) (key : string) : string :=
  if isEmpty key then ""
  else match lookupEnv key env with
       | Some v => v
       | None => ""
       end.

(** [os.Setenv]: [EINVAL] for an empty key, for a key that holds [=]
    or a NUL byte, and for a value that holds a NUL byte. *)
Definition Setenv (env : Env) (key value : string) : Env * option error :=
  if isEmpty key
     || negb (allBytes (fun c => negb (regexp.byteIs 0x3D c || regexp.byteIs 0 c)) key)
     || negb (allBytes (fun c => negb (regexp.byteIs 0 c)) value)
  then (env, Some "setenv: invalid argument")
  else ((key, value) :: env, None).

(** The first [sep] of [s]: what is before it and what is after. *)
Fixpoint cutByte (sep : ascii) (s : string) : option (string * string) :=
  match s with
  | EmptyString => None
  | String c t =>
      if Ascii.eqb c sep then Some (EmptyString, t)
      else match cutByte sep t with
           | Some (a, b) => Some (String c a, b)
           | None => None
           end
  end.

(** [strings.SplitN(s, sep, 2)] for a separator of one byte. *)
Definition SplitN2 (s : string) (sep : ascii) : list string :=
  match cutByte sep s with
  | Some (a, b) => [a; b]
  | None => [s]
  end.

Definition HasSuffix (s suffix : string) : bool :=
  (String.length suffix <=? String.length s)%nat
  && String.eqb (dropBytes (String.length s - String.length suffix) s) suffix.

Definition doubleQuote : string := String (ascii_of_nat 34) EmptyString.

(** The quotes of a value: [value[1 : len(value)-1]] when it has at
    least two bytes and is within double or single quotes. *)
Definition stripQuotes (value : string) : string :=
  if (2 <=? String.length value)%nat then
    if (strings.HasPrefix value doubleQuote && HasSuffix value doubleQuote)
       || (strings.HasPrefix value "'" && HasSuffix value "'")
    then takeBytes (String.length value - 2) (dropBytes 1 value)
    else value
  else value.

(** What opening and scanning the file gives. *)
Inductive Scanned : Type :=
| NotExist
| OpenFailed (e : error)
| Opened (lines : list string) (scanErr : option error).

(** The loop of [loadEnvFile] over the lines that are left, [lineNum]
    lines having been read. *)
Fixpoint loadLines (filename : string) (lineNum : Z) (lines : list string) (env : Env)
  : Env * option error :=
  match lines with
  | [] => (env, None)
  | text :: rest =>
      let lineNum := lineNum + 1 in
      let line := strings.TrimSpace text in
      if isEmpty line || strings.HasPrefix line "#"
      then loadLines filename lineNum rest env
      else
        match SplitN2 line "="%char with
        | [k; v] =>
            let key := strings.TrimSpace k in
            let value := stripQuotes (strings.TrimSpace v) in
            let env' :=
              if isEmpty (Getenv env key) then fst (Setenv env key value) else env in
            loadLines filename lineNum rest env'
        | _ =>
            (env, Some ("invalid format in " ++ filename ++ " at line "
                        ++ strconv.Itoa lineNum ++ ": " ++ line))
        end
  end.

Definition loadEnvFile (filename : string) (file : Scanned) (env : Env)
  : Env * option error :=
  match file with
  | NotExist => (env, None)
  | OpenFailed e => (env, Some ("error opening " ++ filename ++ ": " ++ e))
  | Opened lines scanErr =>
      match loadLines filename 0 lines env with
      | (env', Some e) => (env', Some e)
      | (env', None) =>
          match scanErr with
          | Some e => (env', Some ("error reading " ++ filename ++ ": " ++ e))
          | None => (env', None)
          end
      end
  end.

End config.

(** A line of the file that is neither blank, nor a comment, nor an
    assignment. *)
Definition malformed (text : string) : Prop :=
  strings.TrimSpace text <> ""
  /\ strings.HasPrefix (strings.TrimSpace text) "#" = false
  /\ allBytes (fun c => negb (regexp.byteIs 0x3D c)) (strings.TrimSpace text) = true.

Definition sampleEnvFile : list string :=
  [ "# Vertex AI";
    "ANTHROPIC_VERTEX_PROJECT_ID=bobo-dev";
    "";
    "TTS_RATE = '180'";
    "CLOUD_ML_REGION" ].

(* ================================================================== *)
(** * package claude: the Vertex AI client

    [VertexClient] talks to [gcloud], to the credentials library and to
    the HTTP endpoint.  The child process goes through the [World]; the
    libraries answer through a [Cloud].  The requests that the client
    hands to its HTTP client are kept, in order, in the field [sent] of
    its state. *)

Module google.

Record Credentials : Type := {
  ProjectID : string
}.

End google.

(** The JSON structures of the exchange. *)
Module wire.

Record VertexRequest : Type := {
  AnthropicVersion : string;
  Messages : list Message;
  MaxTokens : Z;
  Temperature : PrimFloat.float;
  System : string
}.

Record ContentBlock : Type := {
  Type_ : string;
  Text : string
}.

(** [Usage] is decoded and never read. *)
Record VertexResponse : Type := {
  Content : list ContentBlock
}.

End wire.

Inductive HttpResult : Type :=
| DoFailed (e : error)
| Responded (status : Z) (body : string) (readErr : option error).

Class Cloud : Type := {
  FindDefaultCredentials : list Event -> google.Credentials * option error;
  DefaultClient : list Event -> option error;
  NewRequest : string -> option error;
  Do : list Event -> string -> wire.VertexRequest -> HttpResult;
  Unmarshal : string -> wire.VertexResponse * option error
}.

Module vertex.

Section Client.
Context {world : World} {cloud : Cloud}.

Record VertexClient : Type := {
  config : VertexAIConfig;
  initialized : bool;
  sent : list (string * wire.VertexRequest)
}.

Definition NewVertexClient (cfg : VertexAIConfig) : VertexClient :=
  {| config := cfg; initialized := false; sent := [] |}.

Definition checkAuthentication : M VertexClient (option error) :=
  '(output, err) <-
     voice.exec "gcloud" ["auth"; "application-default"; "print-access-token"] None ;;
  match err with
  | Some e => ret (Some ("gcloud ADC not available: " ++ e))
  | None =>
      if isEmpty (strings.TrimSpace output) then ret (Some "empty access token")
      else
        log LevelInfo "✅ gcloud Application Default Credentials available" ;;
        ret None
  end.

Definition logCredentialInfo (credentials : google.Credentials) : M VertexClient unit :=
  log LevelInfo "🔑 Credentials type" ;;
  if negb (isEmpty (google.ProjectID credentials))
  then log LevelInfo "🏗️ Detected project"
  else ret tt.

Definition logAuthenticationHelp : M VertexClient unit :=
  log LevelError "" ;;
  log LevelError "🔧 Authentication Troubleshooting:" ;;
  log LevelError "1. Run: gcloud auth application-default login" ;;
  log LevelError "2. Run: gcloud config set project YOUR_PROJECT_ID" ;;
  log LevelError "3. Ensure the project has Vertex AI API enabled" ;;
  log LevelError "4. Ensure you have the necessary IAM permissions" ;;
  log LevelError "".

Definition setProjectID (project : string) : M VertexClient unit :=
  c <- get ;;
  put {| config :=
           {| ProjectID := project; Location := Location (config c);
              Model := Model (config c); MaxTokens := MaxTokens (config c);
              Temperature := Temperature (config c);
              SystemPrompt := SystemPrompt (config c);
              EnableAutoSearch := EnableAutoSearch (config c) |};
         initialized := initialized c; sent := sent c |}.

Definition setInitialized (b : bool) : M VertexClient unit :=
  c <- get ;;
  put {| config := config c; initialized := b; sent := sent c |}.

Definition Initialize : M VertexClient (option error) :=
  c <- get ;;
  if initialized c then ret None
  else
    log LevelInfo "🔐 Initializing Vertex AI authentication..." ;;
    aerr <- checkAuthentication ;;
    match aerr with
    | Some e =>
        logAuthenticationHelp ;;
        ret (Some ("authentication check failed: " ++ e))
    | None =>
        h <- history ;;
        let '(credentials, cerr) := FindDefaultCredentials h in
        match cerr with
        | Some e => ret (Some ("failed to find default credentials: " ++ e))
        | None =>
            logCredentialInfo credentials ;;
            (if isEmpty (ProjectID (config c))
                && negb (isEmpty (google.ProjectID credentials))
             then setProjectID (google.ProjectID credentials)
             else ret tt) ;;
            c1 <- get ;;
            if isEmpty (ProjectID (config c1))
            then ret (Some "no project ID found. Please set ANTHROPIC_VERTEX_PROJECT_ID or run: gcloud config set project YOUR_PROJECT")
            else
              log LevelInfo "📋 Using project" ;;
              log LevelInfo "🌍 Using location" ;;
              log LevelInfo "🤖 Using model" ;;
              h' <- history ;;
              match DefaultClient h' with
              | Some e => ret (Some ("failed to create HTTP client: " ++ e))
              | None =>
                  setInitialized true ;;
                  log LevelInfo "✅ Vertex AI client initialized successfully" ;;
                  ret None
              end
        end
    end.

(** [json.Marshal] of the request fails on a temperature that is not a
    finite number, and on nothing else. *)
Definition marshalError (request : wire.VertexRequest) : option error :=
  let t := wire.Temperature request in
  if PrimFloat.is_nan t then Some "json: unsupported value: NaN"
  else if PrimFloat.is_infinity t then
    if PrimFloat.ltb t PrimFloat.zero
    then Some "json: unsupported value: -Inf"
    else Some "json: unsupported value: +Inf"
  else None.

Fixpoint firstText (content : list wire.ContentBlock) : string :=
  match content with
  | [] => ""
  | block :: rest =>
      if String.eqb (wire.Type_ block) "text" && negb (isEmpty (wire.Text block))
      then wire.Text block
      else firstText rest
  end.

Definition extractTextFromResponse (response : wire.VertexResponse) : string :=
  if (List.length (wire.Content response) =? 0)%nat then ""
  else firstText (wire.Content response).

Definition endpoint (cfg : VertexAIConfig) : string :=
  "https://" ++ Location cfg ++ "-aiplatform.googleapis.com/v1/projects/"
  ++ ProjectID cfg ++ "/locations/" ++ Location cfg
  ++ "/publishers/anthropic/models/" ++ Model cfg ++ ":streamRawPredict".

Definition recordSent (url : string) (request : wire.VertexRequest)
  : M VertexClient unit :=
  c <- get ;;
  put {| config := config c; initialized := initialized c;
         sent := (sent c ++ [(url, request)])%list |}.

Definition SendMessage (messages : list Message) : M VertexClient (string * option error) :=
  c <- get ;;
  ierr <- (if negb (initialized c) then Initialize else ret None) ;;
  match ierr with
  | Some e => ret ("", Some ("failed to initialize client: " ++ e))
  | None =>
      c1 <- get ;;
      let request :=
        {| wire.AnthropicVersion := "vertex-2023-10-16";
           wire.Messages := messages;
           wire.MaxTokens := MaxTokens (config c1);
           wire.Temperature := Temperature (config c1);
           wire.System :=
             if negb (isEmpty (SystemPrompt (config c1)))
             then SystemPrompt (config c1) else "" |} in
      match marshalError request with
      | Some e => ret ("", Some ("failed to marshal request: " ++ e))
      | None =>
          let url := endpoint (config c1) in
          log LevelDebug "Making request to Vertex AI" ;;
          match NewRequest url with
          | Some e => ret ("", Some ("failed to create HTTP request: " ++ e))
          | None =>
              h <- history ;;
              recordSent url request ;;
              match Do h url request with
              | DoFailed e => ret ("", Some ("HTTP request failed: " ++ e))
              | Responded status body (Some e) =>
                  ret ("", Some ("failed to read response body: " ++ e))
              | Responded status body None =>
                  log LevelDebug "Received response" ;;
                  if negb (status =? 200)
                  then ret ("", Some ("API error " ++ strconv.Itoa status ++ ": " ++ body))
                  else
                    let '(vertexResponse, uerr) := Unmarshal body in
                    match uerr with
                    | Some e => ret ("", Some ("failed to parse response: " ++ e))
                    | None =>
                        let text := extractTextFromResponse vertexResponse in
                        if isEmpty text
                        then ret ("", Some "no text found in response")
                        else ret (text, None)
                    end
              end
          end
      end
  end.

Definition IsAvailable : M VertexClient bool :=
  c <- get ;; ret (initialized c).

Definition Shutdown : M VertexClient (option error) :=
  log LevelInfo "Shutting down Claude Vertex AI client" ;;
  setInitialized false ;;
  ret None.

End Client.

End vertex.

(** A block of the response that [extractTextFromResponse] takes. *)
Definition isTextBlock (b : wire.ContentBlock) : bool :=
  String.eqb (wire.Type_ b) "text" && negb (isEmpty (wire.Text b)).

(** What [b] adds to the requests [a]: they are the same, or [b] has one
    more at its end. *)
Definition atMostOneMore {A : Type} (a b : list A) : Prop :=
  b = a \/ exists x, b = (a ++ [x])%list.

(** A cloud where the credentials name a project and the endpoint
    answers one text block. *)
Definition sunnyCloud : Cloud :=
  {| FindDefaultCredentials := fun _ => ({| google.ProjectID := "bobo-dev" |}, None);
     DefaultClient := fun _ => None;
     NewRequest := fun _ => None;
     Do := fun _ _ _ => Responded 200 "{}" None;
     Unmarshal := fun _ =>
       ({| wire.Content :=
             [ {| wire.Type_ := "thinking"; wire.Text := "..." |};
               {| wire.Type_ := "text"; wire.Text := "" |};
               {| wire.Type_ := "text"; wire.Text := "¡Hola!" |} ] |}, None) |}.

(** A world where [gcloud] prints a token. *)
Definition signedInWorld : World :=
  scriptedWorld [] ("ya29.token", None) StatOk ([], RecordingDone).

(* ================================================================== *)
(** * Properties *)

Local Open Scope string_scope.
Local Open Scope Z_scope.
Local Open Scope go_scope.

(** ** The model of the runtime on some inputs *)

Example decode_two_bytes : utf8.DecodeRuneInString "ñandú" = (0xF1, 2%nat).
Proof. reflexivity. Qed.

Example decode_stray_continuation :
  utf8.DecodeRuneInString (String (ascii_of_nat 160) "a") = (utf8.RuneError, 1%nat).
Proof. reflexivity. Qed.

Example decode_last_three_bytes : utf8.DecodeLastRuneInString "1 €" = (0x20AC, 3%nat).
Proof. reflexivity. Qed.

Example TrimSpace_unicode : strings.TrimSpace (nbsp ++ " ñu " ++ nbsp) = "ñu".
Proof. reflexivity. Qed.

Example Split_trailing_newline :
  strings.Split_nl ("a" ++ nl ++ "b" ++ nl) = ["a"; "b"; ""].
Proof. reflexivity. Qed.

Example ToLower_latin1 : strings.ToLower (tables := latin1Tables) "¿QUÉ TAL?" = "¿qué tal?".
Proof. reflexivity. Qed.

Example trigger_ignores_case :
  regexp.MatchString (regexp.compileFoldLiteral "current information")
    "No CURRENT Information here" = true.
Proof. reflexivity. Qed.

Example location_after_in :
  regexp.FindLocationGroup 0x69 0x6E "what's the weather in Madrid" = Some "Madrid".
Proof. reflexivity. Qed.

Example location_gives_back_a_space :
  regexp.FindLocationGroup 0x65 0x6E "tiempo en  7" = Some " ".
Proof. reflexivity. Qed.

Example timestamp_before_text_is_kept :
  voice.isTimestampLine "[00:00:00.000 --> 00:00:02.000] Hello" = false.
Proof. reflexivity. Qed.

Example clean_markdown : voice.cleanTextForSpeech "**Hola** _mundo_" = "Hola mundo".
Proof. reflexivity. Qed.

Example clean_paragraphs :
  voice.cleanTextForSpeech ("uno" ++ nl ++ nl ++ "dos... tres") = "uno. dos. tres".
Proof. reflexivity. Qed.

(** White space is in the class that the sanitizer keeps: a newline on
    its own is read out as a period. *)
Example clean_newline : voice.cleanTextForSpeech nl = ".".
Proof. reflexivity. Qed.

Example query_spanish_weather :
  claude.extractSearchQuery (tables := latin1Tables)
    "¿Qué tiempo hace en Madrid hoy?" "" = "weather today Madrid hoy".
Proof. reflexivity. Qed.

Example query_generic_empty :
  claude.extractSearchQuery (tables := latin1Tables) "" "" = "current information ".
Proof. reflexivity. Qed.

(** ** Strings as bytes *)

Lemma append_empty_r (s : string) : s ++ "" = s.
Proof. induction s as [|c s IH]; simpl; congruence. Qed.

Lemma append_assoc (a b c : string) : (a ++ b) ++ c = a ++ (b ++ c).
Proof. induction a as [|x a IH]; simpl; congruence. Qed.

Lemma length_append (a b : string) :
  String.length (a ++ b) = (String.length a + String.length b)%nat.
Proof. induction a as [|x a IH]; simpl; congruence. Qed.

Lemma isEmpty_true (s : string) : isEmpty s = true <-> s = "".
Proof. destruct s; simpl; split; congruence. Qed.

Lemma isEmpty_false (s : string) : isEmpty s = false <-> s <> "".
Proof. destruct s; simpl; split; congruence. Qed.

Lemma take_drop (n : nat) (s : string) : takeBytes n s ++ dropBytes n s = s.
Proof.
  revert s; induction n as [|n IH]; intros [|c s]; simpl; try reflexivity.
  now rewrite IH.
Qed.

Lemma length_dropBytes (n : nat) (s : string) :
  String.length (dropBytes n s) = (String.length s - n)%nat.
Proof.
  revert s; induction n as [|n IH]; intros [|c s]; simpl; auto; lia.
Qed.

Lemma dropBytes_append (n : nat) (a x : string) :
  (n <= String.length a)%nat -> dropBytes n (a ++ x) = dropBytes n a ++ x.
Proof.
  revert a; induction n as [|n IH]; intros [|c a]; simpl; intros Hn;
    try reflexivity; try lia.
  apply IH; lia.
Qed.

Lemma takeBytes_append (n : nat) (a x : string) :
  (n <= String.length a)%nat -> takeBytes n (a ++ x) = takeBytes n a.
Proof.
  revert a; induction n as [|n IH]; intros [|c a]; simpl; intros Hn;
    try reflexivity; try lia.
  f_equal; apply IH; lia.
Qed.

Lemma byteZ_range (c : ascii) : 0 <= byteZ c < 256.
Proof.
  unfold byteZ. pose proof (N_ascii_bounded c) as Hb. lia.
Qed.



(** ** Derivatives decide the language of a pattern *)


Lemma lang_void w : ~ lang regexp.Void w.
Proof. intros Hl; inversion Hl. Qed.

Lemma lang_smart_cat a b w :
  lang (regexp.cat a b) w <-> lang (regexp.Cat a b) w.
Proof.
  unfold regexp.cat.
  destruct a; simpl; try (destruct b; simpl; try tauto);
    split; intros Hl; inversion Hl; subst;
    match goal with
    | Hv : lang regexp.Void _ |- _ => inversion Hv
    end.
Qed.

Lemma lang_smart_alt a b w :
  lang (regexp.alt a b) w <-> lang (regexp.Alt a b) w.
Proof.
  unfold regexp.alt.
  destruct a; simpl; try (destruct b; simpl; try tauto);
    split; intros Hl; auto with re;
    inversion Hl; subst; auto;
    match goal with
    | Hv : lang regexp.Void _ |- _ => inversion Hv
    end.
Qed.

Lemma nullable_spec r : regexp.nullable r = true <-> lang r [].
Proof.
  induction r as [| |p|a IHa b IHb|a IHa b IHb|a IHa]; simpl.
  - split; [discriminate | intros Hl; inversion Hl].
  - split; auto with re.
  - split; [discriminate | intros Hl; inversion Hl].
  - rewrite andb_true_iff, IHa, IHb. split.
    + intros [Ha Hb]. change (@nil Z) with (@nil Z ++ [])%list. auto with re.
    + intros Hl. remember (@nil Z) as e eqn:He.
      inversion Hl as [| |a' b' u w Hu Hw| | | |]; subst.
      match goal with
      | Heq : (_ ++ _)%list = [] |- _ => apply app_eq_nil in Heq as [-> ->]
      end. auto.
  - rewrite orb_true_iff, IHa, IHb. split.
    + intros [Ha | Hb]; auto with re.
    + intros Hl. inversion Hl; subst; auto.
  - split; auto with re.
Qed.

Lemma lang_star_uncons a c w :
  lang (regexp.Star a) (c :: w) ->
  exists u v, w = (u ++ v)%list /\ lang a (c :: u) /\ lang (regexp.Star a) v.
Proof.
  intros Hl. remember (regexp.Star a) as r eqn:Hr.
  remember (c :: w) as cw eqn:Hcw.
  revert w Hcw. induction Hl as [| | | | | |a' u v Hu _ Hv IHv]; intros w0 Hcw;
    try discriminate.
  injection Hr as ->.
  destruct u as [|x u].
  - simpl in Hcw. now apply IHv.
  - simpl in Hcw. injection Hcw as -> <-. now exists u, v.
Qed.

Lemma deriv_spec r c w : lang (regexp.deriv c r) w <-> lang r (c :: w).
Proof.
  revert w. induction r as [| |p|a IHa b IHb|a IHa b IHb|a IHa]; intros w; simpl.
  - split; intros Hl; inversion Hl.
  - split; intros Hl; inversion Hl.
  - destruct (p c) eqn:Hp; split; intros Hl; inversion Hl; subst.
    + now constructor.
    + constructor.
    + congruence.
  - assert (Hcat : lang (regexp.Cat (regexp.deriv c a) b) w <->
                   exists u v, w = (u ++ v)%list /\ lang a (c :: u) /\ lang b v).
    { split.
      - intros Hl. inversion Hl as [| |a' b' u v Hu Hv| | | |]; subst.
        exists u, v. rewrite <- IHa. auto.
      - intros [u [v [-> [Hu Hv]]]]. constructor; [now apply IHa | assumption]. }
    assert (Hsplit : lang (regexp.Cat a b) (c :: w) <->
                     (exists u v, w = (u ++ v)%list /\ lang a (c :: u) /\ lang b v)
                     \/ (lang a [] /\ lang b (c :: w))).
    { split.
      - intros Hl. inversion Hl; subst.
        match goal with
        | Heq : (?u ++ ?v)%list = c :: w |- _ =>
            destruct u as [|x u]; simpl in Heq;
            [ subst v; right; auto
            | injection Heq as -> <-; left; eauto ]
        end.
      - intros [[u [v [-> [Hu Hv]]]] | [Ha Hb]].
        + change (c :: u ++ v)%list with ((c :: u) ++ v)%list. now constructor.
        + change (c :: w) with ([] ++ c :: w)%list. now constructor. }
    destruct (regexp.nullable a) eqn:Hn.
    + rewrite lang_smart_alt, Hsplit. split.
      * intros Hl. inversion Hl; subst.
        -- left. apply Hcat. now apply lang_smart_cat.
        -- right. split; [now apply nullable_spec | now apply IHb].
      * intros [Hl | [_ Hb]].
        -- apply lang_alt_l, lang_smart_cat, Hcat, Hl.
        -- apply lang_alt_r, IHb, Hb.
    + rewrite lang_smart_cat, Hcat, Hsplit. split; [auto |].
      intros [Hl | [Ha _]]; [assumption |].
      apply nullable_spec in Ha. congruence.
  - rewrite lang_smart_alt. split; intros Hl; inversion Hl; subst.
    + apply lang_alt_l. now apply IHa.
    + apply lang_alt_r. now apply IHb.
    + apply lang_alt_l. now apply IHa.
    + apply lang_alt_r. now apply IHb.
  - rewrite lang_smart_cat. split.
    + intros Hl. inversion Hl as [| |a' b' u v Hu Hv| | | |]; subst.
      change (c :: u ++ v)%list with ((c :: u) ++ v)%list.
      constructor; [now apply IHa | assumption].
    + intros Hl. apply lang_star_uncons in Hl as [u [v [-> [Hu Hv]]]].
      constructor; [now apply IHa | assumption].
Qed.

Lemma matches_spec r w : regexp.matches r w = true <-> lang r w.
Proof.
  revert r; induction w as [|c w IH]; intros r; simpl.
  - apply nullable_spec.
  - rewrite IH. apply deriv_spec.
Qed.

Lemma lang_star_all p w :
  Forall (fun c => p c = true) w -> lang (regexp.Star (regexp.Sym p)) w.
Proof.
  induction 1 as [|c w Hc _ IH]; [constructor |].
  change (c :: w) with ([c] ++ w)%list. constructor; [now constructor | assumption].
Qed.

Lemma lang_any_star w : lang (regexp.Star regexp.anyRune) w.
Proof. apply lang_star_all. induction w; constructor; auto. Qed.

(** ** Decoding UTF-8 *)

Lemma first_lead b sz lo hi :
  utf8.first b = utf8.Lead sz lo hi -> (2 <= sz <= 4)%nat /\ 0x80 <= lo.
Proof.
  unfold utf8.first, utf8.locb, utf8.hicb.
  repeat match goal with
         | |- context [if ?c then _ else _] => destruct c
         end;
    intros Hf; try discriminate; injection Hf as <- <- <-; lia.
Qed.

Lemma decode_width s :
  s <> "" ->
  (1 <= snd (utf8.DecodeRuneInString s) <= String.length s)%nat.
Proof.
  destruct s as [|c0 t0]; [congruence | intros _].
  unfold utf8.DecodeRuneInString.
  destruct (utf8.first (byteZ c0)) as [| |sz lo hi]; cbn [snd String.length]; try lia.
  destruct (_ <? sz)%nat eqn:Hlen; cbn [snd]; [lia |].
  destruct t0 as [|c1 t1]; cbn [snd]; [lia |].
  destruct (_ || _); cbn [snd]; [lia |].
  destruct (sz <=? 2)%nat eqn:H2; cbn [snd String.length]; [lia |].
  destruct t1 as [|c2 t2]; cbn [snd]; [lia |].
  destruct (negb _); cbn [snd]; [lia |].
  destruct (sz <=? 3)%nat eqn:H3; cbn [snd String.length]; [lia |].
  destruct t2 as [|c3 t3]; cbn [snd String.length] in *.
  - natbool. lia.
  - destruct (negb _); cbn [snd]; lia.
Qed.

Lemma decode_ascii c t :
  byteZ c < 0x80 -> utf8.DecodeRuneInString (String c t) = (byteZ c, 1%nat).
Proof.
  intros Hc. unfold utf8.DecodeRuneInString, utf8.first.
  destruct (byteZ c <? 128) eqn:Hlt; [reflexivity | lia].
Qed.

Lemma decode_app_ascii a c t :
  a <> "" -> byteZ c < 0x80 ->
  utf8.DecodeRuneInString (a ++ String c t) = utf8.DecodeRuneInString a.
Proof.
  intros Ha Hc.
  destruct a as [|c0 t0]; [congruence | clear Ha].
  cbn [append]. unfold utf8.DecodeRuneInString.
  destruct (utf8.first (byteZ c0)) as [| |sz lo hi] eqn:Hf; try reflexivity.
  apply first_lead in Hf as [Hsz Hlo].
  assert (Hnc : negb (utf8.isCont (byteZ c)) = true).
  { unfold utf8.isCont, utf8.locb. destruct (128 <=? byteZ c) eqn:Hx; [lia | reflexivity]. }
  assert (Hlt : (byteZ c <? lo) || (hi <? byteZ c) = true).
  { destruct (byteZ c <? lo) eqn:Hx; [reflexivity | lia]. }
  set (n1 := String.length (String c0 (t0 ++ String c t))).
  set (n2 := String.length (String c0 t0)).
  assert (Hn1 : n1 = (n2 + S (String.length t))%nat).
  { subst n1 n2. cbn [String.length]. rewrite length_append. cbn [String.length]. lia. }
  assert (Hn2 : n2 = S (String.length t0)) by reflexivity.
  clearbody n1 n2.
  destruct (n1 <? sz)%nat eqn:E1, (n2 <? sz)%nat eqn:E2; natbool;
    try reflexivity; try lia.
  - destruct t0 as [|c1 t1]; cbn [append String.length] in *.
    { now rewrite Hlt. }
    destruct ((byteZ c1 <? lo) || (hi <? byteZ c1)); [reflexivity |].
    destruct (sz <=? 2)%nat eqn:H2; natbool; [lia |].
    destruct t1 as [|c2 t2]; cbn [append String.length] in *.
    { now rewrite Hnc. }
    destruct (negb (utf8.isCont (byteZ c2))); [reflexivity |].
    destruct (sz <=? 3)%nat eqn:H3; natbool; [lia |].
    destruct t2 as [|c3 t3]; cbn [append String.length] in *.
    { now rewrite Hnc. }
    lia.
  - destruct t0 as [|c1 t1]; cbn [append String.length] in *; [lia |].
    destruct ((byteZ c1 <? lo) || (hi <? byteZ c1)); [reflexivity |].
    destruct (sz <=? 2)%nat eqn:H2; natbool; [reflexivity |].
    destruct t1 as [|c2 t2]; cbn [append String.length] in *; [lia |].
    destruct (negb (utf8.isCont (byteZ c2))); [reflexivity |].
    destruct (sz <=? 3)%nat eqn:H3; natbool; [reflexivity |].
    destruct t2 as [|c3 t3]; cbn [append String.length] in *; [lia |].
    reflexivity.
Qed.

Lemma runesFuel_irrelevant f1 f2 s :
  (String.length s <= f1)%nat -> (String.length s <= f2)%nat ->
  utf8.runesFuel f1 s = utf8.runesFuel f2 s.
Proof.
  revert f2 s. induction f1 as [|f1 IH]; intros f2 s H1 H2.
  - destruct s; [destruct f2; reflexivity | cbn in H1; lia].
  - destruct s as [|c0 t0]; [destruct f2; reflexivity |].
    destruct f2 as [|f2]; [cbn in H2; lia |].
    cbn [utf8.runesFuel].
    pose proof (decode_width (String c0 t0) ltac:(discriminate)) as Hw.
    destruct (utf8.DecodeRuneInString (String c0 t0)) as [r w].
    cbn [snd String.length] in *. f_equal.
    apply IH; rewrite length_dropBytes; cbn [String.length]; lia.
Qed.

Lemma runesFuel_enough f s :
  (String.length s <= f)%nat -> utf8.runesFuel f s = utf8.runes s.
Proof.
  intros Hf. unfold utf8.runes. now apply runesFuel_irrelevant.
Qed.

Lemma runes_nil : utf8.runes "" = [].
Proof. reflexivity. Qed.

Lemma runes_step s :
  s <> "" ->
  utf8.runes s =
    (fst (utf8.DecodeRuneInString s),
     takeBytes (snd (utf8.DecodeRuneInString s)) s)
      :: utf8.runes (dropBytes (snd (utf8.DecodeRuneInString s)) s).
Proof.
  intros Hs. pose proof (decode_width s Hs) as Hw.
  destruct s as [|c0 t0]; [congruence |].
  unfold utf8.runes at 1. cbn [String.length utf8.runesFuel].
  destruct (utf8.DecodeRuneInString (String c0 t0)) as [r w].
  cbn [fst snd] in *. f_equal.
  apply runesFuel_enough. rewrite length_dropBytes. cbn [String.length] in *. lia.
Qed.

Lemma runes_ascii_cons c t :
  byteZ c < 0x80 ->
  utf8.runes (String c t) = (byteZ c, String c "") :: utf8.runes t.
Proof.
  intros Hc. rewrite runes_step by discriminate.
  rewrite decode_ascii by assumption. reflexivity.
Qed.

(** Decoding does not look past an ASCII byte: the runes of a string
    that goes on with an ASCII byte are those of the two parts. *)
Lemma runes_app_ascii a c t :
  byteZ c < 0x80 ->
  utf8.runes (a ++ String c t) = (utf8.runes a ++ utf8.runes (String c t))%list.
Proof.
  intros Hc.
  remember (String.length a) as n eqn:Hn.
  revert a Hn. induction n as [n IH] using lt_wf_ind. intros a Hn.
  destruct a as [|c0 t0]; [reflexivity |].
  assert (Ha : String c0 t0 <> "") by discriminate.
  rewrite (runes_step (String c0 t0 ++ String c t)) by discriminate.
  rewrite (runes_step (String c0 t0)) by discriminate.
  rewrite decode_app_ascii by assumption.
  pose proof (decode_width _ Ha) as Hw.
  destruct (utf8.DecodeRuneInString (String c0 t0)) as [r w]. cbn [fst snd] in *.
  rewrite takeBytes_append, dropBytes_append by lia.
  cbn [app]. f_equal.
  apply (IH (String.length (dropBytes w (String c0 t0)))); [| reflexivity].
  rewrite length_dropBytes. subst n. cbn [String.length] in *. lia.
Qed.

Lemma runes_ascii_prefix p b :
  strings.isASCII p = true ->
  utf8.runes (p ++ b) = (asciiRunes p ++ utf8.runes b)%list.
Proof.
  induction p as [|c p IH]; intros Hp; [reflexivity |].
  cbn in Hp. apply andb_true_iff in Hp as [Hc Hp].
  unfold strings.isASCIIByte, utf8.RuneSelf in Hc. apply Z.ltb_lt in Hc.
  cbn [append asciiRunes app]. rewrite runes_ascii_cons by assumption.
  now rewrite IH.
Qed.

Lemma runes_ascii p :
  strings.isASCII p = true -> utf8.runes p = asciiRunes p.
Proof.
  intros Hp. rewrite <- (append_empty_r p) at 1.
  rewrite runes_ascii_prefix by assumption. rewrite runes_nil. apply app_nil_r.
Qed.

(** The bytes of the runes, put back together, are the string. *)
Lemma runes_concat s : utf8.concatBytes (map snd (utf8.runes s)) = s.
Proof.
  remember (String.length s) as n eqn:Hn.
  revert s Hn. induction n as [n IH] using lt_wf_ind. intros s Hn.
  destruct s as [|c0 t0]; [reflexivity |].
  assert (Ha : String c0 t0 <> "") by discriminate.
  rewrite runes_step by assumption.
  pose proof (decode_width _ Ha) as Hw.
  destruct (utf8.DecodeRuneInString (String c0 t0)) as [r w]. cbn [fst snd] in *.
  cbn [map snd utf8.concatBytes].
  rewrite (IH (String.length (dropBytes w (String c0 t0)))); [| | reflexivity].
  - apply take_drop.
  - rewrite length_dropBytes. subst n. cbn [String.length] in *. lia.
Qed.
(** ** What [RecordAudio] returns *)







(** ** A reply that disclaims current information *)




Lemma createEnhancedResponse_run {world : World} {St} messages initial query found
    (st : St) h :
  let sent := claude.enhancedMessages messages initial query found in
  let r := vertexSend h sent in
  let h1 := (h ++ [VertexCall sent (fst r) (snd r)])%list in
  claude.createEnhancedResponse messages initial query found st h
  = match snd r with
    | Some e => (Returned ("", Some ("failed to get enhanced response: " ++ e)), st, h1)
    | None =>
        if negb (isEmpty (fst r))
        then (Returned (fst r, None), st,
              (h1 ++ [Log LevelInfo "Successfully created enhanced response with current information"])%list)
        else (Returned ("", Some "empty enhanced response"), st, h1)
    end.
Proof.
  intros sent r h1. unfold claude.createEnhancedResponse, claude.vertexSendMessage.
  unfold bind, history, emit, ret, log, emit.
  fold sent. fold r. destruct r as [text [e|]]; cbn [fst snd]; [reflexivity |].
  now destruct (isEmpty text).
Qed.





(** The slip in the debug line of [SendMessage]: a reply shorter than
    100 bytes that warrants augmentation makes [initialResponse[:100]]
    panic. *)
Lemma short_disclaimer_panics :
  fst (fst (claude.SendMessage (tables := latin1Tables)
              (world := scriptedWorld [(disclaimer ++ ".", None)] ("", None) StatOk
                          ([], RecordingDone))
              (claude.NewSmartClient (sampleVertexConfig true)) askWeather tt []))
  = Panicked "runtime error: slice bounds out of range [:100] with length 43".
Proof. vm_compute. reflexivity. Qed.

(** ** Augmentation that fails *)

Lemma logs_no_calls logs :
  forallb isLog logs = true ->
  filter isVertexCall logs = []
  /\ forall query found, ~ In (Lookup query found) logs.
Proof.
  induction logs as [|e logs IH]; [split; [reflexivity | intros q f []] |].
  cbn [forallb]. intros Hall. apply andb_true_iff in Hall as [He Hl].
  destruct (IH Hl) as [Hf Hn]. destruct e; try discriminate He.
  split; [exact Hf |]. intros q f [Heq | Hin]; [discriminate | now apply (Hn q f)].
Qed.

Lemma run_eq {St A} (o o' : Outcome A) (st st' : St) (h new new' : list Event) :
  (o, st, (h ++ new)%list) = (o', st', (h ++ new')%list) ->
  o = o' /\ st = st' /\ new = new'.
Proof.
  intros Heq. injection Heq as -> -> Hh. apply app_inv_head in Hh. auto.
Qed.

(** A turn of [sendMessageVia] in which something failed after the
    primary reply returns that reply. *)
Lemma sendMessageVia_failed {tables : CaseTables} {world : World} {St : Type}
    (search : string -> M St (option SearchResults))
    (s : claude.SmartClient) (messages : list Message)
    (st st' : St) (h new : list Event) (primary : string)
    (out : Outcome (string * option error)) :
  (forall query, quiet (search query)) ->
  vertexSend h messages = (primary, None) ->
  primary <> "" ->
  claude.sendMessageVia search s messages st h = (out, st', (h ++ new)%list) ->
  augmentationFailed new ->
  out = Returned (primary, None) /\ st' = st.
Proof.
  intros Hquiet Hsend Hne Hrun Hfail.
  unfold claude.sendMessageVia in Hrun.
  unfold bind at 1 in Hrun. unfold claude.vertexSendMessage at 1 in Hrun.
  unfold bind at 1 in Hrun. unfold history at 1 in Hrun.
  unfold bind at 1 in Hrun. unfold emit at 1 in Hrun.
  unfold ret at 1 in Hrun. rewrite Hsend in Hrun. cbn [fst snd] in Hrun.
  apply isEmpty_false in Hne. rewrite Hne in Hrun.
  destruct (claude.autoSearchEnabled s && claude.needsWebSearch s primary messages).
  2:{ unfold ret in Hrun. apply run_eq in Hrun as [<- [<- _]]. now split. }
  unfold bind at 1 in Hrun. unfold log at 1, emit at 1 in Hrun.
  unfold bind at 1 in Hrun. unfold sliceTo in Hrun.
  destruct (String.length primary <? 100)%nat.
  { (* the slice panics: no lookup, no second request *)
    unfold panic in Hrun. rewrite <- app_assoc in Hrun.
    apply run_eq in Hrun as [_ [_ <-]].
    destruct Hfail as [[q [f [Hin _]]] | [ms [t [e [Hnth _]]]]].
    - cbn in Hin. intuition discriminate.
    - discriminate Hnth. }
  unfold ret at 1 in Hrun.
  unfold bind at 1 in Hrun. unfold log at 1, emit at 1 in Hrun.
  unfold bind at 1 in Hrun. unfold log at 1, emit at 1 in Hrun.
  set (query := claude.extractSearchQuery _ primary) in Hrun.
  destruct (negb (isEmpty query)).
  2:{ unfold ret in Hrun. repeat rewrite <- app_assoc in Hrun.
      apply run_eq in Hrun as [<- [<- _]]. now split. }
  unfold bind at 1 in Hrun.
  match type of Hrun with
  | context [search query ?stx ?hx] =>
      destruct (Hquiet query stx hx) as [found [logs [Hsearch Hlogs]]];
      rewrite Hsearch in Hrun
  end.
  unfold bind at 1 in Hrun. unfold emit at 1 in Hrun.
  destruct (logs_no_calls logs Hlogs) as [Hnocall Hnolookup].
  destruct found as [results|].
  2:{ unfold ret in Hrun. repeat rewrite <- app_assoc in Hrun.
      apply run_eq in Hrun as [<- [<- _]]. now split. }
  destruct (isEmpty (Error results)
            && (0 <? Z.of_nat (Datatypes.length (Results results)))) eqn:Husable.
  2:{ unfold ret in Hrun. repeat rewrite <- app_assoc in Hrun.
      apply run_eq in Hrun as [<- [<- _]]. now split. }
  unfold bind at 1 in Hrun. rewrite createEnhancedResponse_run in Hrun.
  match type of Hrun with
  | context [vertexSend ?hx ?ms] => destruct (vertexSend hx ms) as [text err]
  end.
  cbn [fst snd] in Hrun.
  destruct err as [e|].
  { cbn [andb] in Hrun. unfold bind, log, emit, ret in Hrun.
    repeat rewrite <- app_assoc in Hrun.
    apply run_eq in Hrun as [<- [<- _]]. now split. }
  destruct (isEmpty text) eqn:Hempty; cbn [negb andb] in Hrun.
  { unfold bind, log, emit, ret in Hrun. repeat rewrite <- app_assoc in Hrun.
    apply run_eq in Hrun as [<- [<- _]]. now split. }
  (* the second request succeeded: nothing failed in this turn *)
  exfalso. rewrite Hempty in Hrun. cbn [negb] in Hrun. unfold ret in Hrun.
  repeat rewrite <- app_assoc in Hrun. apply run_eq in Hrun as [_ [_ <-]].
  apply andb_true_iff in Husable as [Herr Hres].
  destruct Hfail as [[q [f [Hin Hbad]]] | [ms [t [e [Hnth Hbad]]]]].
  - cbn [app] in Hin.
    repeat (destruct Hin as [Heq | Hin]; [discriminate Heq |]).
    apply in_app_or in Hin as [Hin | Hin]; [now apply (Hnolookup q f) |].
    destruct Hin as [Heq | Hin].
    + injection Heq as _ <-. cbn [unusable] in Hbad.
      destruct Hbad as [Hbad | Hbad].
      * apply isEmpty_true in Herr. contradiction.
      * rewrite Hbad in Hres. discriminate Hres.
    + cbn in Hin. intuition discriminate.
  - cbn [app filter isVertexCall] in Hnth.
    rewrite filter_app, Hnocall in Hnth. cbn in Hnth.
    injection Hnth as _ <- <-. destruct Hbad as [Hbad | Hbad].
    + now apply Hbad.
    + rewrite Hbad in Hempty. discriminate Hempty.
Qed.

Lemma performSmartSearch_quiet {tables : CaseTables} {St : Type} query :
  quiet (claude.performSmartSearch (St := St) query).
Proof.
  intros st h. unfold claude.performSmartSearch, bind, log, emit, ret.
  do 2 eexists. rewrite <- app_assoc. split; reflexivity.
Qed.

(** C3.  Take a turn whose primary reply [primary] came back without
    error and not empty.  If, among the events of the turn, the lookup
    came back with nothing of use (nil, an error, or zero snippets), or
    the second request to the endpoint failed or came back empty, then
    the engine returns [primary] itself with a nil error.  This holds
    for any lookup that does nothing but log, and so for [SendMessage]
    as the program links it. *)
Theorem failed_augmentation_keeps_primary :
  forall (T : CaseTables) (W : World) (St : Type)
         (s : claude.SmartClient) (messages : list Message)
         (st st' : St) (h new : list Event) (primary : string)
         (out : Outcome (string * option error)),
    vertexSend h messages = (primary, None) ->
    primary <> "" ->
    augmentationFailed new ->
    (forall search : string -> M St (option SearchResults),
        (forall query, quiet (search query)) ->
        claude.sendMessageVia search s messages st h = (out, st', (h ++ new)%list) ->
        out = Returned (primary, None) /\ st' = st)
    /\ (claude.SendMessage s messages st h = (out, st', (h ++ new)%list) ->
        out = Returned (primary, None) /\ st' = st).
Proof.
  intros T W St s messages st st' h new primary out Hsend Hne Hfail. split.
  - intros search Hquiet Hrun.
    exact (sendMessageVia_failed search s messages st st' h new primary out
             Hquiet Hsend Hne Hrun Hfail).
  - intros Hrun.
    exact (sendMessageVia_failed claude.performSmartSearch s messages st st' h new
             primary out performSmartSearch_quiet Hsend Hne Hrun Hfail).
Qed.

Lemma failed_augmentation_keeps_primary_witness :
  fst (fst emptyLookupTurn) = Returned (longDisclaimer, None)
  /\ snd (fst emptyLookupTurn) = tt.
Proof.
  apply (proj1 (failed_augmentation_keeps_primary latin1Tables weatherWorld unit
                  (claude.NewSmartClient (sampleVertexConfig true)) askWeather
                  tt (snd (fst emptyLookupTurn)) [] (snd emptyLookupTurn) longDisclaimer
                  (fst (fst emptyLookupTurn))
                  ltac:(reflexivity) ltac:(discriminate)
                  ltac:(left;
                        exists "weather today Madrid",
                               (Some {| Results := []; Error := "" |});
                        split; [vm_compute; do 4 right; left; reflexivity
                               | right; reflexivity]))
               emptyLookup).
  - intros query st h. exists (Some {| Results := []; Error := "" |}), [].
    rewrite app_nil_r. split; reflexivity.
  - vm_compute. reflexivity.
Defined.

(** ** A capture that is not ok *)

Lemma processVoiceCommand_not_ok caps d v h v1 h1 :
  voice.recordAudio caps d v h = (Returned (false, None), v1, h1) ->
  voice.processVoiceCommand caps d v h
  = (Returned None, v1, (h1 ++ [Log LevelWarn "Recording was not successful"])%list).
Proof.
  intros Hrec. unfold voice.processVoiceCommand, bind. now rewrite Hrec.
Qed.

Lemma command_r {tables : CaseTables} :
  strings.TrimSpace (strings.ToLower "r") = "r".
Proof. reflexivity. Qed.

(** C4.  When the capture of the command [r] comes back with ok=false
    and a nil error, the handler logs a warning and returns nil: the
    state and the history are those that the capture left, plus the
    warning, whatever the transcription, inference and synthesis
    capabilities are, so none of them was called; and the loop goes on
    to its next input without logging a failure. *)
Theorem record_not_ok_skips_pipeline :
  forall (T : CaseTables) (caps : voice.Capabilities)
         (v v1 : voice.Interface) (h h1 : list Event) (rest : list voice.LoopInput),
    voice.recordAudio caps 7 v (h ++ [Readline (Line "r")])%list
      = (Returned (false, None), v1, h1) ->
    let warned := (h1 ++ [Log LevelWarn "Recording was not successful"])%list in
    voice.processVoiceCommand caps 7 v (h ++ [Readline (Line "r")])%list
      = (Returned None, v1, warned)
    /\ voice.runCommand caps "r" v (h ++ [Readline (Line "r")])%list
      = (Returned voice.Continue, v1, warned)
    /\ voice.runLoop caps (voice.Read (Line "r") :: rest) v h
      = voice.runLoop caps rest v1 warned.
Proof.
  intros T caps v v1 h h1 rest Hrec warned.
  pose proof (processVoiceCommand_not_ok _ _ _ _ _ _ Hrec) as Hp.
  assert (Hcmd : voice.runCommand caps "r" v (h ++ [Readline (Line "r")])%list
                 = (Returned voice.Continue, v1, warned)).
  { unfold voice.runCommand. cbn [String.eqb Ascii.eqb Bool.eqb].
    unfold voice.logged, bind. now rewrite Hp. }
  repeat split; try assumption.
  cbn [voice.runLoop]. unfold bind at 1. unfold emit.
  rewrite command_r. unfold bind at 1. now rewrite Hcmd.
Qed.

Lemma record_not_ok_skips_pipeline_witness :
  voice.runLoop (tables:=latin1Tables) silentCapture [voice.Read (Line "r")] sampleSession []
  = voice.runLoop (tables:=latin1Tables) silentCapture [] sampleSession
      [Readline (Line "r"); Log LevelWarn "Recording was not successful"].
Proof.
  apply (record_not_ok_skips_pipeline latin1Tables silentCapture
           sampleSession sampleSession [] [Readline (Line "r")] []).
  reflexivity.
Defined.

(** ** The layout of the snippets *)

Lemma formatResult_shown i r :
  claude.formatResult i r = snippetShown (i + 1, r).
Proof. reflexivity. Qed.

Lemma formatFrom_numbered i results :
  0 <= i <= 3 ->
  claude.formatFrom i results
  = map snippetShown (numbered (i + 1) (firstn (Z.to_nat (3 - i)) results)).
Proof.
  revert i. induction results as [|r rest IH]; intros i Hi.
  - now rewrite firstn_nil.
  - cbn [claude.formatFrom]. destruct (3 <=? i) eqn:H3.
    + apply Z.leb_le in H3. replace i with 3 by lia. reflexivity.
    + apply Z.leb_gt in H3.
      replace (Z.to_nat (3 - i)) with (S (Z.to_nat (3 - (i + 1)))) by lia.
      cbn [firstn numbered map]. rewrite formatResult_shown. f_equal.
      apply IH. lia.
Qed.

(** C5, as the code has it.  The second request carries the first
    three snippets at most, numbered from 1 and separated by a blank
    line, each laid out as ["<index>. <title> (<source>)\n   <body>"]
    where an empty title, source or body is shown as "No title",
    "Unknown source" or "No description"; with no snippet at all the
    text is "No current information found.". *)
Theorem formatSearchResults_layout :
  forall searchResults : SearchResults,
    claude.formatSearchResults searchResults
    = match Results searchResults with
      | [] => "No current information found."
      | _ => strings.Join
               (map snippetShown (numbered 1 (firstn 3 (Results searchResults))))
               (nl ++ nl)
      end
    /\ (List.length (claude.formatFrom 0 (Results searchResults)) <= 3)%nat
    /\ (forall r, In r (firstn 3 (Results searchResults)) ->
        Title r <> "" -> Source r <> "" -> Snippet r <> "" ->
        forall i, snippetShown (i, r) = snippetAsIs (i, r)).
Proof.
  intros [results e]. cbn [Results]. split; [| split].
  - unfold claude.formatSearchResults. cbn [Results].
    destruct results as [|r rest]; [reflexivity |].
    now rewrite formatFrom_numbered by lia.
  - rewrite formatFrom_numbered by lia. rewrite length_map.
    assert (Hn : forall (l : list SearchResult) i,
               List.length (numbered i l) = List.length l).
    { induction l as [|x l IH]; intros i; cbn; [reflexivity | now rewrite IH]. }
    rewrite Hn. apply firstn_le_length.
  - intros r _ Ht Hs Hb i. unfold snippetShown, snippetAsIs, claude.orDefault.
    cbn [fst snd].
    apply isEmpty_false in Ht, Hs, Hb. now rewrite Ht, Hs, Hb.
Qed.

(** The layout of the claim, with the fields as they are, is not what a
    snippet without a title gets. *)
Lemma formatSearchResults_empty_title :
  let untitled := {| Title := ""; Snippet := "Sunny, 21 degrees."; Source := "AEMET" |} in
  let found := {| Results := [untitled]; Error := "" |} in
  claude.formatSearchResults found
  = "1. No title (AEMET)" ++ nl ++ "   Sunny, 21 degrees."
  /\ claude.formatSearchResults found
     <> strings.Join (map snippetAsIs (numbered 1 (firstn 3 (Results found)))) (nl ++ nl).
Proof.
  split; [reflexivity |]. vm_compute. discriminate.
Qed.

Lemma formatSearchResults_layout_witness :
  snippetShown (1, claude.oneResult "Madrid Weather Now" "Partly cloudy." "AEMET")
  = snippetAsIs (1, claude.oneResult "Madrid Weather Now" "Partly cloudy." "AEMET").
Proof.
  apply (proj2 (proj2 (formatSearchResults_layout
           {| Results := [claude.oneResult "Madrid Weather Now" "Partly cloudy." "AEMET"];
              Error := "" |}))).
  - left. reflexivity.
  - discriminate.
  - discriminate.
  - discriminate.
Defined.

(** ** Timestamp lines *)

Lemma allBytes_append p a b :
  allBytes p (a ++ b) = allBytes p a && allBytes p b.
Proof.
  induction a as [|c a IH]; [reflexivity |]. cbn. now rewrite IH, andb_assoc.
Qed.




Lemma allBytes_impl (p q : ascii -> bool) s :
  (forall c, p c = true -> q c = true) -> allBytes p s = true -> allBytes q s = true.
Proof.
  intros Hpq. induction s as [|c s IH]; [reflexivity |]. cbn.
  intros Hs. apply andb_true_iff in Hs as [Hc Hs]. now rewrite (Hpq c Hc), IH.
Qed.





Lemma revString_acc acc s : revString acc s = revString "" s ++ acc.
Proof.
  revert acc. induction s as [|c s IH]; intros acc; [reflexivity |].
  cbn [revString]. rewrite (IH (String c acc)), (IH (String c "")).
  now rewrite append_assoc.
Qed.

Lemma revString_append a b :
  revString "" (a ++ b) = revString "" b ++ revString "" a.
Proof.
  induction a as [|c a IH]; cbn [append revString].
  - now rewrite append_empty_r.
  - rewrite (revString_acc (String c "") (a ++ b)), IH.
    rewrite (revString_acc (String c "") a). now rewrite append_assoc.
Qed.

Lemma revString_involutive s : revString "" (revString "" s) = s.
Proof.
  induction s as [|c s IH]; [reflexivity |].
  cbn [revString]. rewrite (revString_acc (String c "") s), revString_append, IH.
  reflexivity.
Qed.








(** ** Text with nothing to speak *)









(** ** Lines of white space *)

Lemma IsSpace_facts r :
  unicode.IsSpace r = true ->
  r <> utf8.RuneError /\ ~ (0x41 <= r <= 0x5A)
  /\ (r < 0x80 -> r = 0x09 \/ r = 0x0A \/ r = 0x0B \/ r = 0x0C \/ r = 0x0D \/ r = 0x20).
Proof.
  unfold unicode.IsSpace, unicode.MaxLatin1, utf8.RuneError.
  destruct ((0 <=? r) && (r <=? 255)) eqn:Hlatin; intros Hs; boolprops;
    repeat split; try lia.
  all: try (apply andb_false_iff in Hlatin as [Hl | Hl]; boolprops; lia).
Qed.

Lemma asciiSpace_of_IsSpace c :
  byteZ c < 0x80 -> unicode.IsSpace (byteZ c) = true -> strings.asciiSpace c = true.
Proof.
  intros Hc Hs. apply IsSpace_facts in Hs as [_ [_ Hs]]. specialize (Hs Hc).
  unfold strings.asciiSpace.
  repeat rewrite orb_true_iff. repeat rewrite Z.eqb_eq. tauto.
Qed.

Lemma onlyRunes_ascii_cons p c t :
  byteZ c < 0x80 ->
  onlyRunes p (String c t) = p (byteZ c) && onlyRunes p t.
Proof.
  intros Hc. unfold onlyRunes. now rewrite runes_ascii_cons.
Qed.

(** The first loop of [TrimSpace] eats a line of white space whole, or
    stops at a byte outside ASCII with white space only ahead. *)
Lemma trimSpaceStart_spaces line :
  onlyRunes unicode.IsSpace line = true ->
  strings.trimSpaceStart line = ("", false)
  \/ exists s1, strings.trimSpaceStart line = (s1, true)
                /\ onlyRunes unicode.IsSpace s1 = true.
Proof.
  induction line as [|c t IH]; intros Hall; [now left |].
  cbn [strings.trimSpaceStart]. unfold utf8.RuneSelf.
  destruct (128 <=? byteZ c) eqn:Hc.
  - right. eauto.
  - apply Z.leb_gt in Hc. rewrite onlyRunes_ascii_cons in Hall by assumption.
    apply andb_true_iff in Hall as [Hs Ht].
    rewrite (asciiSpace_of_IsSpace c Hc Hs). now apply IH.
Qed.

Lemma trimLeftFuncFuel_all f fuel s :
  forallb (fun rb : Z * string => f (fst rb)) (utf8.runesFuel fuel s) = true ->
  strings.trimLeftFuncFuel fuel f s = "".
Proof.
  revert s. induction fuel as [|fuel IH]; intros s Hall; [reflexivity |].
  destruct s as [|c t]; [reflexivity |].
  cbn [strings.trimLeftFuncFuel utf8.runesFuel] in *.
  destruct (utf8.DecodeRuneInString (String c t)) as [r w].
  cbn [forallb fst] in Hall. apply andb_true_iff in Hall as [-> Hrest].
  now apply IH.
Qed.

Lemma TrimSpace_spaces line :
  onlyRunes unicode.IsSpace line = true -> strings.TrimSpace line = "".
Proof.
  intros Hall. unfold strings.TrimSpace.
  destruct (trimSpaceStart_spaces line Hall) as [-> | [s1 [-> Hs1]]];
    [reflexivity |].
  unfold strings.TrimFunc, strings.TrimLeftFunc.
  now rewrite (trimLeftFuncFuel_all _ _ _ Hs1).
Qed.

Lemma lowerByte_space c :
  byteZ c < 0x80 -> unicode.IsSpace (byteZ c) = true -> strings.lowerByte c = c.
Proof.
  intros Hc Hs. apply IsSpace_facts in Hs as [_ [Hup _]].
  unfold strings.lowerByte.
  destruct ((65 <=? byteZ c) && (byteZ c <=? 90)) eqn:Hu; [| reflexivity].
  boolprops. lia.
Qed.

Lemma mapBytes_lower_spaces line :
  strings.isASCII line = true ->
  onlyRunes unicode.IsSpace line = true ->
  mapBytes strings.lowerByte line = line.
Proof.
  induction line as [|c t IH]; intros Ha Hall; [reflexivity |].
  cbn [strings.isASCII allBytes] in Ha. apply andb_true_iff in Ha as [Hc Ht].
  unfold strings.isASCIIByte, utf8.RuneSelf in Hc. apply Z.ltb_lt in Hc.
  rewrite onlyRunes_ascii_cons in Hall by assumption.
  apply andb_true_iff in Hall as [Hs Hall].
  cbn [mapBytes]. rewrite (lowerByte_space c Hc Hs). f_equal. now apply IH.
Qed.

Lemma ToLower_spaces {tables : CaseTables} line :
  (forall r, unicode.IsSpace r = true -> toLowerCase r = r) ->
  onlyRunes unicode.IsSpace line = true ->
  strings.ToLower line = line.
Proof.
  intros Htab Hall. unfold strings.ToLower.
  destruct (strings.isASCII line) eqn:Ha; [now apply mapBytes_lower_spaces |].
  unfold strings.Map. rewrite <- (runes_concat line) at 2. f_equal.
  unfold onlyRunes in Hall.
  induction (utf8.runes line) as [|[r bytes] l IH]; [reflexivity |].
  cbn [forallb fst] in Hall. apply andb_true_iff in Hall as [Hs Hl].
  cbn [map snd]. rewrite IH by assumption. f_equal.
  unfold strings.mapRune.
  assert (Hlow : unicode.ToLower r = r).
  { unfold unicode.ToLower, unicode.MaxASCII.
    pose proof (IsSpace_facts r Hs) as [_ [Hup _]].
    destruct (r <=? 127); [| now apply Htab].
    destruct ((65 <=? r) && (r <=? 90)) eqn:Hu; [| reflexivity].
    boolprops. lia. }
  rewrite Hlow, Z.eqb_refl.
  pose proof (IsSpace_facts r Hs) as [Hne _].
  apply Z.eqb_neq in Hne. now rewrite Hne.
Qed.

(** C8.  A line of white space only (every rune is one that
    [unicode.IsSpace] accepts) is normalized to the empty command: the
    loop records the read, dispatches to no handler, logs nothing,
    leaves the session as it was, and goes on to its next input.  The
    case tables are those of Unicode, in which white space has no lower
    case of its own. *)
Theorem whitespace_line_is_ignored :
  forall (T : CaseTables) (caps : voice.Capabilities) (line : string)
         (rest : list voice.LoopInput) (v : voice.Interface) (h : list Event),
    (forall r, unicode.IsSpace r = true -> toLowerCase r = r) ->
    onlyRunes unicode.IsSpace line = true ->
    strings.TrimSpace (strings.ToLower line) = ""
    /\ (forall h', voice.runCommand caps "" v h' = (Returned voice.Continue, v, h'))
    /\ voice.runLoop caps (voice.Read (Line line) :: rest) v h
       = voice.runLoop caps rest v (h ++ [Readline (Line line)])%list.
Proof.
  intros T caps line rest v h Htab Hall.
  assert (Hcmd : strings.TrimSpace (strings.ToLower line) = "").
  { rewrite (ToLower_spaces line Htab Hall). now apply TrimSpace_spaces. }
  repeat split; [assumption |].
  cbn [voice.runLoop]. unfold bind at 1. unfold emit.
  rewrite Hcmd. reflexivity.
Qed.

Lemma latin1Tables_spaces :
  forall r, unicode.IsSpace r = true -> toLowerCase (CaseTables := latin1Tables) r = r.
Proof.
  intros r Hs. cbn [toLowerCase latin1Tables].
  destruct ((192 <=? r) && (r <=? 222) && negb (r =? 215)) eqn:Hr; [| reflexivity].
  unfold unicode.IsSpace, unicode.MaxLatin1 in Hs.
  destruct ((0 <=? r) && (r <=? 255)) eqn:Hlatin; boolprops; lia.
Qed.

Lemma whitespace_line_is_ignored_witness :
  voice.runLoop (tables := latin1Tables) silentCapture
    [voice.Read (Line blankLine)] sampleSession []
  = voice.runLoop (tables := latin1Tables) silentCapture [] sampleSession
      ([] ++ [Readline (Line blankLine)])%list.
Proof.
  apply (whitespace_line_is_ignored latin1Tables silentCapture
           blankLine [] sampleSession []).
  - exact latin1Tables_spaces.
  - vm_compute. reflexivity.
Defined.

(** ** The query is never empty *)

Lemma firstLocation_query {tables : CaseTables} l u :
  match claude.firstLocation l u with
  | Some location => "weather today " ++ location
  | None => "weather today"
  end <> "".
Proof. destruct (claude.firstLocation l u); discriminate. Qed.

(** C9.  For every user message and every reply, [extractSearchQuery]
    returns a non-empty string: each category returns a literal or a
    literal followed by text, and the generic query starts with
    "current information ".  The guard [searchQuery != ""] of
    [SendMessage], which is [negb (isEmpty searchQuery)] here, therefore
    holds whenever it is evaluated. *)
Theorem extractSearchQuery_nonempty :
  forall (T : CaseTables) (userMessage claudeResponse : string),
    claude.extractSearchQuery userMessage claudeResponse <> ""
    /\ negb (isEmpty (claude.extractSearchQuery userMessage claudeResponse)) = true.
Proof.
  intros T userMessage claudeResponse.
  assert (Hne : claude.extractSearchQuery userMessage claudeResponse <> "").
  { unfold claude.extractSearchQuery.
    repeat match goal with
           | |- (if ?c then _ else _) <> _ => destruct c
           end;
      try discriminate.
    apply firstLocation_query. }
  split; [exact Hne |].
  apply isEmpty_false in Hne. now rewrite Hne.
Qed.

(** ** The speech toggle *)

Lemma setEnabled_twice b c :
  voice.setEnabled b (voice.setEnabled (negb b) c) = voice.setEnabled b c.
Proof. reflexivity. Qed.

Lemma setEnabled_same c : voice.setEnabled (Enabled (TTS c)) c = c.
Proof. destruct c as [va vo [e r vol vid]]. reflexivity. Qed.

(** C10.  The handler of the command [s] negates the TTS-enabled flag,
    logs, and lets the loop continue; it leaves every other field of the
    configuration and every adapter as it was, and run twice it gives
    the session back. *)
Theorem toggle_speech_involution :
  forall (caps : voice.Capabilities) (v : voice.Interface) (h : list Event),
    let step := fun v h => voice.runCommand caps "s" v h in
    step v h = (Returned voice.Continue, toggled v,
                (h ++ [Log LevelInfo "🔊 TTS toggled"])%list)
    /\ Enabled (TTS (voice.config (toggled v)))
       = negb (Enabled (TTS (voice.config v)))
    /\ VertexAI (voice.config (toggled v)) = VertexAI (voice.config v)
    /\ Voice (voice.config (toggled v)) = Voice (voice.config v)
    /\ Rate (TTS (voice.config (toggled v))) = Rate (TTS (voice.config v))
    /\ Volume (TTS (voice.config (toggled v))) = Volume (TTS (voice.config v))
    /\ VoiceID (TTS (voice.config (toggled v))) = VoiceID (TTS (voice.config v))
    /\ voice.claudeClient (toggled v) = voice.claudeClient v
    /\ voice.recorder (toggled v) = voice.recorder v
    /\ voice.transcriber (toggled v) = voice.transcriber v
    /\ voice.tts (toggled v) = voice.tts v
    /\ (let '(_, v1, h1) := step v h in
        let '(_, v2, _) := step v1 h1 in v2 = v).
Proof.
  intros caps v h step.
  assert (Hstep : forall v h, step v h =
            (Returned voice.Continue, toggled v,
             (h ++ [Log LevelInfo "🔊 TTS toggled"])%list)) by reflexivity.
  repeat split; try reflexivity.
  rewrite !Hstep. unfold toggled.
  destruct v as [[va vo [e r vol vid]] cl rec tr t]. cbn.
  now rewrite negb_involutive.
Qed.

(* ================================================================== *)
(** * Further properties *)

(** ** The turn of the engine *)

Lemma extractSearchQuery_some {tables : CaseTables} userMessage claudeResponse :
  isEmpty (claude.extractSearchQuery userMessage claudeResponse) = false.
Proof.
  apply isEmpty_false. unfold claude.extractSearchQuery.
  repeat match goal with
         | |- (if ?c then _ else _) <> _ => destruct c
         end;
    try discriminate.
  apply firstLocation_query.
Qed.

Lemma simulateRealisticSearch_found {tables : CaseTables} query :
  Error (claude.simulateRealisticSearch query) = ""
  /\ (1 <= List.length (Results (claude.simulateRealisticSearch query)) <= 2)%nat
  /\ Forall complete (Results (claude.simulateRealisticSearch query)).
Proof.
  unfold claude.simulateRealisticSearch.
  repeat match goal with
         | |- context [if strings.Contains ?a ?b then _ else _] =>
             destruct (strings.Contains a b)
         end;
    cbv zeta;
    repeat split; cbn; try lia;
    repeat constructor; try discriminate.
Qed.

(** X1.  The simulated lookup always finds something: no error, one or two
    snippets, each with a title, a body and a source. *)
Theorem simulateRealisticSearch_usable :
  forall (T : CaseTables) (query : string),
    let found := claude.simulateRealisticSearch query in
    Error found = ""
    /\ (1 <= List.length (Results found) <= 2)%nat
    /\ Forall complete (Results found).
Proof.
  intros T query found. subst found.
  apply simulateRealisticSearch_found.
Qed.

Lemma lookup_passes {tables : CaseTables} query :
  isEmpty (Error (claude.simulateRealisticSearch query))
  && (0 <? Z.of_nat (List.length (Results (claude.simulateRealisticSearch query)))) = true.
Proof.
  destruct (simulateRealisticSearch_found query) as [He [Hn _]].
  rewrite He. cbn [isEmpty andb]. apply Z.ltb_lt. lia.
Qed.

Lemma SendMessage_turn {tables : CaseTables} {world : World} {St : Type}
    (s : claude.SmartClient) (messages : list Message) (st : St) (h : list Event) :
  claude.SendMessage s messages st h = turnOf s messages st h.
Proof.
  unfold turnOf, claude.SendMessage, claude.sendMessageVia.
  unfold bind at 1. unfold claude.vertexSendMessage at 1.
  unfold bind at 1. unfold history at 1. unfold bind at 1. unfold emit at 1.
  unfold ret at 1.
  destruct (vertexSend h messages) as [primary [e|]]; cbn [fst snd]; [reflexivity |].
  destruct (isEmpty primary); [reflexivity |].
  destruct (claude.autoSearchEnabled s && claude.needsWebSearch s primary messages);
    [| reflexivity].
  unfold bind at 1. unfold log at 1, emit at 1.
  unfold bind at 1. unfold sliceTo.
  destruct (String.length primary <? 100)%nat; [reflexivity |].
  unfold ret at 1.
  unfold bind at 1. unfold log at 1, emit at 1.
  unfold bind at 1. unfold log at 1, emit at 1.
  rewrite extractSearchQuery_some. cbn [negb].
  unfold bind at 1. unfold claude.performSmartSearch.
  unfold bind at 1. unfold log at 1, emit at 1.
  unfold bind at 1. unfold log at 1, emit at 1. unfold ret at 1.
  unfold bind at 1. unfold emit at 1.
  rewrite lookup_passes.
  unfold bind at 1. rewrite createEnhancedResponse_run.
  repeat rewrite <- app_assoc. cbn [app].
  match goal with
  | |- context [vertexSend ?hx ?ms] => destruct (vertexSend hx ms) as [text err]
  end.
  cbn [fst snd].
  destruct err as [e|]; [| destruct (isEmpty text) eqn:Hempty];
    cbn [negb andb]; unfold bind, log, emit, ret;
    rewrite ?Hempty; cbn [negb andb];
    repeat rewrite <- app_assoc; reflexivity.
Qed.

(** X2.  A turn sends one or two requests to the endpoint and looks up at
    most once; a second request is always preceded by a lookup.  The
    state of the caller is left alone. *)
Theorem SendMessage_at_most_one_round_trip :
  forall (T : CaseTables) (W : World) (St : Type) (s : claude.SmartClient)
         (messages : list Message) (st : St) (h : list Event),
    exists out new,
      claude.SendMessage s messages st h = (out, st, (h ++ new)%list)
      /\ (1 <= countVertexCalls new <= 2)%nat
      /\ (List.length (filter isLookup new) <= 1)%nat
      /\ (countVertexCalls new = 2%nat -> List.length (filter isLookup new) = 1%nat).
Proof.
  intros T W St s messages st h. rewrite SendMessage_turn. unfold turnOf.
  destruct (vertexSend h messages) as [primary [e|]].
  { do 2 eexists. split; [reflexivity |]. cbn. repeat split; lia. }
  destruct (isEmpty primary).
  { do 2 eexists. split; [reflexivity |]. cbn. repeat split; lia. }
  destruct (claude.autoSearchEnabled s && claude.needsWebSearch s primary messages).
  2:{ do 2 eexists. split; [reflexivity |]. cbn. repeat split; lia. }
  destruct (String.length primary <? 100)%nat.
  { rewrite <- app_assoc. do 2 eexists. split; [reflexivity |]. cbn. repeat split; lia. }
  cbv zeta.
  match goal with
  | |- context [vertexSend ?hx ?ms] => destruct (vertexSend hx ms) as [text [e|]]
  end; [| destruct (isEmpty text)];
    repeat rewrite <- app_assoc; cbn [app];
    do 2 eexists; (split; [reflexivity |]); cbn; repeat split; lia.
Qed.

(** X3.  When [SendMessage] returns a nil error its text is not empty,
    and it returns an error only when the first request failed or came
    back empty, in which case the text is empty: nothing that goes wrong
    after the primary reply is reported to the caller. *)
Theorem SendMessage_error_only_from_primary :
  forall (T : CaseTables) (W : World) (St : Type) (s : claude.SmartClient)
         (messages : list Message) (st st' : St) (h h' : list Event)
         (text : string) (err : option error),
    claude.SendMessage s messages st h = (Returned (text, err), st', h') ->
    match err with
    | None => text <> ""
    | Some e =>
        text = ""
        /\ ((exists e0, snd (vertexSend h messages) = Some e0
                        /\ e = "failed to get initial response: " ++ e0)
            \/ (vertexSend h messages = ("", None)
                /\ e = "empty response from Claude"))
    end.
Proof.
  intros T W St s messages st st' h h' text err. rewrite SendMessage_turn.
  unfold turnOf.
  destruct (vertexSend h messages) as [primary [e|]].
  { intros Heq. injection Heq as <- <- _ _. split; [reflexivity |]. left.
    exists e. split; reflexivity. }
  destruct (isEmpty primary) eqn:Hp.
  { intros Heq. injection Heq as <- <- _ _. split; [reflexivity |]. right.
    apply isEmpty_true in Hp. now subst primary. }
  apply isEmpty_false in Hp.
  destruct (claude.autoSearchEnabled s && claude.needsWebSearch s primary messages).
  2:{ intros Heq. injection Heq as <- <- _ _. exact Hp. }
  destruct (String.length primary <? 100)%nat; [discriminate |].
  cbv zeta.
  match goal with
  | |- context [vertexSend ?hx ?ms] => destruct (vertexSend hx ms) as [text2 [e|]]
  end; [| destruct (isEmpty text2) eqn:Ht];
    intros Heq; injection Heq as <- <- _ _; try exact Hp.
  now apply isEmpty_false.
Qed.

Lemma SendMessage_error_only_from_primary_witness :
  "Unos 8 grados y algo nublado." <> "".
Proof.
  apply (SendMessage_error_only_from_primary latin1Tables weatherWorld unit
           (claude.NewSmartClient (sampleVertexConfig true)) askWeather tt
           (snd (fst (claude.SendMessage (tables := latin1Tables) (world := weatherWorld)
                        (claude.NewSmartClient (sampleVertexConfig true)) askWeather tt [])))
           []
           (snd (claude.SendMessage (tables := latin1Tables) (world := weatherWorld)
                   (claude.NewSmartClient (sampleVertexConfig true)) askWeather tt []))
           "Unos 8 grados y algo nublado." None).
  vm_compute. reflexivity.
Defined.

(** X4.  With automatic search off, a turn is the one request: no lookup,
    no second request, and a reply that is not empty is returned as it
    is, whatever it says and whatever was asked. *)
Theorem SendMessage_without_auto_search :
  forall (T : CaseTables) (W : World) (St : Type) (s : claude.SmartClient)
         (messages : list Message) (st : St) (h : list Event),
    claude.autoSearchEnabled s = false ->
    exists out,
      claude.SendMessage s messages st h
      = (out, st,
         (h ++ [VertexCall messages (fst (vertexSend h messages))
                  (snd (vertexSend h messages))])%list)
      /\ (snd (vertexSend h messages) = None ->
          fst (vertexSend h messages) <> "" ->
          out = Returned (fst (vertexSend h messages), None)).
Proof.
  intros T W St s messages st h Hoff. rewrite SendMessage_turn. unfold turnOf.
  rewrite Hoff. cbn [andb].
  destruct (vertexSend h messages) as [primary [e|]]; cbn [fst snd].
  { eexists. split; [reflexivity |]. discriminate. }
  destruct (isEmpty primary) eqn:Hp.
  { eexists. split; [reflexivity |]. intros _ Hne. apply isEmpty_true in Hp. contradiction. }
  eexists. split; reflexivity.
Qed.

Lemma SendMessage_without_auto_search_witness :
  exists out,
    claude.SendMessage (tables := latin1Tables) (world := weatherWorld)
      (claude.NewSmartClient (sampleVertexConfig false)) askWeather tt []
    = (out, tt,
       ([] ++ [VertexCall askWeather
                 (fst (vertexSend (World := weatherWorld) [] askWeather))
                 (snd (vertexSend (World := weatherWorld) [] askWeather))])%list)
    /\ (snd (vertexSend (World := weatherWorld) [] askWeather) = None ->
        fst (vertexSend (World := weatherWorld) [] askWeather) <> "" ->
        out = Returned (fst (vertexSend (World := weatherWorld) [] askWeather), None)).
Proof.
  apply (SendMessage_without_auto_search latin1Tables weatherWorld unit
           (claude.NewSmartClient (sampleVertexConfig false)) askWeather tt []).
  reflexivity.
Defined.

(** X5.  [SendMessage] panics exactly when the primary reply came back
    without error, is not empty, warrants augmentation with automatic
    search on, and is shorter than 100 bytes: the debug line slices its
    first 100 bytes. *)
Theorem SendMessage_panics_on_short_reply :
  forall (T : CaseTables) (W : World) (St : Type) (s : claude.SmartClient)
         (messages : list Message) (st : St) (h : list Event),
    (exists msg, fst (fst (claude.SendMessage s messages st h)) = Panicked msg)
    <-> (exists primary,
            vertexSend h messages = (primary, None)
            /\ primary <> ""
            /\ claude.autoSearchEnabled s = true
            /\ claude.needsWebSearch s primary messages = true
            /\ (String.length primary < 100)%nat).
Proof.
  intros T W St s messages st h. rewrite SendMessage_turn. unfold turnOf.
  destruct (vertexSend h messages) as [primary [e|]].
  { split; [intros [msg Hm]; discriminate | intros [p [Hp _]]; discriminate]. }
  destruct (isEmpty primary) eqn:Hp.
  { split; [intros [msg Hm]; discriminate |].
    intros [p [Heq [Hne _]]]. injection Heq as <-.
    apply isEmpty_true in Hp. contradiction. }
  destruct (claude.autoSearchEnabled s && claude.needsWebSearch s primary messages)
    eqn:Hneed.
  2:{ split; [intros [msg Hm]; discriminate |].
      intros [p [Heq [_ [Ha [Hn _]]]]]. injection Heq as <-.
      rewrite Ha, Hn in Hneed. discriminate. }
  apply andb_true_iff in Hneed as [Ha Hn].
  destruct (String.length primary <? 100)%nat eqn:Hlen.
  - apply Nat.ltb_lt in Hlen. split; [intros _ | intros _; eexists; reflexivity].
    exists primary. apply isEmpty_false in Hp. auto.
  - apply Nat.ltb_ge in Hlen. split.
    + intros [msg Hm]. cbv zeta in Hm.
      match type of Hm with
      | context [vertexSend ?hx ?ms] => destruct (vertexSend hx ms) as [text [e|]]
      end; [| destruct (isEmpty text)]; discriminate.
    + intros [p [Heq [_ [_ [_ Hlt]]]]]. injection Heq as <-. lia.
Qed.

Lemma complete_shown_as_is l i :
  Forall complete l ->
  map snippetShown (numbered i l) = map snippetAsIs (numbered i l).
Proof.
  revert i. induction l as [|x l IH]; intros i Hall; [reflexivity |].
  inversion Hall as [|? ? [Ht [Hb Hs]] Hl]; subst.
  cbn [numbered map]. rewrite IH by assumption. f_equal.
  unfold snippetShown, snippetAsIs, claude.orDefault. cbn [fst snd].
  apply isEmpty_false in Ht. apply isEmpty_false in Hb. apply isEmpty_false in Hs.
  rewrite Ht, Hb, Hs. reflexivity.
Qed.

(** X6.  What the simulated lookup finds goes whole into the second
    request: every snippet, with its own title, source and body, and
    no placeholder. *)
Theorem lookup_is_sent_whole :
  forall (T : CaseTables) (query : string),
    claude.formatSearchResults (claude.simulateRealisticSearch query)
    = strings.Join
        (map snippetAsIs (numbered 1 (Results (claude.simulateRealisticSearch query))))
        (nl ++ nl).
Proof.
  intros T query.
  destruct (simulateRealisticSearch_found query) as [_ [Hlen Hall]].
  unfold claude.formatSearchResults.
  destruct (Results (claude.simulateRealisticSearch query)) as [|r rest] eqn:Hres;
    [cbn in Hlen; lia |].
  rewrite formatFrom_numbered by lia.
  replace (firstn (Z.to_nat (3 - 0)) (r :: rest)) with (r :: rest).
  2:{ symmetry. apply firstn_all2. cbn in *. lia. }
  f_equal. now apply complete_shown_as_is.
Qed.

(** ** Triggers in any case *)

Lemma sameFold_lang pattern m :
  sameFold pattern m = true ->
  lang (regexp.literal regexp.foldEq (map fst (asciiRunes pattern)))
       (map fst (asciiRunes m)).
Proof.
  revert m. induction pattern as [|p pattern IH]; intros [|c m] Hsame;
    try discriminate; [constructor |].
  cbn in Hsame. apply andb_true_iff in Hsame as [Hpc Hrest].
  cbn [asciiRunes map fst regexp.literal].
  change (byteZ c :: map fst (asciiRunes m))
    with ([byteZ c] ++ map fst (asciiRunes m))%list.
  apply lang_cat; [apply lang_sym; exact Hpc | apply IH; exact Hrest].
Qed.

Lemma sameFold_ascii pattern m :
  strings.isASCII pattern = true -> sameFold pattern m = true ->
  strings.isASCII m = true.
Proof.
  revert m. induction pattern as [|p pattern IH]; intros [|c m] Hp Hsame;
    try discriminate; [reflexivity |].
  cbn in Hp, Hsame. apply andb_true_iff in Hp as [Hp0 Hp].
  apply andb_true_iff in Hsame as [Hpc Hrest].
  cbn [strings.isASCII allBytes]. fold (strings.isASCII m).
  rewrite (IH m Hp Hrest), andb_true_r.
  unfold strings.isASCIIByte, utf8.RuneSelf in *. apply Z.ltb_lt in Hp0.
  pose proof (byteZ_range c) as Hc. apply Z.ltb_lt.
  unfold regexp.foldEq, regexp.isUpperASCII, regexp.isLowerASCII in Hpc.
  boolprops; lia.
Qed.

Lemma MatchString_fold pattern reply a m b :
  strings.isASCII pattern = true ->
  pattern <> "" ->
  sameFold pattern m = true ->
  reply = a ++ m ++ b ->
  regexp.MatchString (regexp.compileFoldLiteral pattern) reply = true.
Proof.
  intros Hascii Hne Hsame ->.
  pose proof (sameFold_ascii pattern m Hascii Hsame) as Hm.
  unfold regexp.MatchString, utf8.runeValues.
  assert (Hrunes : utf8.runes (a ++ m ++ b)
                   = (utf8.runes a ++ asciiRunes m ++ utf8.runes b)%list).
  { destruct m as [|c t]; [destruct pattern; [congruence | discriminate] |].
    pose proof Hm as Hc. cbn in Hc. apply andb_true_iff in Hc as [Hc _].
    unfold strings.isASCIIByte, utf8.RuneSelf in Hc. apply Z.ltb_lt in Hc.
    change (String c t ++ b) with (String c (t ++ b)).
    rewrite runes_app_ascii by assumption.
    change (String c (t ++ b)) with (String c t ++ b).
    now rewrite runes_ascii_prefix. }
  rewrite Hrunes, !map_app. apply matches_spec.
  unfold regexp.framed, regexp.compileFoldLiteral.
  cbn [regexp.atStart regexp.atEnd regexp.body].
  rewrite app_assoc.
  constructor; [constructor |]; try apply lang_any_star.
  unfold utf8.runeValues. rewrite runes_ascii by assumption.
  now apply sameFold_lang.
Qed.

(** X7.  A reply that holds one of the thirteen trigger phrases, its
    ASCII letters in any case, warrants augmentation, whatever was
    asked and whatever bytes stand around the phrase. *)
Theorem trigger_phrase_in_any_case :
  forall (T : CaseTables) (cfg : VertexAIConfig) (messages : list Message)
         (phrase reply a m b : string),
    In phrase claude.triggerPatterns ->
    sameFold phrase m = true ->
    reply = a ++ m ++ b ->
    claude.needsWebSearch (claude.NewSmartClient cfg) reply messages = true.
Proof.
  intros T cfg messages phrase reply a m b Hin Hsame Hreply.
  unfold claude.needsWebSearch.
  replace (existsb (fun trigger => regexp.MatchString trigger reply)
             (claude.searchTriggers (claude.NewSmartClient cfg))) with true;
    [reflexivity |].
  symmetry. apply existsb_exists.
  exists (regexp.compileFoldLiteral phrase). split.
  - cbn [claude.NewSmartClient claude.searchTriggers]. now apply in_map.
  - apply (MatchString_fold phrase reply a m b); try assumption.
    + assert (Hall : forallb strings.isASCII claude.triggerPatterns = true)
        by reflexivity.
      rewrite forallb_forall in Hall. now apply Hall.
    + intros ->. cbn in Hin. intuition discriminate.
Qed.

Lemma trigger_phrase_in_any_case_witness :
  claude.needsWebSearch (tables := latin1Tables)
    (claude.NewSmartClient (sampleVertexConfig true))
    ("Sorry: " ++ "i DON'T have Internet ACCESS" ++ ", ¿vale?") [] = true.
Proof.
  apply (trigger_phrase_in_any_case latin1Tables (sampleVertexConfig true) []
           "I don't have internet access"
           ("Sorry: " ++ "i DON'T have Internet ACCESS" ++ ", ¿vale?")
           "Sorry: " "i DON'T have Internet ACCESS" ", ¿vale?").
  - cbn. tauto.
  - reflexivity.
  - reflexivity.
Defined.

(** ** The loop and its handlers *)







(** X10.  While speech is off, or no synthesizer is set, handling a
    recording never calls the synthesizer: the handler runs as it would
    with a synthesizer that panics when called.  The transcriber and the
    client are taken to leave the session as it is, as those of the
    program do. *)
Theorem processAudio_silent_when_off :
  forall (caps : voice.Capabilities) (v : voice.Interface) (h : list Event),
    voice.ttsUsable v = false ->
    (forall path language, keepsSession (voice.transcribe caps path language)) ->
    (forall messages, keepsSession (voice.sendMessage caps messages)) ->
    voice.processAudio caps v h = voice.processAudio (mute caps) v h.
Proof.
  intros caps v h Hoff Htr Hsend. unfold voice.processAudio.
  unfold bind at 1. unfold get at 1. symmetry.
  unfold bind at 1. unfold get at 1. symmetry.
  destruct (isEmpty (voice.AudioFilePath (voice.recorder v))); [reflexivity |].
  unfold bind at 1. unfold log at 1, emit at 1. symmetry.
  unfold bind at 1. unfold log at 1, emit at 1. symmetry.
  unfold bind at 1. unfold log at 1, emit at 1. symmetry.
  unfold bind at 1. unfold log at 1, emit at 1. symmetry.
  unfold bind at 1. symmetry. unfold bind at 1. symmetry.
  cbn [mute voice.transcribe].
  match goal with
  | |- context [voice.transcribe caps ?p ?l v ?hh] =>
      pose proof (Htr p l v hh) as Hv1;
      destruct (voice.transcribe caps p l v hh) as [[[[t [e0|]]|msg] v1] h1]
  end; try reflexivity.
  cbn [fst snd] in Hv1. subst v1.
  destruct (isEmpty (strings.TrimSpace t)); [reflexivity |].
  unfold bind at 1. unfold log at 1, emit at 1. symmetry.
  unfold bind at 1. unfold log at 1, emit at 1. symmetry.
  unfold bind at 1. unfold log at 1, emit at 1. symmetry.
  unfold bind at 1. unfold log at 1, emit at 1. symmetry.
  unfold bind at 1. symmetry. unfold bind at 1. symmetry.
  cbn [mute voice.sendMessage].
  match goal with
  | |- context [voice.sendMessage caps ?ms v ?hh] =>
      pose proof (Hsend ms v hh) as Hv2;
      destruct (voice.sendMessage caps ms v hh) as [[[[r [e0|]]|msg] v2] h2]
  end; try reflexivity.
  cbn [fst snd] in Hv2. subst v2.
  destruct (isEmpty r); [reflexivity |].
  unfold bind at 1. unfold log at 1, emit at 1. symmetry.
  unfold bind at 1. unfold log at 1, emit at 1. symmetry.
  unfold bind at 1. unfold get at 1. symmetry.
  unfold bind at 1. unfold get at 1. symmetry.
  rewrite Hoff. reflexivity.
Qed.

Lemma processAudio_silent_when_off_witness :
  voice.processAudio (cannedAnswers "hola" "¡Hola!") (recordedSession false) []
  = voice.processAudio (mute (cannedAnswers "hola" "¡Hola!")) (recordedSession false) [].
Proof.
  apply (processAudio_silent_when_off (cannedAnswers "hola" "¡Hola!")
           (recordedSession false) []).
  - reflexivity.
  - intros path language v h. reflexivity.
  - intros messages v h. reflexivity.
Defined.

(** ** Trimming gives back a part of the string *)

Lemma trimSpaceStart_suffix s :
  exists a, s = a ++ fst (strings.trimSpaceStart s).
Proof.
  induction s as [|c t [a IH]]; [now exists "" |].
  cbn [strings.trimSpaceStart].
  destruct (utf8.RuneSelf <=? byteZ c); [now exists "" |].
  destruct (strings.asciiSpace c); [| now exists ""].
  exists (String c a). cbn [append]. now rewrite <- IH.
Qed.

Lemma trimLeftFuncFuel_suffix fuel f s :
  exists a, s = a ++ strings.trimLeftFuncFuel fuel f s.
Proof.
  revert s. induction fuel as [|fuel IH]; intros s.
  - exists s. cbn. now rewrite append_empty_r.
  - cbn [strings.trimLeftFuncFuel]. destruct s as [|c t]; [now exists "" |].
    destruct (utf8.DecodeRuneInString (String c t)) as [r w].
    destruct (f r); [| now exists ""].
    destruct (IH (dropBytes w (String c t))) as [a Ha].
    exists (takeBytes w (String c t) ++ a).
    rewrite append_assoc, <- Ha. now rewrite take_drop.
Qed.

Lemma TrimRightFunc_prefix s f :
  exists b, s = strings.TrimRightFunc s f ++ b.
Proof.
  unfold strings.TrimRightFunc.
  destruct (strings.lastIndexFuncFuel _ f s _) as [i|]; [| now exists s].
  destruct (dropBytes i s) as [|c t].
  - exists (dropBytes (i + 1) s). now rewrite take_drop.
  - destruct (utf8.RuneSelf <=? byteZ c).
    + destruct (utf8.DecodeRuneInString (String c t)) as [r wid].
      exists (dropBytes (i + wid) s). now rewrite take_drop.
    + exists (dropBytes (i + 1) s). now rewrite take_drop.
Qed.

Lemma TrimSpace_infix s :
  exists a b, s = a ++ strings.TrimSpace s ++ b.
Proof.
  unfold strings.TrimSpace.
  destruct (trimSpaceStart_suffix s) as [a Ha].
  destruct (strings.trimSpaceStart s) as [s1 slow]. cbn [fst] in Ha.
  destruct slow.
  - unfold strings.TrimFunc, strings.TrimLeftFunc.
    destruct (trimLeftFuncFuel_suffix (String.length s1) unicode.IsSpace s1) as [a' Ha'].
    set (s2 := strings.trimLeftFuncFuel _ _ s1) in *.
    destruct (TrimRightFunc_prefix s2 unicode.IsSpace) as [b Hb].
    exists (a ++ a'), b. rewrite append_assoc, <- Hb, <- Ha'. exact Ha.
  - destruct (trimSpaceStart_suffix (revString "" s1)) as [ra Hra].
    destruct (strings.trimSpaceStart (revString "" s1)) as [r1 slow']. cbn [fst] in Hra.
    assert (Hs1 : s1 = revString "" r1 ++ revString "" ra).
    { rewrite <- revString_append, <- Hra. now rewrite revString_involutive. }
    destruct slow'.
    + destruct (TrimRightFunc_prefix (revString "" r1) unicode.IsSpace) as [b Hb].
      exists a, (b ++ revString "" ra).
      rewrite <- (append_assoc _ b), <- Hb, <- Hs1. exact Ha.
    + exists a, (revString "" ra). now rewrite <- Hs1.
Qed.

Lemma allBytes_TrimSpace p s :
  allBytes p s = true -> allBytes p (strings.TrimSpace s) = true.
Proof.
  destruct (TrimSpace_infix s) as [a [b Hs]]. intros Hall.
  rewrite Hs, !allBytes_append in Hall.
  apply andb_true_iff in Hall as [_ Hall].
  now apply andb_true_iff in Hall as [Hall _].
Qed.

(** ** The bytes of a rune *)

Lemma first_AS b : utf8.first b = utf8.AS -> b < 0x80.
Proof.
  unfold utf8.first.
  repeat match goal with
         | |- context [if ?c then _ else _] => destruct c eqn:?
         end; intros Hf; try discriminate; lia.
Qed.

Lemma first_high b : utf8.first b <> utf8.AS -> 0x80 <= b.
Proof.
  unfold utf8.first. destruct (b <? 128) eqn:Hb; [congruence | lia].
Qed.

(** A rune is one ASCII byte, or is made of bytes outside ASCII. *)
Lemma decode_bytes s :
  s <> "" ->
  (exists c t, s = String c t /\ byteZ c < 0x80
               /\ utf8.DecodeRuneInString s = (byteZ c, 1%nat))
  \/ allBytes highByte (takeBytes (snd (utf8.DecodeRuneInString s)) s) = true.
Proof.
  destruct s as [|c0 t0]; [congruence | intros _].
  destruct (utf8.first (byteZ c0)) as [| |sz lo hi] eqn:Hf.
  - left. exists c0, t0. apply first_AS in Hf.
    split; [reflexivity |]. split; [assumption |]. now apply decode_ascii.
  - right. unfold utf8.DecodeRuneInString. rewrite Hf. cbn.
    assert (0x80 <= byteZ c0) by (apply first_high; congruence).
    unfold highByte. rewrite andb_true_r. lia.
  - right.
    assert (H0 : highByte c0 = true).
    { assert (0x80 <= byteZ c0) by (apply first_high; congruence).
      unfold highByte. lia. }
    pose proof (first_lead _ _ _ _ Hf) as [Hsz Hlo].
    assert (Hone : allBytes highByte (takeBytes 1 (String c0 t0)) = true).
    { cbn. now rewrite H0. }
    unfold utf8.DecodeRuneInString. rewrite Hf.
    destruct (_ <? sz)%nat; [exact Hone |].
    destruct t0 as [|c1 t1]; [exact Hone |].
    destruct ((byteZ c1 <? lo) || (hi <? byteZ c1)) eqn:H1; [exact Hone |].
    assert (H1' : highByte c1 = true).
    { apply orb_false_iff in H1 as [H1 _]. unfold highByte. lia. }
    destruct (sz <=? 2)%nat; [cbn; now rewrite H0, H1' |].
    destruct t1 as [|c2 t2]; [exact Hone |].
    destruct (negb (utf8.isCont (byteZ c2))) eqn:H2; [exact Hone |].
    assert (H2' : highByte c2 = true).
    { apply negb_false_iff in H2. unfold utf8.isCont, utf8.locb in H2.
      apply andb_true_iff in H2 as [H2 _]. exact H2. }
    destruct (sz <=? 3)%nat; [cbn; now rewrite H0, H1', H2' |].
    destruct t2 as [|c3 t3]; [exact Hone |].
    destruct (negb (utf8.isCont (byteZ c3))) eqn:H3; [exact Hone |].
    assert (H3' : highByte c3 = true).
    { apply negb_false_iff in H3. unfold utf8.isCont, utf8.locb in H3.
      apply andb_true_iff in H3 as [H3 _]. exact H3. }
    cbn. now rewrite H0, H1', H2', H3'.
Qed.

Lemma runes_bytes s :
  Forall (fun rb : Z * string =>
            (exists c, rb = (byteZ c, String c "") /\ byteZ c < 0x80)
            \/ allBytes highByte (snd rb) = true)
         (utf8.runes s).
Proof.
  remember (String.length s) as n eqn:Hn.
  revert s Hn. induction n as [n IH] using lt_wf_ind. intros s Hn.
  destruct s as [|c0 t0]; [constructor |].
  assert (Ha : String c0 t0 <> "") by discriminate.
  rewrite runes_step by assumption.
  pose proof (decode_width _ Ha) as Hw.
  constructor.
  - destruct (decode_bytes _ Ha) as [[c [t [Hs [Hc Hd]]]] | Hhigh].
    + left. exists c. rewrite Hd. cbn [fst snd]. injection Hs as -> ->.
      split; [reflexivity | assumption].
    + right. exact Hhigh.
  - apply (IH (String.length (dropBytes (snd (utf8.DecodeRuneInString (String c0 t0)))
                                        (String c0 t0)))); [| reflexivity].
    rewrite length_dropBytes. subst n. cbn [String.length] in *. lia.
Qed.

Lemma allBytes_concat p l :
  Forall (fun x => allBytes p x = true) l -> allBytes p (utf8.concatBytes l) = true.
Proof.
  induction 1 as [|x l Hx _ IH]; [reflexivity |].
  cbn [utf8.concatBytes]. now rewrite allBytes_append, Hx, IH.
Qed.

(** ** Runs of a class of bytes *)

Lemma chunks_bytes p q s :
  allBytes q s = true ->
  Forall (fun bg : bool * string =>
            allBytes (fun c => q c && Bool.eqb (fst bg) (p c)) (snd bg) = true)
         (regexp.chunks p s).
Proof.
  induction s as [|c t IH]; [constructor |].
  cbn [allBytes regexp.chunks]. intros Hall.
  apply andb_true_iff in Hall as [Hc Ht]. specialize (IH Ht).
  destruct (regexp.chunks p t) as [|[b g] rest].
  - constructor; [| constructor]. cbn. now rewrite Hc, Bool.eqb_reflx.
  - inversion IH as [|x l Hx Hrest]; subst.
    destruct (Bool.eqb b (p c)) eqn:Hb.
    + constructor; [| assumption]. cbn [fst snd allBytes] in *.
      now rewrite Hc, Hb, Hx.
    + constructor; [| now constructor]. cbn. now rewrite Hc, Bool.eqb_reflx.
Qed.

(** Replacing the runs of a class leaves what was there or what is put
    in. *)
Lemma replaceRuns_keeps p n repl q s :
  allBytes q s = true -> allBytes q repl = true ->
  allBytes q (regexp.replaceRuns p n repl s) = true.
Proof.
  intros Hs Hrepl. unfold regexp.replaceRuns. apply allBytes_concat.
  apply Forall_map. eapply Forall_impl; [| apply (chunks_bytes p q s Hs)].
  intros [b g]. cbn [fst snd]. intros Hg.
  destruct (b && _); [exact Hrepl |].
  eapply allBytes_impl; [| exact Hg].
  intros c Hc. now apply andb_true_iff in Hc as [Hc _].
Qed.

(** Replacing every run of a class leaves no byte of the class but
    those that are put in. *)
Lemma replaceRuns_removes p repl q q' s :
  allBytes q s = true -> allBytes q' repl = true ->
  (forall c, q c = true -> p c = false -> q' c = true) ->
  allBytes q' (regexp.replaceRuns p 1 repl s) = true.
Proof.
  intros Hs Hrepl Hq. unfold regexp.replaceRuns. apply allBytes_concat.
  apply Forall_map. eapply Forall_impl; [| apply (chunks_bytes p q s Hs)].
  intros [b g]. cbn [fst snd]. intros Hg.
  destruct b; cbn [andb].
  - destruct g as [|c g]; [reflexivity |]. exact Hrepl.
  - eapply allBytes_impl; [| exact Hg].
    intros c Hc. apply andb_true_iff in Hc as [Hc Hp].
    apply Hq; [assumption |]. now destruct (p c).
Qed.


(** ** Both ends of a trimmed string *)

Lemma firstByte_app a b c : firstByte a = Some c -> firstByte (a ++ b) = Some c.
Proof. destruct a; [discriminate | exact id]. Qed.

Lemma firstByte_takeBytes n s c :
  firstByte (takeBytes n s) = Some c -> firstByte s = Some c.
Proof. destruct n, s; cbn; congruence. Qed.

Lemma allBytes_revString p acc s :
  allBytes p (revString acc s) = allBytes p s && allBytes p acc.
Proof.
  revert acc. induction s as [|c s IH]; intros acc; [reflexivity |].
  cbn [revString allBytes]. rewrite IH. cbn [allBytes].
  destruct (p c), (allBytes p s); reflexivity.
Qed.

Lemma revString_empty s : revString "" s = "" -> s = "".
Proof.
  intros Hr. rewrite <- (revString_involutive s), Hr. reflexivity.
Qed.

Lemma lastByte_allBytes p s b :
  allBytes p s = true -> lastByte s = Some b -> p b = true.
Proof.
  unfold lastByte. intros Hall Hlast.
  assert (Hrev : allBytes p (revString "" s) = true)
    by (rewrite allBytes_revString, Hall; reflexivity).
  destruct (revString "" s) as [|c t]; [discriminate |].
  cbn in *. injection Hlast as ->. now apply andb_true_iff in Hrev as [Hb _].
Qed.

Lemma lastByte_app a m : m <> "" -> lastByte (a ++ m) = lastByte m.
Proof.
  intros Hm. unfold lastByte. rewrite revString_append.
  destruct (revString "" m) as [|c t] eqn:Hr; [| reflexivity].
  now apply revString_empty in Hr.
Qed.

Lemma asciiSpace_IsSpace c :
  strings.asciiSpace c = true -> unicode.IsSpace (byteZ c) = true.
Proof. revert c. by_bytes. Qed.

Lemma asciiSpace_low c : strings.asciiSpace c = true -> highByte c = false.
Proof. revert c. by_bytes. Qed.

Lemma highByte_no_space c : highByte c = true -> strings.asciiSpace c = false.
Proof.
  intros Hc. destruct (strings.asciiSpace c) eqn:Ha; [| reflexivity].
  apply asciiSpace_low in Ha. congruence.
Qed.

Lemma trimSpaceStart_first s c :
  firstByte (fst (strings.trimSpaceStart s)) = Some c -> strings.asciiSpace c = false.
Proof.
  induction s as [|a t IH]; [discriminate |].
  cbn [strings.trimSpaceStart].
  destruct (utf8.RuneSelf <=? byteZ a) eqn:Ha.
  - cbn. intros [= <-]. now apply highByte_no_space.
  - destruct (strings.asciiSpace a) eqn:Hs; [exact IH |].
    cbn. now intros [= <-].
Qed.

Lemma trimLeftFuncFuel_first fuel s c :
  firstByte (strings.trimLeftFuncFuel fuel unicode.IsSpace s) = Some c ->
  strings.asciiSpace c = false.
Proof.
  revert s. induction fuel as [|fuel IH]; intros s; [discriminate |].
  cbn [strings.trimLeftFuncFuel]. destruct s as [|c0 t]; [discriminate |].
  destruct (utf8.DecodeRuneInString (String c0 t)) as [r w] eqn:Hd.
  destruct (unicode.IsSpace r) eqn:Hr; [apply IH |].
  cbn. intros [= <-].
  destruct (strings.asciiSpace c0) eqn:Ha; [| reflexivity].
  pose proof (asciiSpace_low _ Ha) as Hlow. unfold highByte in Hlow.
  rewrite decode_ascii in Hd by lia. injection Hd as <- <-.
  apply asciiSpace_IsSpace in Ha. congruence.
Qed.

Lemma lastIndexFuncFuel_some fuel f s i i' :
  strings.lastIndexFuncFuel fuel f s i = Some i' ->
  exists j, (0 < j <= i)%nat
            /\ i' = (j - snd (utf8.DecodeLastRuneInString (takeBytes j s)))%nat
            /\ f (fst (utf8.DecodeLastRuneInString (takeBytes j s))) = false.
Proof.
  revert i. induction fuel as [|fuel IH]; intros i; [discriminate |].
  cbn [strings.lastIndexFuncFuel]. destruct i as [|i]; [discriminate |].
  destruct (utf8.DecodeLastRuneInString (takeBytes (S i) s)) as [r size] eqn:Hd.
  destruct (f r) eqn:Hf.
  - intros Hrec. apply IH in Hrec as [j [Hj Hrest]].
    exists j. split; [lia | exact Hrest].
  - intros [= <-]. exists (S i). rewrite Hd. cbn [fst snd].
    split; [lia |]. split; [reflexivity | assumption].
Qed.

Lemma rev_last y cl before :
  revString "" y = String cl before -> y = revString "" before ++ String cl "".
Proof.
  intros Hr. rewrite <- (revString_involutive y), Hr.
  cbn [revString]. now rewrite revString_acc.
Qed.

Lemma dropBytes_length a x : dropBytes (String.length a) (a ++ x) = x.
Proof. induction a as [|c a IH]; [reflexivity | exact IH]. Qed.

Lemma lastStart_pos steps rev k0 k :
  utf8.lastStart steps rev k0 = Some k -> (k0 < k)%nat.
Proof.
  revert rev k0. induction steps as [|n IH]; intros rev k0; [discriminate |].
  cbn [utf8.lastStart]. destruct rev as [|c t]; [discriminate |].
  destruct (utf8.RuneStart (byteZ c)).
  - intros [= <-]. lia.
  - intros Hrec. apply IH in Hrec. lia.
Qed.

(** The rune that [DecodeLastRuneInString] finds starts inside the
    string; when it starts with an ASCII byte, it is that byte. *)
Lemma decodeLast_start y :
  y <> "" ->
  (1 <= snd (utf8.DecodeLastRuneInString y) <= String.length y)%nat
  /\ exists c rest,
      dropBytes (String.length y - snd (utf8.DecodeLastRuneInString y)) y
      = String c rest
      /\ (byteZ c < 0x80 -> fst (utf8.DecodeLastRuneInString y) = byteZ c).
Proof.
  intros Hy. unfold utf8.DecodeLastRuneInString.
  destruct (revString "" y) as [|cl before] eqn:Hrev;
    [now apply revString_empty in Hrev |].
  apply rev_last in Hrev.
  assert (Hlen : String.length y = S (String.length (revString "" before))).
  { rewrite Hrev, length_append. cbn [String.length]. lia. }
  assert (Hlast : dropBytes (String.length y - 1) y = String cl "").
  { replace (String.length y - 1)%nat with (String.length (revString "" before)) by lia.
    rewrite Hrev. apply dropBytes_length. }
  destruct (byteZ cl <? utf8.RuneSelf) eqn:Hcl.
  { cbn [fst snd]. split; [lia |]. exists cl, "". now split. }
  assert (Hhigh : ~ byteZ cl < 0x80) by (unfold utf8.RuneSelf in Hcl; lia).
  destruct (utf8.lastStart 3 before 1) as [k|] eqn:Hk.
  2:{ cbn [fst snd]. split; [lia |]. exists cl, "". split; [assumption | tauto]. }
  apply lastStart_pos in Hk.
  destruct (utf8.DecodeRuneInString (dropBytes (String.length y - k) y))
    as [r' size] eqn:Hd.
  destruct (size =? k)%nat eqn:Hsk.
  2:{ cbn [fst snd]. split; [lia |]. exists cl, "". split; [assumption | tauto]. }
  apply Nat.eqb_eq in Hsk. subst size. cbn [fst snd].
  destruct (dropBytes (String.length y - k) y) as [|c rest] eqn:Hz.
  { cbn in Hd. injection Hd as _ Hk0. lia. }
  pose proof (decode_width (String c rest) ltac:(discriminate)) as Hw.
  rewrite Hd in Hw. cbn [snd] in Hw.
  assert (Hzl : (String.length (String c rest) <= String.length y)%nat).
  { rewrite <- Hz, length_dropBytes. lia. }
  split; [lia |]. exists c, rest. split; [reflexivity |].
  intros Hc. rewrite decode_ascii in Hd by assumption. congruence.
Qed.

Lemma length_takeBytes n s :
  (n <= String.length s)%nat -> String.length (takeBytes n s) = n.
Proof.
  revert s. induction n as [|n IH]; intros s Hn; [reflexivity |].
  destruct s as [|c t]; cbn in *; [lia |]. rewrite IH; lia.
Qed.

Lemma takeBytes_add i n s :
  takeBytes (i + n) s = takeBytes i s ++ takeBytes n (dropBytes i s).
Proof.
  revert s. induction i as [|i IH]; intros s; [reflexivity |].
  destruct s as [|c t]; cbn.
  - now destruct n.
  - now rewrite IH.
Qed.

Lemma lastIndexFuncFuel_bound fuel f s i i' :
  strings.lastIndexFuncFuel fuel f s i = Some i' -> (i' <= i)%nat.
Proof.
  intros H. apply lastIndexFuncFuel_some in H as [j [Hj [-> _]]]. lia.
Qed.

Lemma TrimRightFunc_last x b :
  lastByte (strings.TrimRightFunc x unicode.IsSpace) = Some b ->
  strings.asciiSpace b = false.
Proof.
  unfold strings.TrimRightFunc.
  destruct (strings.lastIndexFuncFuel _ _ x _) as [i|] eqn:Hl; [| discriminate].
  apply lastIndexFuncFuel_some in Hl as [j [Hj [Hi Hf]]].
  assert (Hy : takeBytes j x <> "").
  { intros Hy. apply (f_equal String.length) in Hy.
    rewrite length_takeBytes in Hy by lia. cbn in Hy. lia. }
  destruct (decodeLast_start _ Hy) as [Hsz [c [rest [Hdrop Hasc]]]].
  rewrite length_takeBytes in Hsz, Hdrop by lia. rewrite <- Hi in Hdrop.
  assert (Hx : dropBytes i x = String c (rest ++ dropBytes j x)).
  { rewrite <- (take_drop j x) at 1.
    rewrite dropBytes_append by (rewrite length_takeBytes; lia).
    now rewrite Hdrop. }
  rewrite Hx.
  assert (Hone : takeBytes (i + 1) x = takeBytes i x ++ String c "").
  { rewrite takeBytes_add, Hx. reflexivity. }
  destruct (utf8.RuneSelf <=? byteZ c) eqn:Hc.
  - destruct (utf8.DecodeRuneInString (String c (rest ++ dropBytes j x)))
      as [r wid] eqn:Hd.
    rewrite takeBytes_add, Hx.
    pose proof (decode_width (String c (rest ++ dropBytes j x)) ltac:(discriminate)) as Hw.
    rewrite Hd in Hw. cbn [snd] in Hw.
    destruct (decode_bytes (String c (rest ++ dropBytes j x)) ltac:(discriminate))
      as [[c' [t' [Heq [Hlow _]]]] | Hhigh].
    { injection Heq as <- _. unfold utf8.RuneSelf in Hc. lia. }
    rewrite Hd in Hhigh. cbn [snd] in Hhigh.
    rewrite lastByte_app by (destruct wid; [lia | discriminate]).
    intros Hb. apply highByte_no_space. eapply lastByte_allBytes; eassumption.
  - rewrite Hone, lastByte_app by discriminate. intros [= <-].
    destruct (strings.asciiSpace c) eqn:Ha; [| reflexivity].
    apply asciiSpace_IsSpace in Ha.
    rewrite <- Hasc in Ha by (unfold utf8.RuneSelf in Hc; lia). congruence.
Qed.

Lemma TrimRightFunc_first x f c :
  firstByte (strings.TrimRightFunc x f) = Some c -> firstByte x = Some c.
Proof.
  unfold strings.TrimRightFunc.
  destruct (strings.lastIndexFuncFuel _ f x _) as [i|]; [| discriminate].
  destruct (dropBytes i x) as [|c0 t].
  - apply firstByte_takeBytes.
  - destruct (utf8.RuneSelf <=? byteZ c0).
    + destruct (utf8.DecodeRuneInString (String c0 t)) as [r wid].
      apply firstByte_takeBytes.
    + apply firstByte_takeBytes.
Qed.

Lemma trimmed_intro s :
  (forall a, firstByte s = Some a -> strings.asciiSpace a = false) ->
  (forall b, lastByte s = Some b -> strings.asciiSpace b = false) ->
  trimmed s = true.
Proof.
  intros Hf Hl. unfold trimmed.
  destruct (firstByte s) as [a|]; [| reflexivity].
  destruct (lastByte s) as [b|]; [| reflexivity].
  now rewrite (Hf a), (Hl b).
Qed.

Lemma lastByte_some c t : exists b, lastByte (String c t) = Some b.
Proof.
  unfold lastByte. destruct (revString "" (String c t)) as [|b r] eqn:Hr.
  - now apply revString_empty in Hr.
  - now exists b.
Qed.

Lemma trimmed_first s a :
  trimmed s = true -> firstByte s = Some a -> strings.asciiSpace a = false.
Proof.
  unfold trimmed. intros Ht Ha. rewrite Ha in Ht.
  destruct s as [|c t]; [discriminate |].
  destruct (lastByte_some c t) as [b Hb]. rewrite Hb in Ht.
  apply andb_true_iff in Ht as [Ht _]. now apply negb_true_iff in Ht.
Qed.

Lemma trimmed_last s b :
  trimmed s = true -> lastByte s = Some b -> strings.asciiSpace b = false.
Proof.
  unfold trimmed. intros Ht Hb. rewrite Hb in Ht.
  destruct s as [|c t]; [discriminate |]. cbn [firstByte] in Ht.
  apply andb_true_iff in Ht as [_ Ht]. now apply negb_true_iff in Ht.
Qed.

(** [TrimSpace] leaves no byte of the [asciiSpace] table at either end. *)
Lemma TrimSpace_trimmed s : trimmed (strings.TrimSpace s) = true.
Proof.
  assert (Hends :
    (forall c, firstByte (strings.TrimSpace s) = Some c -> strings.asciiSpace c = false)
    /\ (forall c, lastByte (strings.TrimSpace s) = Some c -> strings.asciiSpace c = false)).
  { unfold strings.TrimSpace.
    pose proof (trimSpaceStart_first s) as Hfirst.
    destruct (strings.trimSpaceStart s) as [s1 slow]. cbn [fst] in Hfirst.
    destruct slow.
    - unfold strings.TrimFunc, strings.TrimLeftFunc. split.
      + intros c Hc. apply TrimRightFunc_first in Hc.
        now apply trimLeftFuncFuel_first in Hc.
      + intros c. apply TrimRightFunc_last.
    - pose proof (trimSpaceStart_first (revString "" s1)) as Hback.
      destruct (trimSpaceStart_suffix (revString "" s1)) as [ra Hra].
      destruct (strings.trimSpaceStart (revString "" s1)) as [r1 slow'].
      cbn [fst] in Hback, Hra.
      assert (Hs1 : s1 = revString "" r1 ++ revString "" ra).
      { rewrite <- revString_append, <- Hra. now rewrite revString_involutive. }
      assert (Hfront : forall c, firstByte (revString "" r1) = Some c ->
                                 strings.asciiSpace c = false).
      { intros c Hc. apply Hfirst. rewrite Hs1. now apply firstByte_app. }
      destruct slow'.
      + split.
        * intros c Hc. apply TrimRightFunc_first in Hc. now apply Hfront.
        * intros c. apply TrimRightFunc_last.
      + split; [exact Hfront |].
        intros c. unfold lastByte. rewrite revString_involutive. apply Hback. }
  destruct Hends as [Hf Hl]. now apply trimmed_intro.
Qed.

Lemma cleanTextForSpeech_bytes text :
  allBytes spokenByte (voice.cleanTextForSpeech text) = true.
Proof.
  unfold voice.cleanTextForSpeech.
  set (q0 := fun c => highByte c || voice.speakable (byteZ c)).
  assert (H1 : allBytes q0
                 (regexp.replaceRunes (fun r => negb (voice.speakable r)) " " text) = true).
  { unfold regexp.replaceRunes. apply allBytes_concat. apply Forall_map.
    eapply Forall_impl; [| apply runes_bytes].
    intros [r bs] Hrb. cbn [fst snd] in *.
    destruct (negb (voice.speakable r)) eqn:Hsp; [reflexivity |].
    apply negb_false_iff in Hsp.
    destruct Hrb as [[c [Heq Hc]] | Hhigh].
    - injection Heq as -> ->. cbn. unfold q0. now rewrite Hsp, orb_true_r.
    - eapply allBytes_impl; [| exact Hhigh]. intros c Hc. unfold q0. now rewrite Hc. }
  apply allBytes_TrimSpace.
  apply replaceRuns_keeps; [| reflexivity].
  eapply (replaceRuns_removes _ _
            (fun c => q0 c && negb (regexp.byteIs 0x2A c) && negb (regexp.byteIs 0x23 c)
                      && negb (regexp.byteIs 0x60 c) && negb (regexp.byteIs 0x5F c)
                      && negb (regexp.byteIs 0x0A c)));
    [| reflexivity | subst q0; by_bytes].
  eapply (replaceRuns_removes _ _
            (fun c => q0 c && negb (regexp.byteIs 0x2A c) && negb (regexp.byteIs 0x23 c)
                      && negb (regexp.byteIs 0x60 c) && negb (regexp.byteIs 0x5F c)));
    [| reflexivity | subst q0; by_bytes].
  eapply (replaceRuns_removes _ _
            (fun c => q0 c && negb (regexp.byteIs 0x2A c) && negb (regexp.byteIs 0x23 c)
                      && negb (regexp.byteIs 0x60 c)));
    [| reflexivity | subst q0; by_bytes].
  eapply (replaceRuns_removes _ _
            (fun c => q0 c && negb (regexp.byteIs 0x2A c) && negb (regexp.byteIs 0x23 c)));
    [| reflexivity | subst q0; by_bytes].
  eapply (replaceRuns_removes _ _
            (fun c => q0 c && negb (regexp.byteIs 0x2A c)));
    [| reflexivity | subst q0; by_bytes].
  eapply (replaceRuns_removes _ _ q0); [exact H1 | reflexivity | subst q0; by_bytes].
Qed.


(** X11.  The text that [cleanTextForSpeech] returns is made of the
    bytes of runes outside ASCII, ASCII letters and digits, spaces and
    the punctuation marks [. , ! ? : ; - ( )] and the two quotes: it has
    no control byte, no line break, and none of the markdown bytes.  It
    has no space at either end. *)
Theorem cleanTextForSpeech_alphabet :
  forall text : string,
    allBytes spokenByte (voice.cleanTextForSpeech text) = true
    /\ trimmed (voice.cleanTextForSpeech text) = true.
Proof.
  intros text. split; [apply cleanTextForSpeech_bytes |].
  unfold voice.cleanTextForSpeech. apply TrimSpace_trimmed.
Qed.

(** X12.  [Speak] runs at most one command: the synthesizer, with its
    arguments followed by the cleaned text as one more argument.  That
    text is not empty, and it holds nothing but the bytes that
    [cleanTextForSpeech] lets through.  [Speak] returns an error exactly
    when the command did. *)
Theorem Speak_runs_cleaned_text :
  forall (W : World) (St : Type) (s : voice.SystemTTS) (text : string)
         (st : St) (h : list Event),
    exists out new,
      voice.Speak s text st h = (Returned out, st, (h ++ new)%list)
      /\ ((filter isExec new = [] /\ out = None)
          \/ exists output err,
              filter isExec new
              = [Exec (voice.command s)
                      (voice.args s ++ [voice.cleanTextForSpeech text])%list
                      None output err]
              /\ voice.cleanTextForSpeech text <> ""
              /\ allBytes spokenByte (voice.cleanTextForSpeech text) = true
              /\ (out = None <-> err = None)).
Proof.
  intros W St s text st h. unfold voice.Speak.
  destruct (isEmpty text).
  { exists None, []. rewrite app_nil_r. split; [reflexivity | now left]. }
  unfold bind at 1. unfold log at 1, emit at 1.
  destruct (isEmpty (voice.cleanTextForSpeech text)) eqn:Hclean.
  { unfold bind, log, emit, ret. eexists _, _.
    rewrite <- app_assoc. split; [reflexivity | now left]. }
  apply isEmpty_false in Hclean.
  unfold voice.exec, bind, history, emit, log, emit, ret.
  match goal with
  | |- context [execRun ?hh ?n ?a ?d] =>
      destruct (execRun hh n a d) as [output [e|]]; cbn [fst snd]
  end.
  - eexists _, _. rewrite <- app_assoc. split; [reflexivity |].
    right. exists output, (Some e).
    split; [reflexivity |]. split; [assumption |].
    split; [apply cleanTextForSpeech_bytes |]. split; discriminate.
  - eexists _, _. rewrite <- !app_assoc. split; [reflexivity |].
    right. exists output, None.
    split; [reflexivity |]. split; [assumption |].
    split; [apply cleanTextForSpeech_bytes |]. split; reflexivity.
Qed.

(** ** Runs of white space *)

Lemma chunks_runs p s : runsOf p (regexp.chunks p s).
Proof.
  induction s as [|c t IH]; [constructor |].
  cbn [regexp.chunks].
  destruct (regexp.chunks p t) as [|[b g] rest] eqn:Hch.
  - constructor; [| exact I | constructor]. cbn. now rewrite Bool.eqb_reflx.
  - inversion IH as [|b0 c0 g0 rest0 Hall Hnext Hrest]; subst.
    destruct (Bool.eqb b (p c)) eqn:Hb.
    + constructor; [| assumption | assumption].
      cbn [allBytes] in *. now rewrite Hb, Hall.
    + constructor; [| | assumption].
      * cbn. now rewrite Bool.eqb_reflx.
      * destruct b, (p c); cbn in *; congruence.
Qed.

Lemma singleSpaced_app_word g x :
  allBytes (fun c => negb (regexp.bytePerlSpace c)) g = true ->
  singleSpaced (g ++ x) = singleSpaced x.
Proof.
  induction g as [|c g IH]; [reflexivity |]. cbn [allBytes append singleSpaced].
  intros Hg. apply andb_true_iff in Hg as [Hc Hg].
  apply negb_true_iff in Hc. rewrite Hc. cbn [andb]. now apply IH.
Qed.

Lemma singleSpaced_space x :
  singleSpaced (String " " x)
  = match x with
    | String d _ => negb (regexp.bytePerlSpace d)
    | EmptyString => true
    end && singleSpaced x.
Proof. reflexivity. Qed.

Lemma replaceRuns_singleSpaced s :
  singleSpaced (regexp.replaceRuns regexp.bytePerlSpace 1 " " s) = true.
Proof.
  unfold regexp.replaceRuns.
  set (f := fun bg : bool * string => _).
  pose proof (chunks_runs regexp.bytePerlSpace s) as Hruns.
  induction Hruns as [|b c g rest Hall Hnext Hrest IH]; [reflexivity |].
  cbn [map utf8.concatBytes].
  destruct b.
  - change (f (true, String c g)) with " ".
    change (" " ++ ?x) with (String " " x).
    rewrite singleSpaced_space, IH, andb_true_r.
    destruct rest as [|[b' g'] rest']; [reflexivity |].
    subst b'. inversion Hrest as [|b0 c0 g0 rest0 Hall0 _ _]; subst.
    cbn [map utf8.concatBytes].
    change (f (negb true, String c0 g0)) with (String c0 g0).
    cbn [append].
    cbn [allBytes] in Hall0. apply andb_true_iff in Hall0 as [Hc0 _].
    destruct (regexp.bytePerlSpace c0); [discriminate | reflexivity].
  - change (f (false, String c g)) with (String c g).
    rewrite singleSpaced_app_word; [exact IH |].
    eapply allBytes_impl; [| exact Hall].
    intros x Hx. cbv beta in *. destruct (regexp.bytePerlSpace x); cbn in *; congruence.
Qed.

Lemma singleSpaced_suffix a m : singleSpaced (a ++ m) = true -> singleSpaced m = true.
Proof.
  induction a as [|c a IH]; [exact id |].
  cbn [append singleSpaced]. intros H. apply andb_true_iff in H as [_ H]. now apply IH.
Qed.

Lemma singleSpaced_prefix m b : singleSpaced (m ++ b) = true -> singleSpaced m = true.
Proof.
  induction m as [|c m IH]; [reflexivity |].
  cbn [append singleSpaced]. intros H. apply andb_true_iff in H as [Hc H].
  rewrite (IH H), andb_true_r.
  destruct (regexp.bytePerlSpace c); [| reflexivity].
  apply andb_true_iff in Hc as [-> Hnext]. cbn [andb].
  destruct m as [|d m]; [reflexivity | exact Hnext].
Qed.

Lemma singleSpaced_TrimSpace s :
  singleSpaced s = true -> singleSpaced (strings.TrimSpace s) = true.
Proof.
  destruct (TrimSpace_infix s) as [a [b Hs]]. intros H. rewrite Hs in H.
  apply singleSpaced_suffix in H. now apply singleSpaced_prefix in H.
Qed.

(** X13.  In the text that [cleanTranscription] returns, every byte
    of the class [\s] is a space with no other next to it, and neither
    end is white space. *)
Theorem cleanTranscription_tidy :
  forall text : string,
    singleSpaced (voice.cleanTranscription text) = true
    /\ trimmed (voice.cleanTranscription text) = true.
Proof.
  intros text. unfold voice.cleanTranscription. split.
  - apply singleSpaced_TrimSpace, replaceRuns_singleSpaced.
  - apply TrimSpace_trimmed.
Qed.

(** ** The lines of the transcriber *)

Lemma SplitByte_bytes p s sep :
  allBytes p s = true ->
  Forall (fun x => allBytes (fun c => p c && negb (Ascii.eqb c sep)) x = true)
         (strings.SplitByte s sep).
Proof.
  induction s as [|c t IH]; [repeat constructor |].
  cbn [allBytes strings.SplitByte]. intros H. apply andb_true_iff in H as [Hc Ht].
  specialize (IH Ht).
  destruct (Ascii.eqb c sep) eqn:Hsep.
  - constructor; [reflexivity | assumption].
  - destruct (strings.SplitByte t sep) as [|x r].
    + repeat constructor. cbn. now rewrite Hc, Hsep.
    + inversion IH; subst. constructor; [| assumption].
      cbn. now rewrite Hc, Hsep.
Qed.

Lemma textLinesOf_lines {tables : CaseTables} (P : string -> Prop) lines :
  Forall (fun l => P (strings.TrimSpace l)) lines ->
  Forall (fun l => P l /\ l <> "" /\ trimmed l = true
                   /\ voice.isTimestampLine l = false /\ voice.isDebugLine l = false)
         (voice.textLinesOf lines).
Proof.
  induction 1 as [|l lines Hl _ IH]; [constructor |].
  cbn [voice.textLinesOf].
  destruct (isEmpty (strings.TrimSpace l)) eqn:He; cbn [negb andb]; [exact IH |].
  destruct (voice.isTimestampLine (strings.TrimSpace l)) eqn:Ht; cbn [negb andb];
    [exact IH |].
  destruct (voice.isDebugLine (strings.TrimSpace l)) eqn:Hd; cbn [negb andb];
    [exact IH |].
  constructor; [| exact IH].
  apply isEmpty_false in He. repeat split; try assumption. apply TrimSpace_trimmed.
Qed.

Lemma Join_bytes p l sep :
  allBytes p sep = true -> Forall (fun x => allBytes p x = true) l ->
  allBytes p (strings.Join l sep) = true.
Proof.
  intros Hsep. induction 1 as [|x l Hx Hl IH]; [reflexivity |].
  cbn [strings.Join]. destruct l as [|y l]; [exact Hx |].
  now rewrite !allBytes_append, Hx, Hsep, IH.
Qed.

Lemma Join_first l sep c x :
  firstByte x = Some c -> firstByte (strings.Join (x :: l) sep) = Some c.
Proof.
  intros Hx. cbn [strings.Join]. destruct l; [exact Hx | now apply firstByte_app].
Qed.

Lemma last_cons {A} (y : A) l x : last (y :: l) x = last l y.
Proof.
  revert y x. induction l as [|z l IH]; intros y x; [reflexivity |].
  change (last (y :: z :: l) x) with (last (z :: l) x).
  now rewrite (IH z x), (IH z y).
Qed.

Lemma Join_last l sep :
  Forall (fun x => x <> "") l ->
  forall x, lastByte (strings.Join (x :: l) sep) = lastByte (last l x).
Proof.
  induction 1 as [|y l Hy Hl IH]; intros x; [reflexivity |].
  change (strings.Join (x :: y :: l) sep)
    with (x ++ sep ++ strings.Join (y :: l) sep).
  assert (Hne : strings.Join (y :: l) sep <> "").
  { cbn [strings.Join]. destruct l; [assumption |].
    destruct y; [congruence | discriminate]. }
  rewrite <- append_assoc, lastByte_app by assumption.
  now rewrite IH, last_cons.
Qed.

(** X14.  The text that [parseWhisperOutput] returns is one line with
    no white space at either end, and it is empty exactly when no line
    of the output was kept. *)
Theorem parseWhisperOutput_one_line :
  forall (T : CaseTables) (output : string),
    noNewline (voice.parseWhisperOutput output) = true
    /\ trimmed (voice.parseWhisperOutput output) = true
    /\ (voice.parseWhisperOutput output = ""
        <-> voice.textLinesOf (strings.Split_nl (strings.TrimSpace output)) = []).
Proof.
  intros T output. unfold voice.parseWhisperOutput.
  set (lines := strings.Split_nl (strings.TrimSpace output)).
  assert (Hlines : Forall (fun l => noNewline (strings.TrimSpace l) = true) lines).
  { subst lines. unfold strings.Split_nl.
    eapply Forall_impl;
      [| apply (SplitByte_bytes (fun _ => true) _ strings.newline);
         now induction (strings.TrimSpace output)].
    intros l Hl. apply allBytes_TrimSpace.
    eapply allBytes_impl; [| exact Hl]. by_bytes. }
  apply (textLinesOf_lines (fun l => noNewline l = true)) in Hlines.
  destruct (voice.textLinesOf lines) as [|x kept].
  { repeat split; reflexivity. }
  inversion Hlines as [|x0 l0 [Hx [Hne [Htr _]]] Hkept]; subst.
  split; [| split].
  - apply Join_bytes; [reflexivity |].
    constructor; [exact Hx |].
    eapply Forall_impl; [| exact Hkept]. now intros l [Hl _].
  - destruct x as [|c x]; [congruence |].
    apply trimmed_intro.
    + intros a. rewrite (Join_first kept " " c (String c x)) by reflexivity.
      intros [= <-]. now apply (trimmed_first (String c x)).
    + intros b.
      rewrite Join_last
        by (eapply Forall_impl; [| exact Hkept]; now intros l [_ [Hl _]]).
      apply trimmed_last.
      clear - Htr Hkept. revert Htr. generalize (String c x).
      induction Hkept as [|y l [_ [_ [Hy _]]] _ IH]; intros s Hs; [exact Hs |].
      rewrite last_cons. now apply IH.
  - split; [| discriminate].
    intros Hj. exfalso. cbn [strings.Join] in Hj.
    destruct x as [|c x]; [congruence |].
    destruct kept; discriminate.
Qed.

(** ** The recording *)





(** ** The transcriber *)

(** X16.  [Transcribe] always returns, and leaves the state as it was.
    With an error the text is empty; without one it is a cleaned text:
    its white space is single spaces, none of them at either end. *)
Theorem Transcribe_result :
  forall (W : World) (T : CaseTables) (St : Type) (w : voice.WhisperCppTranscriber)
         (audioFilePath language : string) (st : St) (h : list Event),
    exists (text : string) (err : option error) (new : list Event),
      voice.Transcribe w audioFilePath language st h
      = (Returned (text, err), st, (h ++ new)%list)
      /\ (err <> None -> text = "")
      /\ singleSpaced text = true
      /\ trimmed text = true.
Proof.
  intros W T St w audioFilePath language st h. unfold voice.Transcribe.
  destruct (isEmpty (voice.whisperCppPath w)).
  { exists "", (Some "whisper.cpp not initialized"), [].
    rewrite app_nil_r. repeat split. }
  destruct (filepathAbs audioFilePath) as [absAudioPath [e|]].
  { eexists "", _, []. rewrite app_nil_r. repeat split. }
  unfold voice.stat, voice.exec, bind, history, emit, ret.
  destruct (osStat h absAudioPath) eqn:Hstat.
  2:{ eexists "", _, [_]. repeat split. }
  all: match goal with
       | |- context [execRun ?hh ?n ?a ?d] =>
           destruct (execRun hh n a d) as [output [?|]] eqn:Hrun; cbn [fst snd]
       end.
  all: try solve [eexists "", _, [_; _]; rewrite <- app_assoc; repeat split].
  all: match goal with
       | |- context [isEmpty (if isEmpty ?o then _ else _)] =>
           destruct (isEmpty (if isEmpty o then "" else voice.parseWhisperOutput o))
       end.
  all: try match goal with
       | |- context [osReadFile ?hh ?p] =>
           destruct (osReadFile hh p) as [data [?|]]
       end.
  all: eexists _, None, _; rewrite <- !app_assoc;
    (split; [reflexivity |]); (split; [congruence |]);
    unfold voice.cleanTranscription;
    (split; [apply singleSpaced_TrimSpace, replaceRuns_singleSpaced
            | apply TrimSpace_trimmed]).
Qed.

Lemma no_transcript output {tables : CaseTables} :
  isEmpty (if isEmpty output then "" else voice.parseWhisperOutput output) = true ->
  output = "" \/ voice.parseWhisperOutput output = "".
Proof.
  destruct (isEmpty output) eqn:Ho.
  - left. now apply isEmpty_true.
  - right. now apply isEmpty_true.
Qed.

(** X17.  [Transcribe] runs the binary at most once.  It reads a file
    only after the binary exited with status 0 and its output held no
    transcript, and that file is the audio path, absolute, with [.txt]
    added; it removes a file exactly when it has read it. *)
Theorem Transcribe_effects :
  forall (W : World) (T : CaseTables) (St : Type) (w : voice.WhisperCppTranscriber)
         (audioFilePath language : string) (st : St) (h : list Event),
    exists (out : Outcome (string * option error)) (new : list Event),
      voice.Transcribe w audioFilePath language st h = (out, st, (h ++ new)%list)
      /\ (List.length (filter isExec new) <= 1)%nat
      /\ (forall p data rerr,
             In (ReadFile p data rerr) new ->
             p = fst (filepathAbs audioFilePath) ++ ".txt"
             /\ exists arguments dir output,
                 In (Exec (voice.whisperCppPath w) arguments dir output None) new
                 /\ (output = "" \/ voice.parseWhisperOutput output = ""))
      /\ (forall p, In (Remove p) new <-> exists data, In (ReadFile p data None) new).
Proof.
  intros W T St w audioFilePath language st h.
  set (P := fun new : list Event =>
    (List.length (filter isExec new) <= 1)%nat
    /\ (forall p data rerr,
           In (ReadFile p data rerr) new ->
           p = fst (filepathAbs audioFilePath) ++ ".txt"
           /\ exists arguments dir output,
               In (Exec (voice.whisperCppPath w) arguments dir output None) new
               /\ (output = "" \/ voice.parseWhisperOutput output = ""))
    /\ (forall p, In (Remove p) new <-> exists data, In (ReadFile p data None) new)).
  change (exists out new,
             voice.Transcribe w audioFilePath language st h = (out, st, (h ++ new)%list)
             /\ P new).
  assert (Hquiet : forall new : list Event,
             (forall e, In e new -> (exists p r, e = Stat p r)
                                    \/ exists n a d o x, e = Exec n a d o (Some x)) ->
             (List.length (filter isExec new) <= 1)%nat -> P new).
  { intros new Hnew Hlen. split; [assumption |]. split.
    - intros p data rerr Hin.
      apply Hnew in Hin as [[p' [r He]] | [n [a [d [o [x He]]]]]]; discriminate.
    - intros p. split.
      + intros Hin.
        apply Hnew in Hin as [[p' [r He]] | [n [a [d [o [x He]]]]]]; discriminate.
      + intros [data Hin].
        apply Hnew in Hin as [[p' [r He]] | [n [a [d [o [x He]]]]]]; discriminate. }
  unfold voice.Transcribe.
  destruct (isEmpty (voice.whisperCppPath w)).
  { eexists _, []. rewrite app_nil_r. split; [reflexivity |].
    apply Hquiet; [intros e [] | cbn; lia]. }
  destruct (filepathAbs audioFilePath) as [absAudioPath [e|]].
  { eexists _, []. rewrite app_nil_r. split; [reflexivity |].
    apply Hquiet; [intros e0 [] | cbn; lia]. }
  cbn [fst] in P.
  unfold voice.stat, voice.exec, bind, history, emit, ret.
  assert (Hstat : forall s : StatResult, exists p r, Stat absAudioPath s = Stat p r)
    by eauto.
  destruct (osStat h absAudioPath) as [| |e].
  2:{ eexists _, [_]. split; [reflexivity |].
      apply Hquiet; [| cbn; lia]. intros e0 [<- | []]. left. apply Hstat. }
  all: match goal with
       | |- context [execRun ?hh ?n ?a ?d] =>
           destruct (execRun hh n a d) as [output [x|]]; cbn [fst snd]
       end.
  all: try solve [eexists _, [_; _]; rewrite <- app_assoc; split; [reflexivity |];
                  apply Hquiet; [| cbn; lia];
                  intros e0 [<- | [<- | []]]; [left | right]; eauto 10].
  all: destruct (isEmpty (if isEmpty output then "" else voice.parseWhisperOutput output))
         eqn:Hparsed.
  all: try solve [eexists _, [_; _]; rewrite <- app_assoc; split; [reflexivity |];
                  split; [cbn; lia |]; split;
                  [ intros p data rerr [Hin | [Hin | []]]; discriminate
                  | intros p; split;
                    [ intros [Hin | [Hin | []]]; discriminate
                    | intros [data [Hin | [Hin | []]]]; discriminate ] ]].
  all: apply no_transcript in Hparsed.
  all: match goal with
       | |- context [osReadFile ?hh ?p] =>
           destruct (osReadFile hh p) as [data [re|]]
       end.
  all: try solve [
    eexists _, [_; _; _]; rewrite <- !app_assoc; split; [reflexivity |];
    split; [cbn; lia |]; split;
    [ intros p data' rerr [Hin | [Hin | [Hin | []]]]; try discriminate;
      injection Hin as <- _ _; split; [reflexivity |];
      eexists _, _, output; split; [right; left; reflexivity | assumption]
    | intros p; split;
      [ intros [Hin | [Hin | [Hin | []]]]; discriminate
      | intros [data' [Hin | [Hin | [Hin | []]]]]; discriminate ] ] ].
  all: eexists _, [_; _; _; _]; rewrite <- !app_assoc; split; [reflexivity |];
    split; [cbn; lia |]; split;
    [ intros p data' rerr [Hin | [Hin | [Hin | [Hin | []]]]]; try discriminate;
      injection Hin as <- _ _; split; [reflexivity |];
      eexists _, _, output; split; [right; left; reflexivity | assumption]
    | intros p; split;
      [ intros [Hin | [Hin | [Hin | [Hin | []]]]]; try discriminate;
        injection Hin as <-; exists data; right; right; left; reflexivity
      | intros [data' [Hin | [Hin | [Hin | [Hin | []]]]]]; try discriminate;
        injection Hin as <- _; right; right; right; left; reflexivity ] ].
Qed.

(** ** Looking for the binaries *)

Lemma testWhisperCpp_run {world : World} {St} path (st : St) h :
  lifecycle.testWhisperCpp path st h
  = (Returned (snd (execRun h path ["--help"] None)), st,
     (h ++ [Exec path ["--help"] None (fst (execRun h path ["--help"] None))
                 (snd (execRun h path ["--help"] None))])%list).
Proof.
  unfold lifecycle.testWhisperCpp, voice.exec, bind, history, emit, ret.
  destruct (execRun h path ["--help"] None) as [output [e|]]; cbn [fst snd];
    [reflexivity |].
  now rewrite orb_true_r.
Qed.

Lemma searchFrom_cons {world : World} path rest w h :
  lifecycle.searchFrom (path :: rest) w h
  = match execRun h path ["--help"] None with
    | (output, None) =>
        (Returned None,
         {| voice.whisperCppPath := path; voice.modelPath := voice.modelPath w |},
         (h ++ [Exec path ["--help"] None output None])%list)
    | (output, Some e) =>
        lifecycle.searchFrom rest w (h ++ [Exec path ["--help"] None output (Some e)])%list
    end.
Proof.
  cbn [lifecycle.searchFrom]. unfold bind at 1. rewrite testWhisperCpp_run.
  destruct (execRun h path ["--help"] None) as [output [e|]]; reflexivity.
Qed.

Lemma searchFrom_run {world : World} paths w h :
  (exists before path after failures output,
      paths = (before ++ path :: after)%list
      /\ lifecycle.searchFrom paths w h
         = (Returned None,
            {| voice.whisperCppPath := path; voice.modelPath := voice.modelPath w |},
            (h ++ failures ++ [Exec path ["--help"] None output None])%list)
      /\ Forall2 (fun p e => failedProbe p ["--help"] e) before failures)
  \/ (exists failures,
         lifecycle.searchFrom paths w h
         = (Returned (Some "whisper.cpp binary not found. Run: bash scripts/setup_whisper_cpp.sh"),
            w, (h ++ failures)%list)
         /\ Forall2 (fun p e => failedProbe p ["--help"] e) paths failures).
Proof.
  revert h. induction paths as [|path rest IH]; intros h.
  - right. exists []. rewrite app_nil_r. split; [reflexivity | constructor].
  - rewrite !searchFrom_cons.
    destruct (execRun h path ["--help"] None) as [output [e|]].
    + destruct (IH (h ++ [Exec path ["--help"] None output (Some e)])%list)
        as [[before [p [after [failures [out [Hp [Hrun Hfail]]]]]]] | [failures [Hrun Hfail]]].
      * left. exists (path :: before), p, after,
          (Exec path ["--help"] None output (Some e) :: failures), out.
        split; [now rewrite Hp |]. split.
        -- rewrite Hrun. now rewrite <- app_assoc.
        -- constructor; [now exists output, e | assumption].
      * right. exists (Exec path ["--help"] None output (Some e) :: failures).
        split.
        -- rewrite Hrun. now rewrite <- app_assoc.
        -- constructor; [now exists output, e | assumption].
    + left. exists [], path, rest, [], output.
      split; [reflexivity |]. split; [reflexivity | constructor].
Qed.

Lemma searchPaths_nonempty path : In path lifecycle.searchPaths -> path <> "".
Proof.
  unfold lifecycle.searchPaths. cbn [In].
  intros H; repeat (destruct H as [<- | H]; [discriminate |]); contradiction.
Qed.

Lemma filter_isExec_failures (P : string -> Event -> Prop) l failures :
  (forall p e, P p e -> isExec e = true) ->
  Forall2 P l failures -> filter isExec failures = failures.
Proof.
  intros HP. induction 1 as [|p e l f Hpe _ IH]; [reflexivity |].
  cbn [filter]. now rewrite (HP p e Hpe), IH.
Qed.

Lemma failedProbe_isExec a p e : failedProbe p a e -> isExec e = true.
Proof. now intros [output [err ->]]. Qed.

Lemma findWhisperCpp_run {world : World} cfg w h :
  lifecycle.findWhisperCpp cfg w h
  = if isEmpty (WhisperCppPath cfg) then lifecycle.searchFrom lifecycle.searchPaths w h
    else
      let h1 := (h ++ [Stat (WhisperCppPath cfg) (osStat h (WhisperCppPath cfg))])%list in
      match osStat h (WhisperCppPath cfg) with
      | StatOk =>
          match execRun h1 (WhisperCppPath cfg) ["--help"] None with
          | (output, None) =>
              (Returned None,
               {| voice.whisperCppPath := WhisperCppPath cfg;
                  voice.modelPath := voice.modelPath w |},
               (h1 ++ [Exec (WhisperCppPath cfg) ["--help"] None output None])%list)
          | (output, Some e) =>
              lifecycle.searchFrom lifecycle.searchPaths w
                (h1 ++ [Exec (WhisperCppPath cfg) ["--help"] None output (Some e)])%list
          end
      | _ => lifecycle.searchFrom lifecycle.searchPaths w h1
      end.
Proof.
  unfold lifecycle.findWhisperCpp.
  destruct (isEmpty (WhisperCppPath cfg)); cbn [negb]; [reflexivity |].
  unfold bind at 1. unfold bind at 1. unfold voice.stat at 1.
  unfold bind at 1. unfold history at 1. unfold bind at 1. unfold emit at 1.
  unfold ret at 1.
  destruct (osStat h (WhisperCppPath cfg)); try reflexivity.
  unfold bind at 1. rewrite testWhisperCpp_run. cbv zeta.
  destruct (execRun _ (WhisperCppPath cfg) ["--help"] None) as [output [e|]];
    reflexivity.
Qed.

Lemma NewWhisperCppTranscriber_unfold {world : World} {St} cfg (st : St) h :
  lifecycle.NewWhisperCppTranscriber cfg st h
  = match lifecycle.findWhisperCpp cfg
            {| voice.whisperCppPath := ""; voice.modelPath := WhisperModelPath cfg |} h with
    | (Returned (Some e), _, h') =>
        (Returned (None, Some ("whisper.cpp not found: " ++ e)), st, h')
    | (Returned None, w, h') => (Returned (Some w, None), st, h')
    | (Panicked msg, _, h') => (Panicked msg, st, h')
    end.
Proof.
  unfold lifecycle.NewWhisperCppTranscriber, lifecycle.onLocal, bind, ret.
  destruct (lifecycle.findWhisperCpp cfg _ h) as [[[[e|]|msg] w] h']; reflexivity.
Qed.

(** What the search gives after [first], when the places [tried]
    before it have failed. *)
Lemma search_after {world : World} {St} cfg (st : St) h first tried triedEvents :
  filter isExec first = triedEvents ->
  Forall2 (fun p e => failedProbe p ["--help"] e) tried triedEvents ->
  exists result new,
    match lifecycle.searchFrom lifecycle.searchPaths
            {| voice.whisperCppPath := ""; voice.modelPath := WhisperModelPath cfg |}
            (h ++ first)%list with
    | (Returned (Some e), _, h') =>
        (Returned (None, Some ("whisper.cpp not found: " ++ e)), st, h')
    | (Returned None, w, h') => (Returned (Some w, None), st, h')
    | (Panicked msg, _, h') => (Panicked msg, st, h')
    end = (Returned result, st, (h ++ new)%list)
    /\ ((exists w before after failures output,
            result = (Some w, None)
            /\ voice.modelPath w = WhisperModelPath cfg
            /\ voice.whisperCppPath w <> ""
            /\ (tried ++ lifecycle.searchPaths
                = before ++ voice.whisperCppPath w :: after)%list
            /\ filter isExec new
               = (failures ++ [Exec (voice.whisperCppPath w) ["--help"] None output None])%list
            /\ Forall2 (fun p e => failedProbe p ["--help"] e) before failures)
        \/ (exists failures,
               result = (None, Some "whisper.cpp not found: whisper.cpp binary not found. Run: bash scripts/setup_whisper_cpp.sh")
               /\ filter isExec new = failures
               /\ Forall2 (fun p e => failedProbe p ["--help"] e)
                    (tried ++ lifecycle.searchPaths)%list failures)).
Proof.
  intros Hfirst Htried.
  set (w0 := {| voice.whisperCppPath := ""; voice.modelPath := WhisperModelPath cfg |}).
  destruct (searchFrom_run lifecycle.searchPaths w0 (h ++ first)%list)
    as [[before [p [after [failures [out [Hp [Hrun Hfail]]]]]]] | [failures [Hrun Hfail]]];
    rewrite Hrun.
  - eexists _, _. split; [now rewrite <- app_assoc |]. left.
    eexists _, (tried ++ before)%list, after, (triedEvents ++ failures)%list, out.
    split; [reflexivity |]. split; [reflexivity |]. cbn [voice.whisperCppPath].
    split.
    { apply searchPaths_nonempty. rewrite Hp. apply in_or_app. right. now left. }
    split; [now rewrite Hp, app_assoc |]. split.
    + rewrite !filter_app, Hfirst.
      rewrite (filter_isExec_failures _ _ _ (failedProbe_isExec ["--help"]) Hfail).
      now rewrite app_assoc.
    + now apply Forall2_app.
  - eexists _, _. split; [now rewrite <- app_assoc |]. right.
    exists (triedEvents ++ failures)%list.
    split; [reflexivity |]. split.
    + rewrite filter_app, Hfirst.
      now rewrite (filter_isExec_failures _ _ _ (failedProbe_isExec ["--help"]) Hfail).
    + now apply Forall2_app.
Qed.

(** The run of [NewWhisperCppTranscriber], in full. *)
Lemma NewWhisperCppTranscriber_run {world : World} {St} cfg (st : St) h :
  exists result new,
    lifecycle.NewWhisperCppTranscriber cfg st h = (Returned result, st, (h ++ new)%list)
    /\ ((exists w before after failures output,
            result = (Some w, None)
            /\ voice.modelPath w = WhisperModelPath cfg
            /\ voice.whisperCppPath w <> ""
            /\ candidates cfg h = (before ++ voice.whisperCppPath w :: after)%list
            /\ filter isExec new
               = (failures ++ [Exec (voice.whisperCppPath w) ["--help"] None output None])%list
            /\ Forall2 (fun p e => failedProbe p ["--help"] e) before failures)
        \/ (exists failures,
               result = (None, Some "whisper.cpp not found: whisper.cpp binary not found. Run: bash scripts/setup_whisper_cpp.sh")
               /\ filter isExec new = failures
               /\ Forall2 (fun p e => failedProbe p ["--help"] e) (candidates cfg h) failures)).
Proof.
  rewrite NewWhisperCppTranscriber_unfold, findWhisperCpp_run. unfold candidates.
  destruct (isEmpty (WhisperCppPath cfg)) eqn:Hcfg; cbn [negb].
  { pose proof (search_after cfg st h [] [] [] eq_refl (Forall2_nil _)) as Hs.
    rewrite app_nil_r in Hs. exact Hs. }
  cbv zeta.
  destruct (osStat h (WhisperCppPath cfg)) eqn:Hstat.
  - destruct (execRun _ (WhisperCppPath cfg) ["--help"] None) as [output [e|]].
    + rewrite <- app_assoc.
      apply (search_after cfg st h
               [Stat (WhisperCppPath cfg) StatOk;
                Exec (WhisperCppPath cfg) ["--help"] None output (Some e)]
               [WhisperCppPath cfg]
               [Exec (WhisperCppPath cfg) ["--help"] None output (Some e)]
               eq_refl).
      constructor; [now exists output, e | constructor].
    + eexists _, _. split; [now rewrite <- app_assoc |]. left.
      eexists _, [], lifecycle.searchPaths, [], output.
      split; [reflexivity |]. split; [reflexivity |]. cbn [voice.whisperCppPath].
      split; [now apply isEmpty_false |].
      split; [reflexivity |]. split; [reflexivity | constructor].
  - apply (search_after cfg st h [Stat (WhisperCppPath cfg) StatNotExist] [] [] eq_refl).
    constructor.
  - apply (search_after cfg st h [Stat (WhisperCppPath cfg) (StatFailed e)] [] [] eq_refl).
    constructor.
Qed.

(** X18.  [NewWhisperCppTranscriber] takes the first place that
    answers [--help] with exit status 0: the configured path when it is
    set and exists, then the eight common locations in their order.  It
    probes nothing after the place it takes, the path it keeps is not
    empty, and it fails only when every place has failed. *)
Theorem NewWhisperCppTranscriber_first_working :
  forall (W : World) (St : Type) (cfg : VoiceConfig) (st : St) (h : list Event),
    exists result new,
      lifecycle.NewWhisperCppTranscriber cfg st h = (Returned result, st, (h ++ new)%list)
      /\ ((exists w before after failures output,
              result = (Some w, None)
              /\ voice.modelPath w = WhisperModelPath cfg
              /\ voice.whisperCppPath w <> ""
              /\ candidates cfg h = (before ++ voice.whisperCppPath w :: after)%list
              /\ filter isExec new
                 = (failures ++ [Exec (voice.whisperCppPath w) ["--help"] None output None])%list
              /\ Forall2 (fun p e => failedProbe p ["--help"] e) before failures)
          \/ (exists failures,
                 result = (None, Some "whisper.cpp not found: whisper.cpp binary not found. Run: bash scripts/setup_whisper_cpp.sh")
                 /\ filter isExec new = failures
                 /\ Forall2 (fun p e => failedProbe p ["--help"] e) (candidates cfg h) failures)).
Proof.
  intros W St cfg st h.
  apply NewWhisperCppTranscriber_run.
Qed.

(** The run of [NewTextToSpeech], in full. *)
Lemma NewTextToSpeech_run {world : World} {St} cfg (st : St) h :
  exists result new,
    lifecycle.NewTextToSpeech cfg st h = (Returned result, st, (h ++ new)%list)
    /\ ((exists command arguments before after failures output,
            result = (Some {| voice.command := command; voice.args := arguments |}, None)
            /\ lifecycle.systems cfg
               = (before ++ (command, arguments, ["--help"]) :: after)%list
            /\ filter isExec new
               = (failures ++ [Exec command ["--help"] None output None])%list
            /\ Forall2 (fun c e => failedProbe (fst (fst c)) ["--help"] e) before failures)
        \/ (exists failures,
               result = (None, Some "no TTS system found: no supported TTS system found (tried: espeak-ng, espeak, festival)")
               /\ filter isExec new = failures
               /\ Forall2 (fun c e => failedProbe c ["--help"] e)
                    ["espeak-ng"; "espeak"; "festival"] failures)).
Proof.
  unfold lifecycle.NewTextToSpeech, lifecycle.onLocal, lifecycle.detectTTSSystem,
    lifecycle.systems.
  cbn [lifecycle.detectFrom app].
  unfold lifecycle.testCommand, voice.exec, bind, history, emit, ret, put, log, emit.
  destruct (execRun h "espeak-ng" ["--help"] None) as [o1 [e1|]]; cbn [fst snd].
  2:{ eexists _, _. split; [now rewrite <- !app_assoc |]. left.
      eexists _, _, [], _, [], o1.
      split; [reflexivity |]. split; [reflexivity |]. split; [reflexivity | constructor]. }
  destruct (execRun _ "espeak" ["--help"] None) as [o2 [e2|]]; cbn [fst snd].
  2:{ eexists _, _. split; [now rewrite <- !app_assoc |]. left.
      eexists _, _, [_], _, [_], o2.
      split; [reflexivity |]. split; [reflexivity |]. split; [reflexivity |].
      constructor; [now exists o1, e1 | constructor]. }
  destruct (execRun _ "festival" ["--help"] None) as [o3 [e3|]]; cbn [fst snd].
  2:{ eexists _, _. split; [now rewrite <- !app_assoc |]. left.
      eexists _, _, [_; _], _, [_; _], o3.
      split; [reflexivity |]. split; [reflexivity |]. split; [reflexivity |].
      constructor; [now exists o1, e1 |].
      constructor; [now exists o2, e2 | constructor]. }
  eexists _, _. split; [now rewrite <- !app_assoc |]. right.
  eexists. split; [reflexivity |]. split; [reflexivity |].
  constructor; [now exists o1, e1 |].
  constructor; [now exists o2, e2 |].
  constructor; [now exists o3, e3 | constructor].
Qed.

(** X19.  [NewTextToSpeech] takes the first of [espeak-ng], [espeak]
    and [festival] that answers [--help] with exit status 0, with the
    arguments listed for it, and runs nothing after it; when all three
    fail, its error names the three. *)
Theorem NewTextToSpeech_first_working :
  forall (W : World) (St : Type) (cfg : TTSConfig) (st : St) (h : list Event),
    exists result new,
      lifecycle.NewTextToSpeech cfg st h = (Returned result, st, (h ++ new)%list)
      /\ ((exists command arguments before after failures output,
              result = (Some {| voice.command := command; voice.args := arguments |}, None)
              /\ lifecycle.systems cfg
                 = (before ++ (command, arguments, ["--help"]) :: after)%list
              /\ filter isExec new
                 = (failures ++ [Exec command ["--help"] None output None])%list
              /\ Forall2 (fun c e => failedProbe (fst (fst c)) ["--help"] e) before failures)
          \/ (exists failures,
                 result = (None, Some "no TTS system found: no supported TTS system found (tried: espeak-ng, espeak, festival)")
                 /\ filter isExec new = failures
                 /\ Forall2 (fun c e => failedProbe c ["--help"] e)
                      ["espeak-ng"; "espeak"; "festival"] failures)).
Proof.
  intros W St cfg st h.
  apply NewTextToSpeech_run.
Qed.

(** ** Removing the recording *)

(** X20.  [Cleanup] removes nothing but the file of the recorder, and
    only when its path holds [desk_pet_recording_].  When it returns
    nil, a second [Cleanup] has nothing left to do; when it returns an
    error, the recorder keeps the path. *)
Theorem Cleanup_only_recordings :
  forall (H : Host) (a : voice.AudioRecorder) (h : list Event),
    exists out a' new,
      lifecycle.Cleanup a h = (Returned out, a', (h ++ new)%list)
      /\ (new = []
          \/ (new = [Remove (voice.AudioFilePath a)] /\ holdsRecording a = true))
      /\ (out = None ->
          holdsRecording a' = false
          /\ lifecycle.Cleanup a' (h ++ new)%list = (Returned None, a', (h ++ new)%list))
      /\ (out <> None -> a' = a).
Proof.
  intros H a h. unfold lifecycle.Cleanup at 1.
  unfold bind at 1. unfold get at 1.
  fold (holdsRecording a).
  destruct (holdsRecording a) eqn:Hrec.
  - unfold bind, history, emit, put, ret.
    destruct (osRemove h (voice.AudioFilePath a)) as [| |e].
    + eexists _, _, _. split; [reflexivity |]. split; [now right |].
      split; [| intros Hn; now elim Hn]. intros _. split; reflexivity.
    + eexists _, _, _. split; [reflexivity |]. split; [now right |].
      split; [| intros Hn; now elim Hn]. intros _. split; reflexivity.
    + eexists _, _, _. split; [reflexivity |]. split; [now right |].
      split; [discriminate | reflexivity].
  - exists None, a, []. rewrite app_nil_r. split; [reflexivity |].
    split; [now left |]. split; [| intros Hn; now elim Hn].
    intros _. split; [assumption |].
    unfold lifecycle.Cleanup, bind, get. fold (holdsRecording a). now rewrite Hrec.
Qed.

(** ** Setting the session up *)

Lemma initReadline_run {host : Host} v h :
  lifecycle.initReadline v h
  = match readlineNew h with
    | Some e => (Returned (Some ("failed to initialize readline: " ++ e)), v, h)
    | None =>
        (Returned None,
         {| lifecycle.config := lifecycle.config v;
            lifecycle.claudeClient := lifecycle.claudeClient v;
            lifecycle.recorder := lifecycle.recorder v;
            lifecycle.transcriber := lifecycle.transcriber v;
            lifecycle.tts := lifecycle.tts v; lifecycle.rl := true |},
         (h ++ [Log LevelInfo "🎉 Voice interface ready!"])%list)
    end.
Proof.
  unfold lifecycle.initReadline, bind, history.
  destruct (readlineNew h); reflexivity.
Qed.

(** The synthesizer step returns, touches nothing but the synthesizer
    and the switch of speech, and leaves speech enabled only with a
    synthesizer set. *)
Lemma initTTS_run {world : World} v h :
  exists v' new,
    lifecycle.initTTS v h = (Returned tt, v', (h ++ new)%list)
    /\ lifecycle.claudeClient v' = lifecycle.claudeClient v
    /\ lifecycle.recorder v' = lifecycle.recorder v
    /\ lifecycle.transcriber v' = lifecycle.transcriber v
    /\ lifecycle.rl v' = lifecycle.rl v
    /\ VertexAI (lifecycle.config v') = VertexAI (lifecycle.config v)
    /\ Voice (lifecycle.config v') = Voice (lifecycle.config v)
    /\ (Enabled (TTS (lifecycle.config v')) = true ->
        Enabled (TTS (lifecycle.config v)) = true
        /\ exists s, lifecycle.tts v' = Some s).
Proof.
  unfold lifecycle.initTTS. unfold bind at 1. unfold get at 1.
  destruct (Enabled (TTS (lifecycle.config v))) eqn:Hen.
  2:{ exists v, []. rewrite app_nil_r. repeat split; congruence. }
  unfold bind at 1. unfold log at 1, emit at 1. unfold bind at 1.
  destruct (NewTextToSpeech_run (TTS (lifecycle.config v)) v
              (h ++ [Log LevelInfo "🔄 Setting up text-to-speech..."])%list)
    as [result [new [Hrun Hcases]]].
  rewrite Hrun.
  destruct Hcases as [[command [arguments [before [after [failures [output [-> _]]]]]]]
                     | [failures [-> _]]].
  - unfold lifecycle.setTTS, bind, get, put, log, emit, ret.
    eexists _, _. split; [now rewrite <- !app_assoc |].
    cbn. repeat split; eauto.
  - unfold lifecycle.setTTS, lifecycle.setConfig, bind, get, put, log, emit, ret.
    eexists _, _. split; [now rewrite <- !app_assoc |].
    cbn. repeat split; discriminate.
Qed.

(** X21.  [Initialize] returns an error for four reasons only: the
    configuration asks for another transcriber than whisper.cpp, no
    whisper.cpp binary answers, the client fails to initialize, or the
    line reader cannot be set up.  A synthesizer that is not found is
    never one of them. *)
Theorem Initialize_failures :
  forall (W : World) (H : Host) (clientInitialize : M VertexAIConfig (option error))
         (v v' : lifecycle.Session) (h h' : list Event) (e : error),
    lifecycle.Initialize clientInitialize v h = (Returned (Some e), v', h') ->
    (UseWhisperCpp (Voice (lifecycle.config v)) = false
     /\ e = "Python Whisper not implemented yet, use whisper.cpp")
    \/ e = "failed to initialize whisper.cpp: whisper.cpp not found: whisper.cpp binary not found. Run: bash scripts/setup_whisper_cpp.sh"
    \/ (exists e0, e = "failed to initialize Claude client: " ++ e0)
    \/ (exists e0, e = "failed to initialize readline: " ++ e0).
Proof.
  intros W H clientInitialize v v' h h' e. unfold lifecycle.Initialize.
  unfold bind at 1. unfold log at 1, emit at 1. unfold bind at 1. unfold get at 1.
  destruct (UseWhisperCpp (Voice (lifecycle.config v))) eqn:Huse.
  2:{ unfold ret. intros [= <- _ _]. left. now split. }
  unfold bind at 1. unfold log at 1, emit at 1. unfold bind at 1.
  match goal with
  | |- context [lifecycle.NewWhisperCppTranscriber ?cfg ?st ?hh] =>
      destruct (NewWhisperCppTranscriber_run cfg st hh) as [result [new [Hrun Hcases]]]
  end.
  rewrite Hrun.
  destruct Hcases as [[w [before [after [failures [output [-> _]]]]]]
                     | [failures [-> _]]].
  2:{ unfold lifecycle.setTranscriber, bind, get, put, ret.
      intros [= <- _ _]. right. left. reflexivity. }
  unfold bind at 1. unfold lifecycle.setTranscriber at 1.
  unfold bind at 1. unfold get at 1. unfold put at 1.
  unfold bind at 1. unfold log at 1, emit at 1.
  unfold bind at 1. unfold log at 1, emit at 1.
  unfold bind at 1. unfold lifecycle.setClaudeClient at 1.
  unfold bind at 1. unfold get at 1. unfold put at 1.
  unfold bind at 1.
  match goal with
  | |- context [lifecycle.onVertexAI clientInitialize ?st ?hh] =>
      destruct (lifecycle.onVertexAI clientInitialize st hh) as [[[[e0|]|msg] v1] h1]
  end.
  { unfold ret. intros [= <- _ _]. right. right. left. now exists e0. }
  2:{ discriminate. }
  unfold bind at 1. unfold log at 1, emit at 1.
  unfold bind at 1. unfold log at 1, emit at 1.
  unfold bind at 1. unfold get at 1.
  unfold lifecycle.NewAudioRecorder.
  unfold bind at 1. unfold lifecycle.setRecorder at 1.
  unfold bind at 1. unfold get at 1. unfold put at 1.
  unfold bind at 1. unfold log at 1, emit at 1.
  unfold bind at 1.
  match goal with
  | |- context [lifecycle.initTTS ?st ?hh] =>
      destruct (initTTS_run st hh) as [v2 [new2 [Htts _]]]
  end.
  rewrite Htts, initReadline_run.
  destruct (readlineNew _) as [e0|]; [| discriminate].
  intros [= <- _ _]. right. right. right. now exists e0.
Qed.

Lemma Initialize_failures_witness :
  (UseWhisperCpp (Voice (lifecycle.config (fst (lifecycle.New sampleConfig)))) = false
   /\ "failed to initialize Claude client: authentication check failed"
      = "Python Whisper not implemented yet, use whisper.cpp")
  \/ "failed to initialize Claude client: authentication check failed"
     = "failed to initialize whisper.cpp: whisper.cpp not found: whisper.cpp binary not found. Run: bash scripts/setup_whisper_cpp.sh"
  \/ (exists e0,
         "failed to initialize Claude client: authentication check failed"
         = "failed to initialize Claude client: " ++ e0)
  \/ (exists e0,
         "failed to initialize Claude client: authentication check failed"
         = "failed to initialize readline: " ++ e0).
Proof.
  apply (Initialize_failures sparseWorld kindHost
           (ret (Some "authentication check failed"))
           (fst (lifecycle.New sampleConfig))
           (snd (fst (lifecycle.Initialize (world := sparseWorld) (host := kindHost)
                        (ret (Some "authentication check failed"))
                        (fst (lifecycle.New sampleConfig)) [])))
           []
           (snd (lifecycle.Initialize (world := sparseWorld) (host := kindHost)
                   (ret (Some "authentication check failed"))
                   (fst (lifecycle.New sampleConfig)) []))
           "failed to initialize Claude client: authentication check failed").
  vm_compute. reflexivity.
Defined.

Lemma onVertexAI_state {A} (m : M VertexAIConfig A) v h a v1 h1 :
  lifecycle.onVertexAI m v h = (Returned a, v1, h1) ->
  exists vertexAI,
    v1 = {| lifecycle.config :=
              {| VertexAI := vertexAI; Voice := Voice (lifecycle.config v);
                 TTS := TTS (lifecycle.config v) |};
            lifecycle.claudeClient := lifecycle.claudeClient v;
            lifecycle.recorder := lifecycle.recorder v;
            lifecycle.transcriber := lifecycle.transcriber v;
            lifecycle.tts := lifecycle.tts v; lifecycle.rl := lifecycle.rl v |}.
Proof.
  unfold lifecycle.onVertexAI, lifecycle.onLocal, lifecycle.setConfig,
    bind, get, put, ret.
  destruct (m _ h) as [[[a0|msg] l] h0]; intros [= _ <- _]; eauto.
Qed.

(** X22.  When [Initialize] returns nil, every adapter that the loop
    uses is set: a transcriber with a binary path that is not empty, the
    client made from the configuration as it was, a recorder with no
    recording yet, and the line reader.  Speech is then enabled only if
    it was enabled before and a synthesizer was found, so that the
    session can speak exactly when speech is enabled. *)
Theorem Initialize_ready :
  forall (W : World) (H : Host) (clientInitialize : M VertexAIConfig (option error))
         (v v' : lifecycle.Session) (h h' : list Event),
    lifecycle.Initialize clientInitialize v h = (Returned None, v', h') ->
    exists i : voice.Interface,
      lifecycle.ready v' = Some i
      /\ lifecycle.rl v' = true
      /\ voice.whisperCppPath (voice.transcriber i) <> ""
      /\ voice.claudeClient i = claude.NewSmartClient (VertexAI (lifecycle.config v))
      /\ voice.recorder i = {| voice.AudioFilePath := "" |}
      /\ Voice (voice.config i) = Voice (lifecycle.config v)
      /\ (Enabled (TTS (voice.config i)) = true ->
          Enabled (TTS (lifecycle.config v)) = true)
      /\ voice.ttsUsable i = Enabled (TTS (voice.config i)).
Proof.
  intros W H clientInitialize v v' h h'. unfold lifecycle.Initialize.
  unfold bind at 1. unfold log at 1, emit at 1. unfold bind at 1. unfold get at 1.
  destruct (UseWhisperCpp (Voice (lifecycle.config v))) eqn:Huse; [| discriminate].
  unfold bind at 1. unfold log at 1, emit at 1. unfold bind at 1.
  match goal with
  | |- context [lifecycle.NewWhisperCppTranscriber ?cfg ?st ?hh] =>
      destruct (NewWhisperCppTranscriber_run cfg st hh) as [result [new [Hrun Hcases]]]
  end.
  rewrite Hrun.
  destruct Hcases as [[w [before [after [failures [output [-> [_ [Hpath _]]]]]]]]
                     | [failures [-> _]]].
  2:{ unfold lifecycle.setTranscriber, bind, get, put, ret. discriminate. }
  unfold bind at 1. unfold lifecycle.setTranscriber at 1.
  unfold bind at 1. unfold get at 1. unfold put at 1.
  unfold bind at 1. unfold log at 1, emit at 1.
  unfold bind at 1. unfold log at 1, emit at 1.
  unfold bind at 1. unfold lifecycle.setClaudeClient at 1.
  unfold bind at 1. unfold get at 1. unfold put at 1.
  unfold bind at 1.
  match goal with
  | |- context [lifecycle.onVertexAI clientInitialize ?st ?hh] =>
      destruct (lifecycle.onVertexAI clientInitialize st hh)
        as [[[[e0|]|msg] v1] h1] eqn:Hclient
  end; try discriminate.
  apply onVertexAI_state in Hclient as [vertexAI ->].
  cbn [lifecycle.config lifecycle.claudeClient lifecycle.recorder
       lifecycle.transcriber lifecycle.tts lifecycle.rl].
  unfold bind at 1. unfold log at 1, emit at 1.
  unfold bind at 1. unfold log at 1, emit at 1.
  unfold bind at 1. unfold get at 1.
  unfold lifecycle.NewAudioRecorder.
  unfold bind at 1. unfold lifecycle.setRecorder at 1.
  unfold bind at 1. unfold get at 1. unfold put at 1.
  unfold bind at 1. unfold log at 1, emit at 1.
  unfold bind at 1.
  match goal with
  | |- context [lifecycle.initTTS ?st ?hh] =>
      destruct (initTTS_run st hh)
        as [v2 [new2 [Htts [Hc [Hr [Ht [_ [_ [Hvoice Hen]]]]]]]]]
  end.
  rewrite Htts, initReadline_run.
  destruct (readlineNew _) as [e0|]; [discriminate |].
  intros [= <- _].
  cbn [lifecycle.config lifecycle.claudeClient lifecycle.recorder
       lifecycle.transcriber lifecycle.tts lifecycle.rl] in *.
  unfold lifecycle.ready.
  cbn [lifecycle.config lifecycle.claudeClient lifecycle.recorder
       lifecycle.transcriber lifecycle.tts lifecycle.rl].
  rewrite Hc, Hr, Ht. eexists. split; [reflexivity |].
  cbn [voice.config voice.claudeClient voice.recorder voice.transcriber voice.tts].
  repeat split; try assumption.
  - tauto.
  - unfold voice.ttsUsable. cbn [voice.config voice.tts].
    destruct (Enabled (TTS (lifecycle.config v2))) eqn:Hon; [| reflexivity].
    destruct Hen as [_ [s ->]]; reflexivity.
Qed.

Lemma Initialize_ready_witness :
  exists i : voice.Interface,
    lifecycle.ready
      (snd (fst (lifecycle.Initialize (world := sparseWorld) (host := kindHost)
                   (ret None) (fst (lifecycle.New sampleConfig)) [])))
    = Some i
    /\ lifecycle.rl
         (snd (fst (lifecycle.Initialize (world := sparseWorld) (host := kindHost)
                      (ret None) (fst (lifecycle.New sampleConfig)) [])))
       = true
    /\ voice.whisperCppPath (voice.transcriber i) <> ""
    /\ voice.claudeClient i
       = claude.NewSmartClient (VertexAI (lifecycle.config (fst (lifecycle.New sampleConfig))))
    /\ voice.recorder i = {| voice.AudioFilePath := "" |}
    /\ Voice (voice.config i) = Voice (lifecycle.config (fst (lifecycle.New sampleConfig)))
    /\ (Enabled (TTS (voice.config i)) = true ->
        Enabled (TTS (lifecycle.config (fst (lifecycle.New sampleConfig)))) = true)
    /\ voice.ttsUsable i = Enabled (TTS (voice.config i)).
Proof.
  apply (Initialize_ready sparseWorld kindHost (ret None)
           (fst (lifecycle.New sampleConfig)) _ []
           (snd (lifecycle.Initialize (world := sparseWorld) (host := kindHost)
                   (ret None) (fst (lifecycle.New sampleConfig)) []))).
  vm_compute. reflexivity.
Defined.

Lemma Cleanup_run {host : Host} a h :
  lifecycle.Cleanup a h
  = if holdsRecording a then
      match osRemove h (voice.AudioFilePath a) with
      | RemoveFailed e =>
          (Returned (Some ("failed to remove audio file: " ++ e)), a,
           (h ++ [Remove (voice.AudioFilePath a)])%list)
      | _ =>
          (Returned None, {| voice.AudioFilePath := "" |},
           (h ++ [Remove (voice.AudioFilePath a)])%list)
      end
    else (Returned None, a, h).
Proof.
  unfold lifecycle.Cleanup, bind, get, history, emit, put, ret.
  fold (holdsRecording a).
  destruct (holdsRecording a); [| reflexivity].
  destruct (osRemove h (voice.AudioFilePath a)); reflexivity.
Qed.

(** X23.  [Shutdown] always returns.  It tries to remove the
    recording that the recorder holds whatever closing the line reader
    gave; when it returns nil the recorder holds no recording any more;
    and the errors it reports come from the line reader and from the
    recorder only. *)
Theorem Shutdown_releases :
  forall (H : Host) (v : lifecycle.Session) (h : list Event),
    exists out v' new,
      lifecycle.Shutdown v h = (Returned out, v', (h ++ new)%list)
      /\ (forall a, lifecycle.recorder v = Some a -> holdsRecording a = true ->
                    In (Remove (voice.AudioFilePath a)) new)
      /\ (out = None ->
          forall a', lifecycle.recorder v' = Some a' -> holdsRecording a' = false)
      /\ (forall e, out = Some e ->
            exists errs,
              e = lifecycle.shutdownErrors errs /\ errs <> []
              /\ Forall (fun x =>
                           (exists e0, x = "readline shutdown: " ++ e0)
                           \/ (exists e0,
                                  x = "recorder cleanup: failed to remove audio file: " ++ e0))
                        errs).
Proof.
  intros H v h. unfold lifecycle.Shutdown.
  unfold bind at 1. unfold log at 1, emit at 1. unfold bind at 1. unfold get at 1.
  set (h0 := (h ++ [Log LevelInfo "Shutting down voice interface"])%list).
  assert (Hfirst : exists errs1,
             (if lifecycle.rl v
              then h1 <- history ;;
                   match readlineClose h1 with
                   | Some e => ret [("readline shutdown: " ++ e)%string]
                   | None => ret []
                   end
              else ret []) v h0 = (Returned errs1, v, h0)
             /\ Forall (fun x =>
                          (exists e0, x = "readline shutdown: " ++ e0)
                          \/ (exists e0,
                                 x = "recorder cleanup: failed to remove audio file: " ++ e0))
                       errs1).
  { destruct (lifecycle.rl v); [| exists []; split; [reflexivity | constructor]].
    unfold bind, history, ret. destruct (readlineClose h0) as [e|].
    - eexists. split; [reflexivity |]. constructor; [left; eauto | constructor].
    - exists []. split; [reflexivity | constructor]. }
  destruct Hfirst as [errs1 [Hrun1 Herrs1]].
  unfold bind at 1. rewrite Hrun1.
  assert (Hsecond : exists new2,
             (match lifecycle.claudeClient v with
              | Some _ =>
                  err <- lifecycle.clientShutdown ;;
                  match err with
                  | Some e => ret (errs1 ++ [("Claude client shutdown: " ++ e)%string])%list
                  | None => ret errs1
                  end
              | None => ret errs1
              end) v h0 = (Returned errs1, v, (h0 ++ new2)%list)
             /\ forallb isLog new2 = true).
  { destruct (lifecycle.claudeClient v).
    - unfold lifecycle.clientShutdown, bind, log, emit, ret.
      eexists. split; reflexivity.
    - exists []. rewrite app_nil_r. split; reflexivity. }
  destruct Hsecond as [new2 [Hrun2 Hlogs]].
  unfold bind at 1. rewrite Hrun2. unfold bind at 1.
  destruct (lifecycle.recorder v) as [a|] eqn:Hrec.
  - unfold bind at 1. unfold lifecycle.onLocal at 1. rewrite Cleanup_run.
    destruct (holdsRecording a) eqn:Hholds.
    + destruct (osRemove (h0 ++ new2)%list (voice.AudioFilePath a)) as [| |e] eqn:Hrm.
      * unfold lifecycle.setRecorder, bind, get, put, ret.
        destruct errs1 as [|x errs1]; cbn [List.length Z.of_nat Z.ltb Z.compare].
        -- eexists _, _, _. subst h0. split; [now rewrite <- !app_assoc |].
           split; [| split].
           ++ intros a0 [= <-] _. apply in_or_app. right. apply in_or_app. now right; left.
           ++ intros _ a' [= <-]. reflexivity.
           ++ discriminate.
        -- eexists _, _, _. subst h0. split; [now rewrite <- !app_assoc |].
           split; [| split].
           ++ intros a0 [= <-] _. apply in_or_app. right. apply in_or_app. now right; left.
           ++ discriminate.
           ++ intros e [= <-]. exists (x :: errs1). split; [reflexivity |].
              split; [discriminate | assumption].
      * unfold lifecycle.setRecorder, bind, get, put, ret.
        destruct errs1 as [|x errs1]; cbn [List.length Z.of_nat Z.ltb Z.compare].
        -- eexists _, _, _. subst h0. split; [now rewrite <- !app_assoc |].
           split; [| split].
           ++ intros a0 [= <-] _. apply in_or_app. right. apply in_or_app. now right; left.
           ++ intros _ a' [= <-]. reflexivity.
           ++ discriminate.
        -- eexists _, _, _. subst h0. split; [now rewrite <- !app_assoc |].
           split; [| split].
           ++ intros a0 [= <-] _. apply in_or_app. right. apply in_or_app. now right; left.
           ++ discriminate.
           ++ intros e [= <-]. exists (x :: errs1). split; [reflexivity |].
              split; [discriminate | assumption].
      * unfold lifecycle.setRecorder, bind, get, put, ret.
        set (errs := (errs1 ++ [("recorder cleanup: " ++ "failed to remove audio file: " ++ e)%string])%list).
        assert (Hlen : (0 <? Z.of_nat (List.length errs)) = true).
        { subst errs. rewrite length_app. cbn [List.length]. apply Z.ltb_lt. lia. }
        rewrite Hlen.
        eexists _, _, _. subst h0. split; [now rewrite <- !app_assoc |].
        split; [| split].
        -- intros a0 [= <-] _. apply in_or_app. right. apply in_or_app. now right; left.
        -- discriminate.
        -- intros e1 [= <-]. exists errs. split; [reflexivity |]. subst errs.
           split; [now destruct errs1 |].
           apply Forall_app. split; [assumption |].
           constructor; [right; now exists e | constructor].
    + unfold lifecycle.setRecorder, bind, get, put, ret.
      destruct errs1 as [|x errs1]; cbn [List.length Z.of_nat Z.ltb Z.compare].
      * eexists _, _, _. subst h0. split; [now rewrite <- !app_assoc |].
        split; [| split].
        -- intros a0 [= <-] Ha. congruence.
        -- intros _ a' [= <-]. assumption.
        -- discriminate.
      * eexists _, _, _. subst h0. split; [now rewrite <- !app_assoc |].
        split; [| split].
        -- intros a0 [= <-] Ha. congruence.
        -- discriminate.
        -- intros e [= <-]. exists (x :: errs1). split; [reflexivity |].
           split; [discriminate | assumption].
  - unfold ret.
    destruct errs1 as [|x errs1]; cbn [List.length Z.of_nat Z.ltb Z.compare].
    + eexists _, _, _. subst h0. split; [now rewrite <- !app_assoc |].
      split; [| split].
      * discriminate.
      * intros _ a'. rewrite Hrec. discriminate.
      * discriminate.
    + eexists _, _, _. subst h0. split; [now rewrite <- !app_assoc |].
      split; [| split].
      * discriminate.
      * discriminate.
      * intros e [= <-]. exists (x :: errs1). split; [reflexivity |].
        split; [discriminate | assumption].
Qed.

(** ** The environment file *)

Lemma Getenv_Setenv_other env k v key :
  k <> key ->
  config.Getenv (fst (config.Setenv env k v)) key = config.Getenv env key.
Proof.
  intros Hk. unfold config.Setenv.
  destruct (_ || _); [reflexivity |].
  cbn [fst]. unfold config.Getenv. cbn [config.lookupEnv].
  destruct (String.eqb k key) eqn:He; [| reflexivity].
  apply String.eqb_eq in He. congruence.
Qed.

Lemma loadLines_keeps filename lines :
  forall lineNum env key,
    config.Getenv env key <> "" ->
    config.Getenv (fst (config.loadLines filename lineNum lines env)) key
    = config.Getenv env key.
Proof.
  induction lines as [|text rest IH]; intros lineNum env key Hset; [reflexivity |].
  cbn [config.loadLines].
  destruct (isEmpty (strings.TrimSpace text) || strings.HasPrefix (strings.TrimSpace text) "#").
  { now apply IH. }
  destruct (config.SplitN2 (strings.TrimSpace text) "=") as [|k [|v [|x l]]];
    try reflexivity.
  destruct (isEmpty (config.Getenv env (strings.TrimSpace k))) eqn:Hk.
  - assert (Hne : strings.TrimSpace k <> key).
    { intros Heq. rewrite Heq in Hk. apply isEmpty_true in Hk. congruence. }
    rewrite IH; rewrite Getenv_Setenv_other by assumption; [reflexivity | assumption].
  - now apply IH.
Qed.

(** X24.  The environment wins over the file: a variable that has a
    value that is not empty when [loadEnvFile] starts has the same value
    when it returns, with or without an error. *)
Theorem loadEnvFile_keeps_environment :
  forall (filename : string) (file : config.Scanned) (env : config.Env) (key : string),
    config.Getenv env key <> "" ->
    config.Getenv (fst (config.loadEnvFile filename file env)) key
    = config.Getenv env key.
Proof.
  intros filename file env key Hset. unfold config.loadEnvFile.
  destruct file as [|e|lines scanErr]; try reflexivity.
  pose proof (loadLines_keeps filename lines 0 env key Hset) as Hkeep.
  destruct (config.loadLines filename 0 lines env) as [env' [e|]]; cbn [fst] in *.
  - exact Hkeep.
  - destruct scanErr; exact Hkeep.
Qed.

Lemma loadEnvFile_keeps_environment_witness :
  config.Getenv
    (fst (config.loadEnvFile ".env" (config.Opened sampleEnvFile None)
            [("TTS_RATE", "140")]))
    "TTS_RATE"
  = config.Getenv [("TTS_RATE", "140")] "TTS_RATE".
Proof.
  apply (loadEnvFile_keeps_environment ".env" (config.Opened sampleEnvFile None)
           [("TTS_RATE", "140")] "TTS_RATE").
  vm_compute. discriminate.
Defined.

Lemma loadLines_app filename a b :
  forall lineNum env,
    config.loadLines filename lineNum (a ++ b) env
    = match config.loadLines filename lineNum a env with
      | (env1, None) =>
          config.loadLines filename (lineNum + Z.of_nat (List.length a)) b env1
      | failed => failed
      end.
Proof.
  induction a as [|text rest IH]; intros lineNum env.
  - cbn. now rewrite Z.add_0_r.
  - cbn [app config.loadLines List.length].
    replace (lineNum + Z.of_nat (S (List.length rest)))
      with (lineNum + 1 + Z.of_nat (List.length rest)) by lia.
    destruct (isEmpty (strings.TrimSpace text)
              || strings.HasPrefix (strings.TrimSpace text) "#").
    { apply IH. }
    destruct (config.SplitN2 (strings.TrimSpace text) "=") as [|k [|v [|x l]]];
      try reflexivity.
    apply IH.
Qed.

Lemma cutByte_none s :
  allBytes (fun c => negb (regexp.byteIs 0x3D c)) s = true ->
  config.cutByte "=" s = None.
Proof.
  induction s as [|c t IH]; [reflexivity |]. cbn [allBytes config.cutByte].
  intros H. apply andb_true_iff in H as [Hc Ht]. rewrite (IH Ht).
  destruct (Ascii.eqb c "=") eqn:He; [| reflexivity].
  apply Ascii.eqb_eq in He. subst c. discriminate.
Qed.

(** X25.  [loadEnvFile] stops at the first line that is neither
    blank, nor a comment, nor an assignment: its error gives the number
    of that line and the line, trimmed; what the lines before it have
    set stays set, and the lines after it are not read. *)
Theorem loadEnvFile_stops_at_malformed :
  forall (filename : string) (good : list string) (bad : string) (rest : list string)
         (scanErr : option error) (env env1 : config.Env),
    config.loadLines filename 0 good env = (env1, None) ->
    malformed bad ->
    config.loadEnvFile filename (config.Opened (good ++ bad :: rest) scanErr) env
    = (env1,
       Some ("invalid format in " ++ filename ++ " at line "
             ++ strconv.Itoa (Z.of_nat (List.length good) + 1) ++ ": "
             ++ strings.TrimSpace bad)).
Proof.
  intros filename good bad rest scanErr env env1 Hgood [Hne [Hcomment Heq]].
  unfold config.loadEnvFile. rewrite loadLines_app, Hgood.
  cbn [config.loadLines]. apply isEmpty_false in Hne. rewrite Hne, Hcomment.
  cbn [orb]. unfold config.SplitN2. rewrite (cutByte_none _ Heq).
  reflexivity.
Qed.

Lemma loadEnvFile_stops_at_malformed_witness :
  config.loadEnvFile ".env"
    (config.Opened
       ([ "# Vertex AI"; "ANTHROPIC_VERTEX_PROJECT_ID=bobo-dev"; ""; "TTS_RATE = '180'" ]
        ++ "CLOUD_ML_REGION" :: ["TTS_DISABLED=yes"]) None) []
  = ([("TTS_RATE", "180"); ("ANTHROPIC_VERTEX_PROJECT_ID", "bobo-dev")],
     Some ("invalid format in " ++ ".env" ++ " at line "
           ++ strconv.Itoa (Z.of_nat (List.length
                [ "# Vertex AI"; "ANTHROPIC_VERTEX_PROJECT_ID=bobo-dev"; "";
                  "TTS_RATE = '180'" ]) + 1) ++ ": "
           ++ strings.TrimSpace "CLOUD_ML_REGION")).
Proof.
  apply (loadEnvFile_stops_at_malformed ".env"
           [ "# Vertex AI"; "ANTHROPIC_VERTEX_PROJECT_ID=bobo-dev"; ""; "TTS_RATE = '180'" ]
           "CLOUD_ML_REGION" ["TTS_DISABLED=yes"] None []
           [("TTS_RATE", "180"); ("ANTHROPIC_VERTEX_PROJECT_ID", "bobo-dev")]).
  - vm_compute. reflexivity.
  - unfold malformed. vm_compute. repeat split. discriminate.
Defined.

(** ** The Vertex AI client *)

Lemma firstText_spec content :
  (exists before b after,
      content = (before ++ b :: after)%list
      /\ Forall (fun x => isTextBlock x = false) before
      /\ isTextBlock b = true
      /\ vertex.firstText content = wire.Text b)
  \/ (Forall (fun x => isTextBlock x = false) content /\ vertex.firstText content = "").
Proof.
  induction content as [|block rest IH].
  - right. split; [constructor | reflexivity].
  - cbn [vertex.firstText]. fold (isTextBlock block).
    destruct (isTextBlock block) eqn:Hb.
    + left. exists [], block, rest. repeat split; [constructor | assumption].
    + destruct IH as [[before [b [after [-> [Hbefore [Hb' Htext]]]]]] | [Hnone Htext]].
      * left. exists (block :: before), b, after.
        repeat split; [now constructor | assumption | assumption].
      * right. split; [now constructor | assumption].
Qed.

(** X26.  [extractTextFromResponse] returns the text of the first
    block of type [text] whose text is not empty, whatever blocks come
    before it, and the empty string when the response has no such
    block. *)
Theorem extractTextFromResponse_first_text :
  forall response : wire.VertexResponse,
    (exists before b after,
        wire.Content response = (before ++ b :: after)%list
        /\ Forall (fun x => isTextBlock x = false) before
        /\ wire.Type_ b = "text" /\ wire.Text b <> ""
        /\ vertex.extractTextFromResponse response = wire.Text b)
    \/ (Forall (fun x => isTextBlock x = false) (wire.Content response)
        /\ vertex.extractTextFromResponse response = "").
Proof.
  intros response. unfold vertex.extractTextFromResponse.
  destruct (wire.Content response) as [|block rest] eqn:Hc.
  { right. split; [constructor | reflexivity]. }
  cbn [List.length Nat.eqb].
  destruct (firstText_spec (block :: rest))
    as [[before [b [after [Heq [Hbefore [Hb Htext]]]]]] | [Hnone Htext]].
  - left. exists before, b, after. unfold isTextBlock in Hb.
    apply andb_true_iff in Hb as [Htype Hne].
    apply String.eqb_eq in Htype. apply negb_true_iff, isEmpty_false in Hne.
    repeat split; assumption.
  - right. now split.
Qed.

Lemma extract_nonempty response :
  isEmpty (vertex.extractTextFromResponse response) = false ->
  vertex.extractTextFromResponse response <> "".
Proof. apply isEmpty_false. Qed.

(** The run of [Initialize] on a client that is not initialized. *)
Lemma vertex_Initialize_run {world : World} {cloud : Cloud} c h :
  vertex.initialized c = false ->
  exists out c' new,
    vertex.Initialize c h = (Returned out, c', (h ++ new)%list)
    /\ vertex.sent c' = vertex.sent c
    /\ match out with
       | None =>
           vertex.initialized c' = true
           /\ ProjectID (vertex.config c') <> ""
           /\ (ProjectID (vertex.config c) <> "" -> vertex.config c' = vertex.config c)
       | Some _ => vertex.initialized c' = false
       end.
Proof.
  intros Hinit. unfold vertex.Initialize.
  unfold bind at 1. unfold get at 1. rewrite Hinit.
  unfold bind at 1. unfold log at 1, emit at 1.
  unfold bind at 1. unfold vertex.checkAuthentication at 1.
  unfold bind at 1. unfold voice.exec at 1.
  unfold bind at 1. unfold history at 1. unfold bind at 1. unfold emit at 1.
  unfold ret at 1.
  match goal with
  | |- context [execRun ?hh ?n ?a ?d] =>
      destruct (execRun hh n a d) as [output [e|]]; cbn [fst snd]
  end.
  { unfold ret at 1. unfold vertex.logAuthenticationHelp, bind, log, emit, ret.
    eexists _, _, _. split; [now rewrite <- !app_assoc |]. now split. }
  destruct (isEmpty (strings.TrimSpace output)).
  { unfold ret at 1. unfold vertex.logAuthenticationHelp, bind, log, emit, ret.
    eexists _, _, _. split; [now rewrite <- !app_assoc |]. now split. }
  unfold bind at 1. unfold log at 1, emit at 1. unfold ret at 1.
  unfold bind at 1. unfold history at 1.
  match goal with
  | |- context [FindDefaultCredentials ?hh] =>
      destruct (FindDefaultCredentials hh) as [credentials [e|]]
  end.
  { unfold ret. eexists _, _, _. split; [now rewrite <- !app_assoc |]. now split. }
  unfold bind at 1.
  assert (Hlog : forall hh,
             exists logs, vertex.logCredentialInfo credentials c hh
                          = (Returned tt, c, (hh ++ logs)%list)).
  { intros hh. unfold vertex.logCredentialInfo, bind, log, emit, ret.
    destruct (negb (isEmpty (google.ProjectID credentials)));
      eexists; now rewrite <- ?app_assoc. }
  match goal with
  | |- context [vertex.logCredentialInfo credentials c ?hh] =>
      destruct (Hlog hh) as [logs ->]
  end.
  unfold bind at 1.
  destruct (isEmpty (ProjectID (vertex.config c))) eqn:Hproject.
  - destruct (isEmpty (google.ProjectID credentials)) eqn:Hcred; cbn [negb andb].
    + unfold ret at 1. unfold bind at 1. unfold get at 1. rewrite Hproject.
      unfold ret. eexists _, _, _. split; [now rewrite <- !app_assoc |]. now split.
    + unfold vertex.setProjectID at 1. unfold bind at 1. unfold get at 1.
      unfold put at 1. unfold bind at 1. unfold get at 1.
      cbn [vertex.config ProjectID]. rewrite Hcred.
      unfold bind at 1. unfold log at 1, emit at 1.
      unfold bind at 1. unfold log at 1, emit at 1.
      unfold bind at 1. unfold log at 1, emit at 1.
      unfold bind at 1. unfold history at 1.
      destruct (DefaultClient _) as [e|].
      * unfold ret. eexists _, _, _. split; [now rewrite <- !app_assoc |]. now split.
      * unfold vertex.setInitialized, bind, get, put, log, emit, ret.
        eexists _, _, _. split; [now rewrite <- !app_assoc |].
        cbn [vertex.sent vertex.initialized vertex.config ProjectID].
        split; [reflexivity |]. split; [reflexivity |].
        split; [now apply isEmpty_false |].
        apply isEmpty_true in Hproject. congruence.
  - cbn [andb]. unfold ret at 1. unfold bind at 1. unfold get at 1. rewrite Hproject.
    unfold bind at 1. unfold log at 1, emit at 1.
    unfold bind at 1. unfold log at 1, emit at 1.
    unfold bind at 1. unfold log at 1, emit at 1.
    unfold bind at 1. unfold history at 1.
    destruct (DefaultClient _) as [e|].
    + unfold ret. eexists _, _, _. split; [now rewrite <- !app_assoc |]. now split.
    + unfold vertex.setInitialized, bind, get, put, log, emit, ret.
      eexists _, _, _. split; [now rewrite <- !app_assoc |].
      cbn [vertex.sent vertex.initialized vertex.config].
      split; [reflexivity |]. split; [reflexivity |].
      split; [now apply isEmpty_false | reflexivity].
Qed.

(** X27.  [Initialize], on a client that is not initialized, sends no
    request.  When it returns nil the client is initialized and its
    project is not empty: the configured one when there is one, else
    the one of the credentials.  When it returns an error the client
    stays uninitialized. *)
Theorem vertex_Initialize_project :
  forall (W : World) (C : Cloud) (c : vertex.VertexClient) (h : list Event),
    vertex.initialized c = false ->
    exists out c' new,
      vertex.Initialize c h = (Returned out, c', (h ++ new)%list)
      /\ vertex.sent c' = vertex.sent c
      /\ match out with
         | None =>
             vertex.initialized c' = true
             /\ ProjectID (vertex.config c') <> ""
             /\ (ProjectID (vertex.config c) <> "" -> vertex.config c' = vertex.config c)
         | Some _ => vertex.initialized c' = false
         end.
Proof.
  intros W C c h.
  apply vertex_Initialize_run.
Qed.

Lemma vertex_Initialize_project_witness :
  exists out c' new,
    vertex.Initialize (world := signedInWorld) (cloud := sunnyCloud)
      (vertex.NewVertexClient (sampleVertexConfig true)) []
    = (Returned out, c', ([] ++ new)%list)
    /\ vertex.sent c' = vertex.sent (vertex.NewVertexClient (sampleVertexConfig true))
    /\ match out with
       | None =>
           vertex.initialized c' = true
           /\ ProjectID (vertex.config c') <> ""
           /\ (ProjectID (vertex.config (vertex.NewVertexClient (sampleVertexConfig true))) <> "" ->
               vertex.config c' = vertex.config (vertex.NewVertexClient (sampleVertexConfig true)))
       | Some _ => vertex.initialized c' = false
       end.
Proof.
  apply (vertex_Initialize_project signedInWorld sunnyCloud
           (vertex.NewVertexClient (sampleVertexConfig true)) []).
  reflexivity.
Defined.

(** The tail of [SendMessage], from the request on. *)
Lemma vertex_exchange {world : World} {cloud : Cloud} messages c h :
  vertex.initialized c = true ->
  exists text err c' new,
    vertex.SendMessage messages c h = (Returned (text, err), c', (h ++ new)%list)
    /\ (err = None <-> text <> "")
    /\ vertex.initialized c' = true
    /\ vertex.config c' = vertex.config c
    /\ (vertex.sent c' = vertex.sent c
        \/ exists request,
            vertex.sent c' = (vertex.sent c ++ [(vertex.endpoint (vertex.config c), request)])%list
            /\ wire.Messages request = messages).
Proof.
  intros Hinit. unfold vertex.SendMessage.
  unfold bind at 1. unfold get at 1. rewrite Hinit. cbn [negb].
  unfold bind at 1. unfold ret at 1. unfold bind at 1. unfold get at 1.
  destruct (vertex.marshalError _) as [e|].
  { unfold ret. eexists _, _, _, []. rewrite app_nil_r.
    split; [reflexivity |]. split; [split; [discriminate | congruence] |].
    split; [assumption |]. split; [reflexivity | now left]. }
  unfold bind at 1. unfold log at 1, emit at 1.
  destruct (NewRequest _) as [e|].
  { unfold ret. eexists _, _, _, _.
    split; [reflexivity |]. split; [split; [discriminate | congruence] |].
    split; [assumption |]. split; [reflexivity | now left]. }
  unfold bind at 1. unfold history at 1.
  unfold bind at 1. unfold vertex.recordSent at 1.
  unfold bind at 1. unfold get at 1. unfold put at 1.
  destruct (Do _ _ _) as [e | status body [e|]].
  1,2: unfold ret; eexists _, _, _, _;
       (split; [reflexivity |]); (split; [split; [discriminate | congruence] |]);
       (split; [assumption |]); (split; [reflexivity |]);
       right; eexists; split; reflexivity.
  unfold bind at 1. unfold log at 1, emit at 1.
  destruct (negb (status =? 200)).
  { unfold ret. eexists _, _, _, _. rewrite <- app_assoc.
    split; [reflexivity |]. split; [split; [discriminate | congruence] |].
    split; [assumption |]. split; [reflexivity |].
    right. eexists. split; reflexivity. }
  destruct (Unmarshal body) as [vertexResponse [e|]].
  { unfold ret. eexists _, _, _, _. rewrite <- app_assoc.
    split; [reflexivity |]. split; [split; [discriminate | congruence] |].
    split; [assumption |]. split; [reflexivity |].
    right. eexists. split; reflexivity. }
  destruct (isEmpty (vertex.extractTextFromResponse vertexResponse)) eqn:Hempty.
  { unfold ret. eexists _, _, _, _. rewrite <- app_assoc.
    split; [reflexivity |]. split; [split; [discriminate | congruence] |].
    split; [assumption |]. split; [reflexivity |].
    right. eexists. split; reflexivity. }
  unfold ret. eexists _, _, _, _. rewrite <- app_assoc.
  split; [reflexivity |].
  split; [split; [intros _; now apply extract_nonempty | reflexivity] |].
  split; [assumption |]. split; [reflexivity |].
  right. eexists. split; reflexivity.
Qed.

Lemma vertex_SendMessage_fresh {world : World} {cloud : Cloud} messages c h c1 h1 :
  vertex.initialized c = false ->
  vertex.Initialize c h = (Returned None, c1, h1) ->
  vertex.initialized c1 = true ->
  vertex.SendMessage messages c h = vertex.SendMessage messages c1 h1.
Proof.
  intros Hinit Hrun Hc1. unfold vertex.SendMessage.
  unfold bind at 1. unfold get at 1. rewrite Hinit. cbn [negb].
  unfold bind at 1. rewrite Hrun. symmetry.
  unfold bind at 1. unfold get at 1. rewrite Hc1. cbn [negb].
  unfold bind at 1. unfold ret at 1. reflexivity.
Qed.

(** X28.  [SendMessage] of the Vertex client returns a text that is
    not empty exactly when it returns no error.  It hands at most one
    request to the HTTP client, to the endpoint of its configuration
    and with the messages it was given, and none at all when it leaves
    the client uninitialized. *)
Theorem vertex_SendMessage_contract :
  forall (W : World) (C : Cloud) (messages : list Message)
         (c : vertex.VertexClient) (h : list Event),
    exists text err c' new,
      vertex.SendMessage messages c h = (Returned (text, err), c', (h ++ new)%list)
      /\ (err = None <-> text <> "")
      /\ (vertex.sent c' = vertex.sent c
          \/ exists request,
              vertex.sent c'
              = (vertex.sent c ++ [(vertex.endpoint (vertex.config c'), request)])%list
              /\ wire.Messages request = messages)
      /\ (vertex.initialized c' = false -> vertex.sent c' = vertex.sent c /\ err <> None).
Proof.
  intros W C messages c h.
  destruct (vertex.initialized c) eqn:Hinit.
  - destruct (vertex_exchange messages c h Hinit)
      as [text [err [c' [new [Hrun [Hiff [Hi [Hcfg Hsent]]]]]]]].
    exists text, err, c', new. split; [assumption |]. split; [assumption |].
    split; [now rewrite Hcfg | congruence].
  - destruct (vertex_Initialize_run c h Hinit) as [out [c1 [new1 [Hrun [Hsent1 Hout]]]]].
    destruct out as [e|].
    + unfold vertex.SendMessage.
      unfold bind at 1. unfold get at 1. rewrite Hinit. cbn [negb].
      unfold bind at 1. rewrite Hrun. unfold ret.
      eexists _, _, _, _. split; [reflexivity |].
      split; [split; [discriminate | congruence] |].
      split; [now left |]. intros _. split; [assumption | discriminate].
    + destruct Hout as [Hc1 _].
      rewrite (vertex_SendMessage_fresh messages c h c1 _ Hinit Hrun Hc1).
      destruct (vertex_exchange messages c1 (h ++ new1)%list Hc1)
        as [text [err [c' [new [Hrun' [Hiff [Hi [Hcfg Hsent]]]]]]]].
      exists text, err, c', (new1 ++ new)%list.
      split; [now rewrite app_assoc |]. split; [assumption |].
      split; [rewrite <- Hsent1, Hcfg; assumption | congruence].
Qed.

(** ** The client behind the engine *)

(** X29.  Behind an endpoint that keeps the contract of the Vertex
    client, a text that is not empty or an error, the engine never
    answers that the response was empty: the only error it returns is
    the one of its first request, wrapped. *)
Theorem SendMessage_empty_reply_unreachable :
  forall (T : CaseTables) (W : World) (St : Type) (s : claude.SmartClient)
         (messages : list Message) (st st' : St) (h h' : list Event)
         (text : string) (e : error),
    (forall hh ms, fst (vertexSend hh ms) = "" -> snd (vertexSend hh ms) <> None) ->
    claude.SendMessage s messages st h = (Returned (text, Some e), st', h') ->
    exists e0, snd (vertexSend h messages) = Some e0
               /\ e = "failed to get initial response: " ++ e0.
Proof.
  intros T W St s messages st st' h h' text e Hcontract.
  rewrite SendMessage_turn. unfold turnOf.
  pose proof (Hcontract h messages) as Hfirst.
  destruct (vertexSend h messages) as [primary [e0|]]; cbn [fst snd] in *.
  { intros [= _ <- _ _]. now exists e0. }
  destruct (isEmpty primary) eqn:Hempty.
  { apply isEmpty_true in Hempty. specialize (Hfirst Hempty). congruence. }
  destruct (claude.autoSearchEnabled s && claude.needsWebSearch s primary messages);
    [| discriminate].
  destruct (_ <? 100)%nat; [discriminate |].
  repeat match goal with
         | |- context [match ?x with _ => _ end] => destruct x; try discriminate
         | |- context [if ?x then _ else _] => destruct x; try discriminate
         end.
Qed.

Lemma SendMessage_empty_reply_unreachable_witness :
  exists e0,
    snd (vertexSend (World := signedInWorld) [] askWeather) = Some e0
    /\ "failed to get initial response: connection refused"
       = "failed to get initial response: " ++ e0.
Proof.
  apply (SendMessage_empty_reply_unreachable latin1Tables signedInWorld unit
           (claude.NewSmartClient (sampleVertexConfig true)) askWeather tt tt []
           (snd (claude.SendMessage (tables := latin1Tables) (world := signedInWorld)
                   (claude.NewSmartClient (sampleVertexConfig true)) askWeather tt []))
           "" "failed to get initial response: connection refused").
  - intros hh ms _. simpl. destruct (countVertexCalls hh); discriminate.
  - vm_compute. reflexivity.
Defined.
